(** * zha_custom: device scan and ZDO helpers

    A shallow embedding of [scan_device.py] and [zdo.py] and the properties
    of the scan report that follow from the code.

    Conventions of the embedding.
    - A Python [str] is a list of Unicode code points ([pystr]); the
      literals of the source, all ASCII, are written [s{"..."}].
    - A Python [dict] is an association list in insertion order ([dict]):
      the code reads [result.keys()] and [d.items()] in that order.
    - The transport (the Zigbee stack behind [cluster.discover_...] and
      [cluster.read_attributes]) is an oracle: the outcomes of the
      retry-wrapped calls still to come are tapes in the [World], and every
      call the code issues is appended to the [calls] log.
    - [asyncio.sleep] and the [LOGGER] calls of [scan_device.py] change
      neither the report nor the transport calls and are left out. *)

From Stdlib Require Import String Ascii Strings.Byte DecimalString.
From Stdlib Require Import List NArith ZArith Bool Lia.
From Stdlib Require Import Permutation Sorted.
Import ListNotations.

Set Implicit Arguments.

Local Open Scope list_scope.
Local Open Scope N_scope.

(* ================================================================== *)
(** ** Python strings *)

Module Py.

Definition pystr := list N.

(** A literal of the source, as code points. *)
Definition lit (x : string) : pystr :=
  List.map (fun b => Byte.to_N b) (list_byte_of_string x).

Definition pystr_eqb (a b : pystr) : bool :=
  if list_eq_dec N.eq_dec a b then true else false.

Lemma pystr_eqb_eq a b : pystr_eqb a b = true <-> a = b.
Proof.
  unfold pystr_eqb. destruct (list_eq_dec N.eq_dec a b); split; congruence.
Qed.

Lemma pystr_eqb_refl a : pystr_eqb a a = true.
Proof. now apply pystr_eqb_eq. Qed.

Lemma pystr_eqb_neq a b : pystr_eqb a b = false <-> a <> b.
Proof.
  unfold pystr_eqb. destruct (list_eq_dec N.eq_dec a b); split; congruence.
Qed.

(** [a < b] on [str]: lexicographic on code points, a proper prefix first. *)
Fixpoint str_lt (a b : pystr) : bool :=
  match a, b with
  | _, [] => false
  | [], _ :: _ => true
  | x :: a', y :: b' =>
      if x <? y then true else if y <? x then false else str_lt a' b'
  end.

(** *** Number formatting *)

Definition hex_digit (d : N) : N :=
  if d <? 10 then 48 + d else 87 + d.      (* '0'..'9', 'a'..'f' *)

(** The digits of [format(n, "x")], most significant first. *)
Fixpoint hex_digits_aux (fuel : nat) (n : N) (acc : pystr) : pystr :=
  match fuel with
  | O => acc
  | S fuel' =>
      let acc' := hex_digit (n mod 16) :: acc in
      if n / 16 =? 0 then acc' else hex_digits_aux fuel' (n / 16) acc'
  end.

Definition hex_digits (n : N) : pystr :=
  hex_digits_aux (S (N.to_nat (N.log2 n))) n [].

(** Zero padding on the left up to [width] characters. *)
Definition zfill (width : nat) (x : pystr) : pystr :=
  repeat 48 (width - length x) ++ x.

(** ["0x{:04x}".format(n)] is [format_0x 4 n], ["0x{:02x}".format(n)] is
    [format_0x 2 n]. *)
Definition format_0x (width : nat) (n : N) : pystr :=
  [48; 120] ++ zfill width (hex_digits n).

(** [str(n)] for a non-negative integer. *)
Definition str_of_N (n : N) : pystr :=
  lit (NilEmpty.string_of_uint (N.to_uint n)).

End Py.
Import Py.

Notation "s{ x }" := (Py.lit x) (at level 0, x at level 0, format "s{ x }").

Example format_0x_4 : format_0x 4 6 = s{"0x0006"}.
Proof. reflexivity. Qed.
Example format_0x_2 : format_0x 2 255 = s{"0xff"}.
Proof. reflexivity. Qed.
Example format_0x_wide : format_0x 2 256 = s{"0x100"}.
Proof. reflexivity. Qed.
Example str_of_N_ex : str_of_N 1029 = s{"1029"}.
Proof. reflexivity. Qed.

(* ================================================================== *)
(** ** Python bytes: [split], [decode], [strip], [hex] *)

Module PyBytes.

(** [bs.split(sep)] for a one-byte separator. *)
Fixpoint bytes_split (sep : byte) (bs : list byte) : list (list byte) :=
  match bs with
  | [] => [[]]
  | b :: r =>
      if Byte.eqb b sep then [] :: bytes_split sep r
      else match bytes_split sep r with
           | p :: ps => (b :: p) :: ps
           | [] => [[b]]
           end
  end.

Definition is_cont (b : N) : bool := (128 <=? b) && (b <=? 191).

(** Admissible second byte of a three-byte sequence led by [b0]. *)
Definition second3 (b0 b1 : N) : bool :=
  if b0 =? 224 then (160 <=? b1) && (b1 <=? 191)
  else if b0 =? 237 then (128 <=? b1) && (b1 <=? 159)
  else is_cont b1.

(** Admissible second byte of a four-byte sequence led by [b0]. *)
Definition second4 (b0 b1 : N) : bool :=
  if b0 =? 240 then (144 <=? b1) && (b1 <=? 191)
  else if b0 =? 244 then (128 <=? b1) && (b1 <=? 143)
  else is_cont b1.

(** Strict UTF-8, as [bytes.decode()] applies it: no overlong form, no
    surrogate, nothing above U+10FFFF; [None] is [UnicodeDecodeError]. *)
Fixpoint utf8_decode (bs : list N) : option pystr :=
  match bs with
  | [] => Some []
  | b0 :: r0 =>
      if b0 <? 128 then option_map (cons b0) (utf8_decode r0)
      else if (194 <=? b0) && (b0 <=? 223) then
        match r0 with
        | b1 :: r1 =>
            if is_cont b1
            then option_map (cons ((b0 - 192) * 64 + (b1 - 128)))
                            (utf8_decode r1)
            else None
        | _ => None
        end
      else if (224 <=? b0) && (b0 <=? 239) then
        match r0 with
        | b1 :: b2 :: r2 =>
            if second3 b0 b1 && is_cont b2
            then option_map
                   (cons ((b0 - 224) * 4096 + (b1 - 128) * 64 + (b2 - 128)))
                   (utf8_decode r2)
            else None
        | _ => None
        end
      else if (240 <=? b0) && (b0 <=? 244) then
        match r0 with
        | b1 :: b2 :: b3 :: r3 =>
            if second4 b0 b1 && is_cont b2 && is_cont b3
            then option_map
                   (cons ((b0 - 240) * 262144 + (b1 - 128) * 4096
                          + (b2 - 128) * 64 + (b3 - 128)))
                   (utf8_decode r3)
            else None
        | _ => None
        end
      else None
  end.

Definition decode (bs : list byte) : option pystr :=
  utf8_decode (List.map Byte.to_N bs).

(** [str.isspace] on one code point. *)
Definition isspace (c : N) : bool :=
  ((9 <=? c) && (c <=? 13)) || ((28 <=? c) && (c <=? 32))
  || (c =? 133) || (c =? 160) || (c =? 5760)
  || ((8192 <=? c) && (c <=? 8202))
  || (c =? 8232) || (c =? 8233) || (c =? 8239) || (c =? 8287)
  || (c =? 12288).

Fixpoint lstrip (x : pystr) : pystr :=
  match x with
  | c :: r => if isspace c then lstrip r else x
  | [] => []
  end.

Definition rstrip (x : pystr) : pystr := rev (lstrip (rev x)).

Definition strip (x : pystr) : pystr := rstrip (lstrip x).

(** [bs.hex()]: two lower-case digits a byte. *)
Definition hex_of_byte (b : byte) : pystr :=
  let n := Byte.to_N b in [hex_digit (n / 16); hex_digit (n mod 16)].

Definition hex (bs : list byte) : pystr := flat_map hex_of_byte bs.

Definition unhex_digit (c : N) : option N :=
  if (48 <=? c) && (c <=? 57) then Some (c - 48)
  else if (97 <=? c) && (c <=? 102) then Some (c - 87)
  else if (65 <=? c) && (c <=? 70) then Some (c - 55)
  else None.

(** [bytes.fromhex(x)] on a string of digit pairs. *)
Fixpoint fromhex (x : pystr) : option (list byte) :=
  match x with
  | [] => Some []
  | h :: l :: r =>
      match unhex_digit h, unhex_digit l with
      | Some a, Some b =>
          match Byte.of_N (a * 16 + b), fromhex r with
          | Some y, Some ys => Some (y :: ys)
          | _, _ => None
          end
      | _, _ => None
      end
  | _ => None
  end.

End PyBytes.
Import PyBytes.

Example split_ex :
  bytes_split x00 [x61; x00; x62; x00] = [[x61]; [x62]; []].
Proof. reflexivity. Qed.
Example decode_ex : decode [xc3; xa9; x20] = Some [233; 32].
Proof. reflexivity. Qed.
Example decode_bad : decode [xff] = None.
Proof. reflexivity. Qed.
Example strip_ex : strip s{"  lumi.plug "} = s{"lumi.plug"}.
Proof. reflexivity. Qed.

(* ================================================================== *)
(** ** Python dicts and report values *)

Section Dict.
Variables K V : Type.
Variable eqb : K -> K -> bool.

(** Items in insertion order; the keys of a dict are pairwise distinct. *)
Definition dict := list (K * V).

Fixpoint dict_get (k : K) (d : dict) : option V :=
  match d with
  | [] => None
  | (k', v) :: r => if eqb k k' then Some v else dict_get k r
  end.

(** [d[k] = v]: a known key keeps its place, a new one goes last. *)
Fixpoint dict_set (k : K) (v : V) (d : dict) : dict :=
  match d with
  | [] => [(k, v)]
  | (k', v') :: r =>
      if eqb k k' then (k', v) :: r else (k', v') :: dict_set k v r
  end.

Definition dict_keys (d : dict) : list K := List.map fst d.

(** [dict(items)] and [OrderedDict(items)]. *)
Definition dict_of_items (items : list (K * V)) : dict :=
  fold_left (fun d kv => dict_set (fst kv) (snd kv) d) items [].
End Dict.

#[local] Set Warnings "-register-all".

Inductive pyval : Type :=
| PNone
| PBool (b : bool)
| PInt (z : Z)
| PStr (x : pystr)
| PBytes (bs : list byte)
| PList (l : list pyval)
| PDict (d : list (pystr * pyval)).

(** A dict with [str] keys, as the reports are. *)
Definition sdict := dict pystr pyval.
Definition sget (k : pystr) (d : sdict) : option pyval := dict_get pystr_eqb k d.
Definition sset (k : pystr) (v : pyval) (d : sdict) : sdict :=
  dict_set pystr_eqb k v d.

(** [sorted(xs, key=...)]: a stable sort that compares keys with [<] only. *)
Section Sorted.
Variables A B : Type.
Variable key : A -> B.
Variable lt : B -> B -> bool.

Fixpoint insert_sorted (x : A) (l : list A) : list A :=
  match l with
  | [] => [x]
  | y :: r => if lt (key y) (key x) then y :: insert_sorted x r else x :: l
  end.

Definition sorted (l : list A) : list A := fold_right insert_sorted [] l.
End Sorted.

Example sorted_stable :
  sorted fst N.ltb [(2, 7); (1, 8); (2, 9); (1, 10)]
  = [(1, 8); (1, 10); (2, 7); (2, 9)].
Proof. reflexivity. Qed.

(* ================================================================== *)
(** ** The transport and the effects of a scan *)

(** The exceptions met: [zigpy.exceptions.DeliveryError] and
    [asyncio.TimeoutError] from a transport call (both are retried by
    [retryable], the last one is re-raised), [KeyError] from a dict or a
    device table, [ValueError] from a conversion, [AttributeError] from
    [x.__name__] when [x] has no such attribute. *)
Inductive exn : Type :=
| DeliveryError | TimeoutError | KeyError | ValueError | AttributeError.

Inductive outcome (A : Type) : Type :=
| Raises (e : exn)
| Returns (a : A).
Arguments Raises {A} e.
Arguments Returns {A} a.

(** What a discovery call answers besides its completion flag: a bare
    [foundation.Status], or a page of records. *)
Inductive response (R : Type) : Type :=
| Status (code : N)
| Records (recs : list R).
Arguments Status {R} code.
Arguments Records {R} recs.

(** One record of a "discover attributes extended" response. *)
Record attr_rec : Type := AttrRec { attrid : N; datatype : N; acl : N }.

Inductive call : Type :=
| DiscoverAttributesExtended (cluster start count : N) (manufacturer : option N)
| DiscoverCommandsReceived (cluster start count : N) (manufacturer : option N)
| DiscoverCommandsGenerated (cluster start count : N) (manufacturer : option N)
| ReadAttributes (cluster : N) (attrs : list N).

(** The outcomes still to come of the retry-wrapped calls ([wrapper] and
    [read_attr], that is after [retryable] has used up its tries), one tape
    for each operation, and the calls issued so far, oldest first. *)
Record World : Type := MkWorld {
  attr_tape : list (outcome (bool * response attr_rec));
  received_tape : list (outcome (bool * response N));
  generated_tape : list (outcome (bool * response N));
  read_tape : list (outcome (dict N pyval * dict N N));
  calls : list call
}.

Definition issue (c : call) (w : World) : World :=
  MkWorld (attr_tape w) (received_tape w) (generated_tape w) (read_tape w)
          (calls w ++ [c]).

(** [Stuck]: the tape of the operation is used up, the model says nothing. *)
Inductive res (A : Type) : Type :=
| Ok (a : A)
| Raised (e : exn)
| Stuck.
Arguments Ok {A} a.
Arguments Raised {A} e.
Arguments Stuck {A}.

(** State and exceptions: a computation runs in a world and returns, raises
    or gets stuck. *)
Definition SM (W A : Type) : Type := W -> res A * W.

Definition ret {W A} (a : A) : SM W A := fun w => (Ok a, w).

Definition raise {W A} (e : exn) : SM W A := fun w => (Raised e, w).

Definition bind {W A B} (m : SM W A) (k : A -> SM W B) : SM W B :=
  fun w =>
    match m w with
    | (Ok a, w') => k a w'
    | (Raised e, w') => (Raised e, w')
    | (Stuck, w') => (Stuck, w')
    end.

Notation "x <- m ;; k" := (bind m (fun x => k))
  (at level 61, m at next level, right associativity).

(** [for x in xs: st = body(st, x)] with an effectful body. *)
Fixpoint for_each {W A S} (body : S -> A -> SM W S) (xs : list A) (st : S)
  : SM W S :=
  match xs with
  | [] => ret st
  | x :: r => st' <- body st x ;; for_each body r st'
  end.

Definition M (A : Type) : Type := SM World A.

Definition answer {A} (o : outcome A) : res A :=
  match o with
  | Raises e => Raised e
  | Returns a => Ok a
  end.

(** [await wrapper(cluster.discover_attributes_extended, start, 16, manufacturer=...)] *)
Definition call_discover_attributes_extended
    (cid start : N) (manufacturer : option N) : M (bool * response attr_rec) :=
  fun w =>
    let w := issue (DiscoverAttributesExtended cid start 16 manufacturer) w in
    match attr_tape w with
    | [] => (Stuck, w)
    | o :: t =>
        (answer o,
         MkWorld t (received_tape w) (generated_tape w) (read_tape w) (calls w))
    end.

(** [await wrapper(cluster.discover_commands_received, start, 16, manufacturer=...)] *)
Definition call_discover_commands_received
    (cid start : N) (manufacturer : option N) : M (bool * response N) :=
  fun w =>
    let w := issue (DiscoverCommandsReceived cid start 16 manufacturer) w in
    match received_tape w with
    | [] => (Stuck, w)
    | o :: t =>
        (answer o,
         MkWorld (attr_tape w) t (generated_tape w) (read_tape w) (calls w))
    end.

(** [await wrapper(cluster.discover_commands_generated, start, 16, manufacturer=...)] *)
Definition call_discover_commands_generated
    (cid start : N) (manufacturer : option N) : M (bool * response N) :=
  fun w =>
    let w := issue (DiscoverCommandsGenerated cid start 16 manufacturer) w in
    match generated_tape w with
    | [] => (Stuck, w)
    | o :: t =>
        (answer o,
         MkWorld (attr_tape w) (received_tape w) t (read_tape w) (calls w))
    end.

(** [await read_attr(cluster, attrs)] *)
Definition read_attr (cid : N) (attrs : list N) : M (dict N pyval * dict N N) :=
  fun w =>
    let w := issue (ReadAttributes cid attrs) w in
    match read_tape w with
    | [] => (Stuck, w)
    | o :: t =>
        (answer o,
         MkWorld (attr_tape w) (received_tape w) (generated_tape w) t (calls w))
    end.

(* ================================================================== *)
(** ** [scan_device.py] *)

(** The schema of a cluster, as far as the scan reads it. *)
Record Cluster : Type := MkCluster {
  cluster_id : N;
  ep_attribute : pyval;
  (** [cluster.attributes]: id to [(name, type)], only the name is read *)
  attributes : N -> option pystr;
  (** [cluster.server_commands], [cluster.client_commands]: id to
      [(name, schema, is_reply)], with the [__name__] of each schema type *)
  server_commands : N -> option (pystr * list pystr);
  client_commands : N -> option (pystr * list pystr)
}.

Record Endpoint : Type := MkEndpoint {
  model : pyval;
  manufacturer : pyval;
  device_type : N;
  profile_id : N;
  in_clusters : list Cluster;     (** [ep.in_clusters.values()] *)
  out_clusters : list Cluster     (** [ep.out_clusters.values()] *)
}.

Record Device : Type := MkDevice {
  ieee : pystr;                   (** [str(device.ieee)] *)
  nwk : N;
  endpoints : list (N * Endpoint) (** [device.endpoints.items()] *)
}.

(** The tables of [zigpy.zcl.foundation] the scan looks into. *)
Record Foundation : Type := MkFoundation {
  (** [DATA_TYPES.get(t)]: of an entry [(name, type, class)] the [__name__]
      of [type] and that of [class], each [None] when the component has no
      [__name__] (the entry of 0xff is [("Unknown", Unknown, None)]) *)
  DATA_TYPES : N -> option (option pystr * option pystr);
  (** [AttributeAccessControl(acl).name]; [None] is [ValueError] *)
  AttributeAccessControl : N -> option pyval
}.

(** The discovery loop the three discovery functions share: the request at
    the cursor, then for every record of the page the id it carries
    ([rec_id]), the key it is stored under and the entry stored; the
    expressions that make the entry may raise. *)
Section Paginator.
Variables R K : Type.
Variable request : N -> M (bool * response R).
Variable rec_id : R -> N.
Variable key : R -> K.
Variable entry : R -> exn + sdict.
Variable eqb : K -> K -> bool.

(** The body of [for rec in rsp]: [id = rec id; result[key] = entry;
    id += 1]. *)
Definition page_body (st : N * dict K sdict) (r : R)
  : exn + N * dict K sdict :=
  let id := rec_id r in
  match entry r with
  | inl e => inl e
  | inr v => inr (id + 1, dict_set eqb (key r) v (snd st))
  end.

(** [for rec in rsp: ...], left at the first record whose body raises. *)
Fixpoint for_records (recs : list R) (st : N * dict K sdict)
  : exn + N * dict K sdict :=
  match recs with
  | [] => inr st
  | r :: recs' =>
      match page_body st r with
      | inl e => inl e
      | inr st' => for_records recs' st'
      end
  end.

(** [while not done], one iteration for each unit of [fuel]. *)
Fixpoint while_not_done (fuel : nat) (cursor : N) (result : dict K sdict)
  : M (dict K sdict) :=
  fun w =>
    match fuel with
    | O => (Stuck, w)
    | S fuel' =>
        match request cursor w with
        | (Ok (done, Records recs), w') =>
            match for_records recs (cursor, result) with
            | inl e => (Raised e, w')                     (* not caught *)
            | inr st =>
                if (done : bool) then (Ok (snd st), w')
                else while_not_done fuel' (fst st) (snd st) w'
            end
        | (Ok (_, Status _), w') => (Ok result, w')       (* break *)
        | (Raised DeliveryError, w') => (Ok result, w')   (* break *)
        | (Raised e, w') => (Raised e, w')
        | (Stuck, w') => (Stuck, w')
        end
    end.
End Paginator.

Section ScanDevice.
Variable foundation : Foundation.

(** [x.__name__] *)
Definition dunder_name (name : option pystr) : exn + pystr :=
  match name with
  | Some n => inr n
  | None => inl AttributeError
  end.

(** [attr_type = foundation.DATA_TYPES.get(attr_rec.datatype)] and the
    [if attr_type: ... else: ...] that follows. *)
Definition value_type (datatype : N) : exn + pyval :=
  match DATA_TYPES foundation datatype with
  | Some (type_, class_) =>
      match dunder_name type_ with
      | inl e => inl e
      | inr t1 =>
          match dunder_name class_ with
          | inl e => inl e
          | inr t2 => inr (PList [PStr t1; PStr t2])
          end
      end
  | None => inr (PStr (format_0x 2 datatype))
  end.

(** The body of [for attr_rec in rsp] up to the entry stored; nothing
    catches what [__name__] raises. *)
Definition attr_entry (cluster : Cluster) (attr_rec : attr_rec)
  : exn + sdict :=
  let attr_id := attrid attr_rec in
  let attr_name :=
    match attributes cluster attr_id with
    | Some name => name
    | None => str_of_N attr_id
    end in
  match value_type (datatype attr_rec) with
  | inl e => inl e
  | inr attr_type =>
      let access :=
        match AttributeAccessControl foundation (acl attr_rec) with
        | Some name => name
        | None => PStr s{"undefined"}
        end in
      inr [ (s{"attribute_id"}, PStr (format_0x 4 attr_id));
            (s{"attribute_name"}, PStr attr_name);
            (s{"value_type"}, attr_type);
            (s{"access"}, access) ]
  end.

(** The first loop of [discover_attributes_extended]: every call uses one
    outcome of the tape, so the fuel given is never used up. *)
Definition discover_attribute_pages (cluster : Cluster)
    (manufacturer : option N) : M (dict N sdict) :=
  fun w =>
    while_not_done
      (fun attr_id =>
         call_discover_attributes_extended (cluster_id cluster) attr_id
                                           manufacturer)
      attrid attrid (attr_entry cluster) N.eqb
      (S (length (attr_tape w))) 0 [] w.

(** [value.split(b"\x00")[0].decode().strip()], or [value.hex()] on
    [UnicodeDecodeError]; other values are kept. *)
Definition convert_value (value : pyval) : pyval :=
  match value with
  | PBytes bs =>
      match decode (hd [] (bytes_split x00 bs)) with
      | Some text => PStr (strip text)
      | None => PStr (hex bs)
      end
  | _ => value
  end.

(** [for attr_id, value in success.items(): ...
    result[attr_id]["attribute_value"] = value] *)
Definition store_values (result : dict N sdict) (success : dict N pyval)
  : M (dict N sdict) :=
  for_each
    (fun result (item : N * pyval) =>
       let (attr_id, value) := item in
       let value := convert_value value in
       match dict_get N.eqb attr_id result with
       | Some e =>
           ret (dict_set N.eqb attr_id (sset s{"attribute_value"} value e)
                         result)
       | None => raise KeyError
       end)
    success result.

(** The [try] of the second loop: a [DeliveryError] can only come from
    [read_attr], before any value is stored. *)
Definition try_read_chunk (cluster : Cluster) (chunk : list N)
    (result : dict N sdict) : M (dict N sdict) :=
  fun w =>
    match (rsp <- read_attr (cluster_id cluster) chunk ;;
           store_values result (fst rsp)) w with
    | (Raised DeliveryError, w') => (Ok result, w')
    | r => r
    end.

(** [while chunk: ...; chunk, to_read = to_read[:4], to_read[4:]] *)
Fixpoint read_chunks (fuel : nat) (cluster : Cluster)
    (chunk to_read : list N) (result : dict N sdict) : M (dict N sdict) :=
  match chunk with
  | [] => ret result
  | _ :: _ =>
      match fuel with
      | O => fun w => (Stuck, w)
      | S fuel' =>
          result' <- try_read_chunk cluster chunk result ;;
          read_chunks fuel' cluster (firstn 4 to_read) (skipn 4 to_read)
                      result'
      end
  end.

(** The second loop of [discover_attributes_extended], from
    [to_read = list(result.keys())] on. *)
Definition read_attribute_values (cluster : Cluster)
    (result : dict N sdict) : M (dict N sdict) :=
  let to_read := dict_keys result in
  read_chunks (length to_read) cluster (firstn 4 to_read) (skipn 4 to_read)
              result.

(** [OrderedDict([("0x{:04x}".format(a_id), result[a_id]) for a_id in
    sorted(result)])] *)
Definition attributes_report (result : dict N sdict) : sdict :=
  dict_of_items pystr_eqb
    (List.map
       (fun a_id =>
          (format_0x 4 a_id,
           match dict_get N.eqb a_id result with
           | Some e => PDict e
           | None => PNone       (* not reached: [a_id] is a key *)
           end))
       (sorted (fun a_id => a_id) N.ltb (dict_keys result))).

Definition discover_attributes_extended (cluster : Cluster)
    (manufacturer : option N) : M sdict :=
  result <- discover_attribute_pages cluster manufacturer ;;
  result <- read_attribute_values cluster result ;;
  ret (attributes_report result).

(** [cmd_data = commands.get(cmd_id, (str(cmd_id), "not_in_zcl", None))]
    and the names of its arguments. *)
Definition command_data (commands : N -> option (pystr * list pystr))
    (cmd_id : N) : pystr * pyval :=
  match commands cmd_id with
  | Some (cmd_name, cmd_args) => (cmd_name, PList (List.map PStr cmd_args))
  | None => (str_of_N cmd_id, PStr s{"not_in_zcl"})
  end.

Definition received_entry (cluster : Cluster) (cmd_id : N) : sdict :=
  let (cmd_name, cmd_args) := command_data (server_commands cluster) cmd_id in
  [ (s{"command_id"}, PStr (format_0x 2 cmd_id));
    (s{"command_name"}, PStr cmd_name);
    (s{"command_arguments"}, cmd_args) ].

Definition generated_entry (cluster : Cluster) (cmd_id : N) : sdict :=
  let (cmd_name, cmd_args) := command_data (client_commands cluster) cmd_id in
  [ (s{"command_id"}, PStr (format_0x 2 cmd_id));
    (s{"command_Name"}, PStr cmd_name);
    (s{"command_args"}, cmd_args) ].

(** [OrderedDict(sorted(d.items(), key=lambda k: k[0]))] *)
Definition sorted_items (d : sdict) : sdict :=
  dict_of_items pystr_eqb (sorted fst str_lt d).

(** The same of the commands stored, each entry a value of the report. *)
Definition sorted_report (result : dict pystr sdict) : sdict :=
  sorted_items (List.map (fun kv => (fst kv, PDict (snd kv))) result).

Definition discover_received_pages (cluster : Cluster)
    (manufacturer : option N) : M (dict pystr sdict) :=
  fun w =>
    while_not_done
      (fun cmd_id =>
         call_discover_commands_received (cluster_id cluster) cmd_id
                                         manufacturer)
      (fun cmd_id => cmd_id) (format_0x 2)
      (fun cmd_id => inr (received_entry cluster cmd_id)) pystr_eqb
      (S (length (received_tape w))) 0 [] w.

(** [is_server] only names the unused [direction]. *)
Definition discover_commands_received (cluster : Cluster)
    (is_server : bool) (manufacturer : option N) : M sdict :=
  result <- discover_received_pages cluster manufacturer ;;
  ret (sorted_report result).

Definition discover_generated_pages (cluster : Cluster)
    (manufacturer : option N) : M (dict pystr sdict) :=
  fun w =>
    while_not_done
      (fun cmd_id =>
         call_discover_commands_generated (cluster_id cluster) cmd_id
                                          manufacturer)
      (fun cmd_id => cmd_id) (format_0x 2)
      (fun cmd_id => inr (generated_entry cluster cmd_id)) pystr_eqb
      (S (length (generated_tape w))) 0 [] w.

Definition discover_commands_generated (cluster : Cluster)
    (is_server : bool) (manufacturer : option N) : M sdict :=
  result <- discover_generated_pages cluster manufacturer ;;
  ret (sorted_report result).

Definition scan_cluster (cluster : Cluster) (is_server : bool) : M sdict :=
  let (cmds_gen, cmds_rec) :=
    if is_server
    then (s{"commands_generated"}, s{"commands_received"})
    else (s{"commands_received"}, s{"commands_generated"}) in
  attrs <- discover_attributes_extended cluster None ;;
  received <- discover_commands_received cluster is_server None ;;
  generated <- discover_commands_generated cluster is_server None ;;
  ret (dict_of_items pystr_eqb
         [ (s{"cluster_id"}, PStr (format_0x 4 (cluster_id cluster)));
           (s{"name"}, ep_attribute cluster);
           (s{"attributes"}, PDict attrs);
           (cmds_rec, PDict received);
           (cmds_gen, PDict generated) ]).

(** One of the two loops of [scan_endpoint] with the sort that follows. *)
Definition scan_clusters (clusters_of_ep : list Cluster) : M sdict :=
  clusters <-
    for_each
      (fun clusters cluster =>
         let key := format_0x 4 (cluster_id cluster) in
         report <- scan_cluster cluster true ;;
         ret (sset key (PDict report) clusters))
      clusters_of_ep [] ;;
  ret (sorted_items clusters).

Definition scan_endpoint (ep : Endpoint) : M sdict :=
  let result := [] in
  ins <- scan_clusters (in_clusters ep) ;;
  let result := sset s{"in_clusters"} (PDict ins) result in
  outs <- scan_clusters (out_clusters ep) ;;
  let result := sset s{"out_clusters"} (PDict outs) result in
  ret result.

(** [d.update(other)] *)
Definition dict_update (d other : sdict) : sdict :=
  fold_left (fun d kv => sset (fst kv) (snd kv) d) other d.

Definition scan_results (device : Device) : M sdict :=
  let result :=
    [ (s{"ieee"}, PStr (ieee device));
      (s{"nwk"}, PStr (format_0x 4 (nwk device))) ] in
  st <-
    for_each
      (fun (st : sdict * list pyval) (item : N * Endpoint) =>
         let (result, endpoints) := st in
         let (epid, ep) := item in
         if epid =? 0 then ret st                         (* continue *)
         else
           let result := sset s{"model"} (model ep) result in
           let result := sset s{"manufacturer"} (manufacturer ep) result in
           let endpoint :=
             [ (s{"id"}, PInt (Z.of_N epid));
               (s{"device_type"}, PStr (format_0x 4 (device_type ep)));
               (s{"profile"}, PStr (format_0x 4 (profile_id ep))) ] in
           scanned <- scan_endpoint ep ;;
           let endpoint := dict_update endpoint scanned in
           ret (result, endpoints ++ [PDict endpoint]))
      (endpoints device) (result, []) ;;
  let (result, endpoints) := st in
  ret (sset s{"endpoints"} (PList endpoints) result).
End ScanDevice.

(* ================================================================== *)
(** ** [zdo.py] *)

Module Zdo.

Inductive level : Type := DEBUG | WARNING | ERROR.

Inductive zdo_cmd : Type := Mgmt_Leave_req | IEEE_addr_req | Mgmt_NWK_Update_req.

(** What reaches the radio: a ZDO request of a device, a broadcast, or a
    call on the coordinator ([app._ezsp], [app.permit]). *)
Inductive transport_call : Type :=
| ZdoRequest (dev_nwk : N) (cmd : zdo_cmd) (args : list pyval)
| Broadcast (cmd : zdo_cmd) (payload : pyval)
| AddTransientLinkKey (node : pystr) (link_key : list byte)
| Permit (seconds : N)
| GetNetworkParameters.

(** The answers still to come, the transport calls issued and the records
    the [LOGGER] has taken, oldest first. *)
Record World : Type := MkWorld {
  answers : list (outcome pyval);
  transport : list transport_call;
  logged : list (level * pystr)
}.

Definition M (A : Type) : Type := SM World A.

Definition log (l : level) (msg : pystr) : M unit :=
  fun w => (Ok tt, MkWorld (answers w) (transport w) (logged w ++ [(l, msg)])).

Definition send (c : transport_call) : M pyval :=
  fun w =>
    let sent := transport w ++ [c] in
    match answers w with
    | [] => (Stuck, MkWorld [] sent (logged w))
    | o :: t => (answer o, MkWorld t sent (logged w))
    end.

(** The controller: its device tables, read without the radio. *)
Record App : Type := MkApp {
  device_by_nwk : N -> option N;       (** [app.get_device(nwk=...)], the device's [nwk] *)
  device_by_ieee : pystr -> option N   (** [app.get_device(ieee=...)] *)
}.

Definition get_device (found : option N) : M N :=
  match found with
  | Some dev => ret dev
  | None => raise KeyError
  end.

(** [not x] *)
Definition falsy (x : pyval) : bool :=
  match x with
  | PNone => true
  | PBool b => negb b
  | PInt z => Z.eqb z 0
  | PStr [] => true
  | PBytes [] => true
  | PList [] => true
  | PDict [] => true
  | _ => false
  end.

Section Commands.
(** [int(data, base=16)] and [t.uint8_t(data)]; [None] when they raise. *)
Variable int_base16 : pyval -> option N.
Variable uint8_t : pyval -> option N.
(** [b"\xee" + t.Channels.ALL_CHANNELS.serialize() + b"\xFF" +
    nwk_upd_id.serialize() + b"\x00\x00"] *)
Variable update_payload : N -> list byte.

Definition convert (parsed : option N) : M N :=
  match parsed with
  | Some n => ret n
  | None => raise ValueError
  end.

Definition leave (app : App) (ieee : option pystr) (data : pyval) : M unit :=
  if match ieee with None => true | Some _ => false end || falsy data
  then log WARNING s{"Incorrect parameters for 'zdo.leave' command: %s"}
  else
    _ <- log DEBUG s{"running 'leave' command. Telling 0x%s to remove %s: %s"} ;;
    parent <- convert (int_base16 data) ;;
    parent <- get_device (device_by_nwk app parent) ;;
    res <- send (ZdoRequest parent Mgmt_Leave_req
                   [match ieee with Some a => PStr a | None => PNone end;
                    PInt 2]) ;;
    log DEBUG s{"0x%04x: Mgmt_Leave_req: %s"}.

Definition ieee_ping (app : App) (ieee : option pystr) (data : pyval)
  : M unit :=
  match ieee with
  | None => log WARNING s{"Incorrect parameters for 'ieee_ping' command: %s"}
  | Some a =>
      dev <- get_device (device_by_ieee app a) ;;
      _ <- log DEBUG s{"running 'ieee_ping' command to 0x%s"} ;;
      res <- send (ZdoRequest dev IEEE_addr_req
                     [PInt (Z.of_N dev); PInt 0; PInt 0]) ;;
      log DEBUG s{"0x%04x: IEEE_addr_req: %s"}
  end.

Definition join_with_code (app : App) (ieee : option pystr) (data : pyval)
  : M unit :=
  let node := s{"04:cf:8c:df:3c:75:e1:e7"} in
  let link_key :=
    [x5a; x69; x67; x42; x65; x65; x41; x6c;
     x6c; x69; x61; x6e; x63; x65; x30; x39] in   (* b"ZigBeeAlliance09" *)
  res <- send (AddTransientLinkKey node link_key) ;;
  _ <- log DEBUG s{"permit with key: %s"} ;;
  res <- send (Permit 60) ;;
  ret tt.

Definition update_nwk_id (app : App) (ieee : option pystr) (data : pyval)
  : M unit :=
  match data with
  | PNone => log ERROR s{"Need NWK update id in the data"}
  | _ =>
      nwk_upd_id <- convert (uint8_t data) ;;
      _ <- send (Broadcast Mgmt_NWK_Update_req
                   (PBytes (update_payload nwk_upd_id))) ;;
      res <- send GetNetworkParameters ;;
      log DEBUG s{"Network params: %s"}
  end.
End Commands.

End Zdo.

(* ================================================================== *)
(** * Properties *)

(** ** Dicts *)

Lemma find_append {A} (f : A -> bool) (l1 l2 : list A) :
  find f (l1 ++ l2)
  = match find f l1 with Some x => Some x | None => find f l2 end.
Proof.
  induction l1 as [|a l1 IH]; simpl; [reflexivity|].
  destruct (f a); [reflexivity | exact IH].
Qed.

Section DictFacts.
Variables K V : Type.
Variable eqb : K -> K -> bool.
Hypothesis eqb_eq : forall a b, eqb a b = true <-> a = b.

Let eqb_refl a : eqb a a = true.
Proof. now apply eqb_eq. Qed.

Let eqb_neq a b : a <> b -> eqb a b = false.
Proof.
  intro H. destruct (eqb a b) eqn:E; [|easy]. now apply eqb_eq in E.
Qed.

Lemma dict_get_set_same k (v : V) d :
  dict_get eqb k (dict_set eqb k v d) = Some v.
Proof.
  induction d as [|[k' v'] d IH]; simpl.
  - now rewrite eqb_refl.
  - destruct (eqb k k') eqn:E; simpl; rewrite E; auto.
Qed.

Lemma dict_get_set_other k k' (v : V) d :
  k <> k' -> dict_get eqb k' (dict_set eqb k v d) = dict_get eqb k' d.
Proof.
  intro Hne. induction d as [|[k0 v0] d IH]; simpl.
  - rewrite eqb_neq; auto.
  - destruct (eqb k k0) eqn:E; simpl.
    + apply eqb_eq in E. subst k0. rewrite eqb_neq; auto.
    + now rewrite IH.
Qed.

Lemma dict_get_In k (d : dict K V) :
  In k (dict_keys d) <-> dict_get eqb k d <> None.
Proof.
  induction d as [|[k0 v0] d IH]; simpl.
  - split; [easy | congruence].
  - destruct (eqb k k0) eqn:E.
    + apply eqb_eq in E. split; [congruence | auto].
    + rewrite <- IH. split; [|auto].
      intros [H|H]; [|exact H]. subst. now rewrite eqb_refl in E.
Qed.

Lemma dict_get_Some_In k (v : V) d : dict_get eqb k d = Some v -> In (k, v) d.
Proof.
  induction d as [|[k0 v0] d IH]; simpl; [congruence|].
  destruct (eqb k k0) eqn:E.
  - apply eqb_eq in E. intros [= ->]. now left; subst.
  - auto.
Qed.

Lemma dict_set_new k (v : V) d :
  ~ In k (dict_keys d) -> dict_set eqb k v d = d ++ [(k, v)].
Proof.
  induction d as [|[k0 v0] d IH]; simpl; intro H; [reflexivity|].
  rewrite eqb_neq by (intro; subst; auto). now rewrite IH by auto.
Qed.

Lemma dict_set_keys_known k (v : V) d :
  In k (dict_keys d) -> dict_keys (dict_set eqb k v d) = dict_keys d.
Proof.
  induction d as [|[k0 v0] d IH]; simpl; [easy|]. intro H.
  destruct (eqb k k0) eqn:E; simpl; [reflexivity|].
  f_equal. apply IH. destruct H as [H|H]; [|exact H].
  subst. now rewrite eqb_refl in E.
Qed.

Lemma dict_set_keys_In k (v : V) d x :
  In x (dict_keys (dict_set eqb k v d)) <-> x = k \/ In x (dict_keys d).
Proof.
  destruct (in_dec (fun a b => match Bool.bool_dec (eqb a b) true with
                               | left e => left (proj1 (eqb_eq a b) e)
                               | right n =>
                                   right (fun e => n (proj2 (eqb_eq a b) e))
                               end) k (dict_keys d)) as [Hin|Hout].
  - rewrite dict_set_keys_known by exact Hin.
    split; [auto | intros [->|H]; auto].
  - rewrite dict_set_new by exact Hout. unfold dict_keys.
    rewrite map_app, in_app_iff. simpl. split.
    + intros [H|[H|[]]]; auto.
    + intros [H|H]; auto.
Qed.

Lemma dict_set_NoDup k (v : V) d :
  NoDup (dict_keys d) -> NoDup (dict_keys (dict_set eqb k v d)).
Proof.
  induction d as [|[k0 v0] d IH]; simpl; intro H.
  - constructor; [easy | constructor].
  - inversion H as [|? ? Hn Hd]; subst.
    destruct (eqb k k0) eqn:E; simpl; [now constructor|].
    constructor; [|auto].
    intro Hin. apply dict_set_keys_In in Hin. destruct Hin as [->|Hin]; auto.
    now rewrite eqb_refl in E.
Qed.

Lemma dict_set_In k (v : V) d x :
  In x (dict_set eqb k v d) -> x = (k, v) \/ In x d.
Proof.
  induction d as [|[k0 v0] d IH]; simpl.
  - intros [H|[]]; auto.
  - destruct (eqb k k0) eqn:E; simpl.
    + apply eqb_eq in E. subst. intros [H|H]; auto.
    + intros [H|H]; auto. destruct (IH H); auto.
Qed.

(** Storing records one after the other. *)
Definition dict_set_all (items : list (K * V)) (d : dict K V) : dict K V :=
  fold_left (fun d kv => dict_set eqb (fst kv) (snd kv) d) items d.

Lemma dict_set_all_NoDup items d :
  NoDup (dict_keys d) -> NoDup (dict_keys (dict_set_all items d)).
Proof.
  revert d. induction items as [|[k v] items IH]; simpl; intros d H; auto.
  apply IH. now apply dict_set_NoDup.
Qed.

Lemma dict_set_all_keys items d x :
  In x (dict_keys (dict_set_all items d))
  <-> In x (List.map fst items) \/ In x (dict_keys d).
Proof.
  revert d. induction items as [|[k v] items IH]; simpl; intro d.
  - tauto.
  - rewrite IH, dict_set_keys_In. simpl. intuition auto.
Qed.

Lemma dict_set_all_In items d x :
  In x (dict_set_all items d) -> In x items \/ In x d.
Proof.
  revert d. induction items as [|[k v] items IH]; simpl; intro d; auto.
  intro H. apply IH in H. destruct H as [H|H]; auto.
  apply dict_set_In in H. simpl in H. destruct H; auto.
Qed.

(** The value under a key is the last one stored under it. *)
Lemma dict_set_all_get items d k :
  dict_get eqb k (dict_set_all items d)
  = match find (fun kv => eqb (fst kv) k) (rev items) with
    | Some kv => Some (snd kv)
    | None => dict_get eqb k d
    end.
Proof.
  revert d. induction items as [|[k0 v0] items IH]; simpl; intro d; auto.
  rewrite IH. rewrite find_append.
  destruct (find _ (rev items)); [reflexivity|]. simpl.
  destruct (eqb k0 k) eqn:E.
  - apply eqb_eq in E. subst. apply dict_get_set_same.
  - apply dict_get_set_other. intro; subst. now rewrite eqb_refl in E.
Qed.

Lemma dict_of_items_NoDup (items : list (K * V)) :
  NoDup (List.map fst items) -> dict_of_items eqb items = items.
Proof.
  unfold dict_of_items.
  enough (G : forall d, NoDup (List.map fst (d ++ items)) ->
                        fold_left (fun d kv => dict_set eqb (fst kv) (snd kv) d)
                                  items d = d ++ items)
    by (intro H; now apply (G [])).
  induction items as [|[k v] items IH]; simpl; intros d H.
  - now rewrite app_nil_r.
  - rewrite dict_set_new.
    + rewrite IH; rewrite <- app_assoc; [reflexivity | exact H].
    + rewrite map_app in H. simpl in H. apply NoDup_remove_2 in H.
      unfold dict_keys. intro Hin. apply H, in_or_app. now left.
Qed.
End DictFacts.

(** ** Hexadecimal keys *)

Module HexFacts.

(** The value of a digit and of a digit string, to read a key back. *)
Definition digit_val (c : N) : N :=
  match unhex_digit c with Some v => v | None => 0 end.

Definition parse_hex (x : pystr) : N :=
  fold_left (fun acc c => 16 * acc + digit_val c) x 0.

(** Exactly [w] digits, most significant first. *)
Fixpoint fixed_hex (w : nat) (n : N) : pystr :=
  match w with
  | O => []
  | S w' => fixed_hex w' (n / 16) ++ [hex_digit (n mod 16)]
  end.

Ltac cmp :=
  repeat match goal with
         | |- context [?a <? ?b] => destruct (N.ltb_spec a b)
         | |- context [?a <=? ?b] => destruct (N.leb_spec a b)
         | |- context [?a =? ?b] => destruct (N.eqb_spec a b)
         end; cbv beta iota delta [andb orb negb]; try lia.

Lemma digit_val_hex_digit d : d < 16 -> digit_val (hex_digit d) = d.
Proof.
  intro H. unfold digit_val, unhex_digit, hex_digit.
  destruct (N.ltb_spec d 10); cmp.
Qed.

Lemma hex_digit_ltb a b :
  a < 16 -> b < 16 -> (hex_digit a <? hex_digit b) = (a <? b).
Proof.
  intros Ha Hb. unfold hex_digit.
  destruct (N.ltb_spec a 10), (N.ltb_spec b 10); cmp.
Qed.

Lemma pow16_succ w : 16 ^ N.of_nat (S w) = 16 * 16 ^ N.of_nat w.
Proof. now rewrite Nat2N.inj_succ, N.pow_succ_r'. Qed.

Lemma pow16_pos w : 0 < 16 ^ N.of_nat w.
Proof. apply N.neq_0_lt_0, N.pow_nonzero. lia. Qed.

Lemma div16_lt n w : n < 16 ^ N.of_nat (S w) -> n / 16 < 16 ^ N.of_nat w.
Proof.
  rewrite pow16_succ. intro H. apply N.Div0.div_lt_upper_bound. lia.
Qed.

Lemma mod16_lt n : n mod 16 < 16.
Proof. apply N.mod_lt. lia. Qed.

Lemma div_mod16 n : n = 16 * (n / 16) + n mod 16.
Proof. apply N.div_mod. lia. Qed.

Lemma div16_nonzero n : n / 16 <> 0 -> 16 <= n.
Proof.
  intro H. destruct (N.lt_ge_cases n 16) as [Hlt|Hge]; [|exact Hge].
  exfalso. apply H. now apply N.div_small.
Qed.

Lemma fixed_hex_length w n : length (fixed_hex w n) = w.
Proof.
  revert n. induction w as [|w IH]; simpl; intro n; [reflexivity|].
  rewrite length_app, IH. simpl. lia.
Qed.

Lemma fixed_hex_small w n :
  n < 16 ^ N.of_nat w -> fixed_hex (S w) n = 48 :: fixed_hex w n.
Proof.
  revert n. induction w as [|w IH]; intros n H.
  - simpl in H. assert (n = 0) by lia. subst. reflexivity.
  - change (fixed_hex (S (S w)) n)
      with (fixed_hex (S w) (n / 16) ++ [hex_digit (n mod 16)]).
    rewrite IH by now apply div16_lt. reflexivity.
Qed.

Lemma fixed_hex_pad k w n :
  n < 16 ^ N.of_nat w -> repeat 48 k ++ fixed_hex w n = fixed_hex (k + w) n.
Proof.
  intro H. induction k as [|k IH]; simpl repeat; [reflexivity|].
  change (S k + w)%nat with (S (k + w)). rewrite fixed_hex_small.
  - simpl. now rewrite IH.
  - eapply N.lt_le_trans; [exact H|]. apply N.pow_le_mono_r; lia.
Qed.

Lemma parse_hex_snoc x c : parse_hex (x ++ [c]) = 16 * parse_hex x + digit_val c.
Proof. unfold parse_hex. now rewrite fold_left_app. Qed.

Lemma parse_fixed_hex w n : n < 16 ^ N.of_nat w -> parse_hex (fixed_hex w n) = n.
Proof.
  revert n. induction w as [|w IH]; intros n H.
  - simpl in H. assert (n = 0) by lia. now subst.
  - simpl. rewrite parse_hex_snoc, IH by now apply div16_lt.
    rewrite digit_val_hex_digit by apply mod16_lt.
    symmetry. apply div_mod16.
Qed.

Lemma hex_digits_aux_step fuel n acc :
  hex_digits_aux (S fuel) n acc
  = if n / 16 =? 0 then hex_digit (n mod 16) :: acc
    else hex_digits_aux fuel (n / 16) (hex_digit (n mod 16) :: acc).
Proof. reflexivity. Qed.

(** The digits [format(n, "x")] writes are the shortest fixed-width form. *)
Lemma hex_digits_aux_fixed fuel n acc :
  n < 16 ^ N.of_nat (S fuel) ->
  exists d, (1 <= d)%nat /\ n < 16 ^ N.of_nat d
            /\ (d = 1%nat \/ 16 ^ N.of_nat (d - 1) <= n)
            /\ hex_digits_aux (S fuel) n acc = fixed_hex d n ++ acc.
Proof.
  revert n acc. induction fuel as [|fuel IH]; intros n acc H;
    rewrite hex_digits_aux_step; destruct (N.eqb_spec (n / 16) 0) as [E|E].
  - exists 1%nat. repeat split; auto.
  - exfalso. apply E. apply N.div_small. exact H.
  - exists 1%nat. assert (n < 16).
    { rewrite (div_mod16 n), E. pose proof (mod16_lt n). lia. }
    repeat split; auto.
  - destruct (IH (n / 16) (hex_digit (n mod 16) :: acc))
      as (d & Hd1 & Hd2 & Hd3 & Hd4); [now apply div16_lt|].
    exists (S d). repeat split.
    + lia.
    + rewrite pow16_succ. pose proof (div_mod16 n) as Hn.
      pose proof (mod16_lt n) as Hm. revert Hd2 Hn Hm.
      generalize (n / 16), (n mod 16), (16 ^ N.of_nat d). intros. lia.
    + right. replace (S d - 1)%nat with d by lia.
      pose proof (div_mod16 n).
      destruct Hd3 as [->|Hd3]; [now apply div16_nonzero|].
      replace d with (S (d - 1)) by lia. rewrite pow16_succ.
      revert Hd3 H0. generalize (n / 16), (n mod 16), (16 ^ N.of_nat (d - 1)).
      intros. lia.
    + rewrite Hd4. cbn [fixed_hex]. now rewrite <- app_assoc.
Qed.

Lemma hex_digits_fuel n : n < 16 ^ N.of_nat (S (N.to_nat (N.log2 n))).
Proof.
  rewrite Nat2N.inj_succ, N2Nat.id.
  destruct (N.eq_dec n 0) as [->|Hn]; [reflexivity|].
  apply N.lt_le_trans with (2 ^ N.succ (N.log2 n)).
  - apply N.log2_spec. lia.
  - apply N.pow_le_mono_l. lia.
Qed.

Lemma hex_digits_fixed n :
  exists d, (1 <= d)%nat /\ n < 16 ^ N.of_nat d
            /\ (d = 1%nat \/ 16 ^ N.of_nat (d - 1) <= n)
            /\ hex_digits n = fixed_hex d n.
Proof.
  destruct (hex_digits_aux_fixed [] (hex_digits_fuel n))
    as (d & H1 & H2 & H3 & H4).
  exists d. repeat split; auto. unfold hex_digits. now rewrite H4, app_nil_r.
Qed.

Lemma parse_zfill_hex_digits w n : parse_hex (zfill w (hex_digits n)) = n.
Proof.
  destruct (hex_digits_fixed n) as (d & _ & Hd & _ & ->).
  unfold zfill. rewrite fixed_hex_pad by exact Hd. apply parse_fixed_hex.
  eapply N.lt_le_trans; [exact Hd|]. apply N.pow_le_mono_r; lia.
Qed.

(** Within [w] digits the key has exactly [w] digits. *)
Lemma zfill_hex_digits w n :
  (1 <= w)%nat -> n < 16 ^ N.of_nat w -> zfill w (hex_digits n) = fixed_hex w n.
Proof.
  intros Hw Hn. destruct (hex_digits_fixed n) as (d & Hd1 & Hd2 & Hd3 & ->).
  assert (Hdw : (d <= w)%nat).
  { destruct Hd3 as [->|Hd3]; [exact Hw|].
    destruct (Nat.le_gt_cases d w) as [|Hgt]; [assumption|].
    exfalso. assert (16 ^ N.of_nat w <= 16 ^ N.of_nat (d - 1))
      by (apply N.pow_le_mono_r; lia). lia. }
  unfold zfill. rewrite fixed_hex_length, fixed_hex_pad by exact Hd2.
  f_equal. lia.
Qed.

(** A key determines its number. *)
Lemma format_0x_inj w a b : format_0x w a = format_0x w b -> a = b.
Proof.
  unfold format_0x. intro H. apply app_inv_head in H.
  rewrite <- (parse_zfill_hex_digits w a), <- (parse_zfill_hex_digits w b).
  now rewrite H.
Qed.

(** *** The order of [str] on keys of one width *)

Lemma str_lt_irrefl x : str_lt x x = false.
Proof.
  induction x as [|c x IH]; simpl; [reflexivity|].
  now rewrite N.ltb_irrefl.
Qed.

Lemma str_lt_snoc x y c d :
  length x = length y ->
  str_lt (x ++ [c]) (y ++ [d])
  = if str_lt x y then true else if str_lt y x then false else c <? d.
Proof.
  revert y. induction x as [|a x IH]; intros [|b y] Hl; try discriminate.
  - simpl. destruct (c <? d), (d <? c); reflexivity.
  - simpl in Hl. injection Hl as Hl. simpl.
    destruct (N.ltb_spec a b); [reflexivity|].
    destruct (N.ltb_spec b a); [reflexivity|]. now apply IH.
Qed.

Lemma str_lt_fixed_hex w a b :
  a < 16 ^ N.of_nat w -> b < 16 ^ N.of_nat w ->
  str_lt (fixed_hex w a) (fixed_hex w b) = (a <? b).
Proof.
  revert a b. induction w as [|w IH]; intros a b Ha Hb.
  - simpl in *. assert (a = 0) by lia. assert (b = 0) by lia. now subst.
  - simpl. rewrite str_lt_snoc by now rewrite !fixed_hex_length.
    rewrite !IH by now apply div16_lt.
    rewrite hex_digit_ltb by apply mod16_lt.
    pose proof (div_mod16 a) as Ea. pose proof (div_mod16 b) as Eb.
    pose proof (mod16_lt a) as Ma. pose proof (mod16_lt b) as Mb.
    revert Ea Eb Ma Mb.
    generalize (a / 16), (a mod 16), (b / 16), (b mod 16).
    intros qa ra qb rb Ea Eb Ma Mb.
    destruct (N.ltb_spec qa qb); [cmp|].
    destruct (N.ltb_spec qb qa); cmp.
Qed.

Lemma str_lt_format_0x w a b :
  (1 <= w)%nat -> a < 16 ^ N.of_nat w -> b < 16 ^ N.of_nat w ->
  str_lt (format_0x w a) (format_0x w b) = (a <? b).
Proof.
  intros Hw Ha Hb. unfold format_0x. simpl.
  rewrite !zfill_hex_digits by assumption. now apply str_lt_fixed_hex.
Qed.

End HexFacts.
Import HexFacts.

(** ** The discovery loop *)

(** A page that is not the last one, as an outcome on the tape. *)
Definition more {R} (recs : list R) : outcome (bool * response R) :=
  Returns (false, Records recs).

Definition records_of {R} (rsp : response R) : list R :=
  match rsp with
  | Status _ => []
  | Records recs => recs
  end.

Lemma last_cons_default {A} (a : A) l d d' : last (a :: l) d = last (a :: l) d'.
Proof.
  revert a. induction l as [|b l IH]; intro a; [reflexivity|].
  change (last (b :: l) d = last (b :: l) d'). apply IH.
Qed.

Lemma last_append {A} (l1 l2 : list A) d :
  last (l1 ++ l2) d = last l2 (last l1 d).
Proof.
  induction l1 as [|a l1 IH]; [reflexivity|].
  destruct l1 as [|b l1].
  - destruct l2 as [|c l2]; [reflexivity|].
    change (last (c :: l2) d = last (c :: l2) a). apply last_cons_default.
  - exact IH.
Qed.

(** The entry stored for a record, for a record whose entry is built
    without an exception. *)
Definition entry_of {R} (entry : R -> exn + sdict) (r : R) : sdict :=
  match entry r with
  | inr v => v
  | inl _ => []
  end.

Definition builds {R} (entry : R -> exn + sdict) (r : R) : Prop :=
  exists v, entry r = inr v.

Lemma builds_entry_of {R} (entry : R -> exn + sdict) r :
  builds entry r -> entry r = inr (entry_of entry r).
Proof. intros (v & H). unfold entry_of. now rewrite H. Qed.

Lemma builds_inr {R} (f : R -> sdict) (recs : list R) :
  Forall (builds (fun r => inr (f r))) recs.
Proof. apply Forall_forall. intros r _. now exists (f r). Qed.

Section PageFacts.
Variables R K : Type.
Variable rec_id : R -> N.
Variable key : R -> K.
Variable entry : R -> sdict.
Variable eqb : K -> K -> bool.

(** The records of some pages stored on top of [result]. *)
Definition accumulate (recs : list R) (result : dict K sdict) : dict K sdict :=
  dict_set_all eqb (List.map (fun r => (key r, entry r)) recs) result.

(** The cursor after a page: past the last record, or where it was. *)
Definition next_cursor (cursor : N) (recs : list R) : N :=
  last (List.map (fun r => rec_id r + 1) recs) cursor.

Lemma accumulate_app recs1 recs2 result :
  accumulate (recs1 ++ recs2) result
  = accumulate recs2 (accumulate recs1 result).
Proof.
  unfold accumulate, dict_set_all. now rewrite map_app, fold_left_app.
Qed.
End PageFacts.

Section PaginatorFacts.
Variables R K : Type.
Variable request : N -> M (bool * response R).
Variable tape : World -> list (outcome (bool * response R)).
Variable mk_call : N -> call.

(** What the three retry-wrapped requests have in common. *)
Hypothesis request_next : forall c w o t,
    tape w = o :: t ->
    exists w', request c w = (answer o, w')
               /\ tape w' = t /\ calls w' = calls w ++ [mk_call c].
Hypothesis request_stuck : forall c w,
    tape w = [] ->
    exists w', request c w = (Stuck, w') /\ calls w' = calls w ++ [mk_call c].

Variable rec_id : R -> N.
Variable key : R -> K.
Variable entry : R -> exn + sdict.
Variable eqb : K -> K -> bool.
Hypothesis eqb_eq : forall a b, eqb a b = true <-> a = b.

Local Abbreviation records := (for_records rec_id key entry eqb).
Local Abbreviation loop := (while_not_done request rec_id key entry eqb).
Local Abbreviation stored := (accumulate key (entry_of entry) eqb).

(** A page whose entries are all built is stored whole. *)
Lemma for_records_builds recs : forall cursor result,
    Forall (builds entry) recs ->
    records recs (cursor, result)
    = inr (next_cursor rec_id cursor recs, stored recs result).
Proof.
  induction recs as [|r recs IH]; intros cursor result Hb; [reflexivity|].
  inversion Hb as [|? ? Hr Hrecs]; subst.
  cbn [for_records]. unfold page_body at 1. cbn [snd].
  rewrite (builds_entry_of Hr), (IH _ _ Hrecs).
  unfold next_cursor, accumulate, dict_set_all. f_equal. f_equal.
  cbn [List.map]. destruct recs as [|r0 recs]; [reflexivity|].
  cbn [List.map]. change (last (rec_id r + 1 :: ?x :: ?l) cursor)
    with (last (x :: l) cursor). apply last_cons_default.
Qed.

(** A page that is stored is one whose entries are all built. *)
Lemma for_records_stored recs : forall st st',
    records recs st = inr st' -> Forall (builds entry) recs.
Proof.
  induction recs as [|r recs IH]; intros st st' H; [constructor|].
  cbn [for_records] in H. unfold page_body at 1 in H.
  destruct (entry r) as [e|v] eqn:E; [discriminate|].
  constructor; [now exists v | eapply IH; exact H].
Qed.

(** A page is left at its first record whose entry raises. *)
Lemma for_records_raises good bad rest e : forall st,
    Forall (builds entry) good -> entry bad = inl e ->
    records (good ++ bad :: rest) st = inl e.
Proof.
  induction good as [|r good IH]; intros st Hb He.
  - cbn [app for_records]. unfold page_body. now rewrite He.
  - inversion Hb as [|? ? Hr Hgood]; subst.
    cbn [app for_records]. unfold page_body at 1.
    rewrite (builds_entry_of Hr). now apply IH.
Qed.

Lemma loop_step fuel cursor result w :
  loop (S fuel) cursor result w
  = match request cursor w with
    | (Ok (done, Records recs), w') =>
        match records recs (cursor, result) with
        | inl e => (Raised e, w')
        | inr st =>
            if (done : bool) then (Ok (snd st), w')
            else loop fuel (fst st) (snd st) w'
        end
    | (Ok (_, Status _), w') => (Ok result, w')
    | (Raised DeliveryError, w') => (Ok result, w')
    | (Raised e, w') => (Raised e, w')
    | (Stuck, w') => (Stuck, w')
    end.
Proof. reflexivity. Qed.

(** The loop only adds to the log of calls. *)
Lemma loop_calls fuel : forall cursor result w,
    exists extra,
      calls (snd (loop fuel cursor result w)) = calls w ++ extra.
Proof.
  induction fuel as [|fuel IH]; intros cursor result w.
  - exists []. simpl. now rewrite app_nil_r.
  - rewrite loop_step. destruct (tape w) as [|o t] eqn:Et.
    + destruct (request_stuck cursor Et) as (w' & -> & Hc).
      exists [mk_call cursor]. exact Hc.
    + destruct (request_next cursor Et) as (w' & -> & _ & Hc).
      destruct o as [e|[done [code|recs]]]; cbn [answer].
      * exists [mk_call cursor]. destruct e; exact Hc.
      * exists [mk_call cursor]. exact Hc.
      * destruct (records recs (cursor, result)) as [e|st].
        -- exists [mk_call cursor]. exact Hc.
        -- destruct done.
           ++ exists [mk_call cursor]. exact Hc.
           ++ destruct (IH (fst st) (snd st) w') as (extra & He).
              exists (mk_call cursor :: extra). rewrite He, Hc.
              now rewrite <- app_assoc.
Qed.

(** The first call of the loop is the request at the cursor. *)
Lemma loop_first_call fuel cursor result w :
  exists extra,
    calls (snd (loop (S fuel) cursor result w))
    = calls w ++ mk_call cursor :: extra.
Proof.
  rewrite loop_step. destruct (tape w) as [|o t] eqn:Et.
  - destruct (request_stuck cursor Et) as (w' & -> & Hc).
    exists []. exact Hc.
  - destruct (request_next cursor Et) as (w' & -> & _ & Hc).
    destruct o as [e|[done [code|recs]]]; cbn [answer].
    + exists []. destruct e; exact Hc.
    + exists []. exact Hc.
    + destruct (records recs (cursor, result)) as [e|st].
      * exists []. exact Hc.
      * destruct done.
        -- exists []. exact Hc.
        -- destruct (loop_calls fuel (fst st) (snd st) w') as (extra & He).
           exists extra. rewrite He, Hc. now rewrite <- app_assoc.
Qed.

(** Going through pages that are not the last and whose entries are all
    built: the loop is where it would be had it started past them, one
    call a page. *)
Lemma loop_pages pages : forall fuel cursor result w later,
    tape w = List.map more pages ++ later ->
    Forall (builds entry) (concat pages) ->
    exists w' issued,
      loop (length pages + fuel) cursor result w
      = loop fuel (next_cursor rec_id cursor (concat pages))
             (stored (concat pages) result) w'
      /\ tape w' = later
      /\ calls w' = calls w ++ issued
      /\ length issued = length pages.
Proof.
  induction pages as [|p pages IH]; intros fuel cursor result w later Ht Hb.
  - exists w, []. simpl. now rewrite app_nil_r.
  - cbn [List.map app] in Ht. cbn [concat] in Hb.
    apply Forall_app in Hb. destruct Hb as (Hp & Hb).
    destruct (request_next cursor Ht) as (w1 & Hr & Ht1 & Hc1).
    destruct (IH fuel (next_cursor rec_id cursor p) (stored p result) w1 later
                 Ht1 Hb)
      as (w' & issued & Hl & Ht' & Hc' & Hlen).
    exists w', (mk_call cursor :: issued).
    cbn [length plus]. rewrite loop_step, Hr. cbn [answer more].
    rewrite (for_records_builds _ _ Hp). cbn [fst snd]. rewrite Hl.
    repeat split.
    + f_equal.
      * unfold next_cursor. cbn [concat]. now rewrite map_app, last_append.
      * cbn [concat]. now rewrite accumulate_app.
    + exact Ht'.
    + rewrite Hc', Hc1. now rewrite <- app_assoc.
    + simpl. now rewrite Hlen.
Qed.

(** How the loop ends on each kind of outcome. *)
Lemma loop_last_page fuel cursor result w rsp t :
  tape w = Returns (true, rsp) :: t ->
  Forall (builds entry) (records_of rsp) ->
  exists w', loop (S fuel) cursor result w
             = (Ok (stored (records_of rsp) result), w')
             /\ tape w' = t.
Proof.
  intros Ht Hb. destruct (request_next cursor Ht) as (w' & Hr & Ht' & _).
  exists w'. rewrite loop_step, Hr. cbn [answer]. destruct rsp as [code|recs].
  - split; [reflexivity | exact Ht'].
  - cbn [records_of] in *. rewrite (for_records_builds _ _ Hb).
    split; [reflexivity | exact Ht'].
Qed.



Lemma loop_other_error fuel cursor result w e t :
  tape w = Raises e :: t -> e <> DeliveryError ->
  exists w', loop (S fuel) cursor result w = (Raised e, w')
             /\ tape w' = t /\ calls w' = calls w ++ [mk_call cursor].
Proof.
  intros Ht He. destruct (request_next cursor Ht) as (w' & Hr & Ht' & Hc).
  exists w'. rewrite loop_step, Hr. cbn [answer].
  destruct e; try contradiction; repeat split; assumption.
Qed.

(** A page with a record whose entry raises ends the loop, whatever its
    completion flag: the exception leaves the loop and nothing is
    returned. *)
Lemma loop_entry_raises fuel cursor result w done good bad rest e t :
  tape w = Returns (done, Records (good ++ bad :: rest)) :: t ->
  Forall (builds entry) good -> entry bad = inl e ->
  exists w', loop (S fuel) cursor result w = (Raised e, w')
             /\ tape w' = t /\ calls w' = calls w ++ [mk_call cursor].
Proof.
  intros Ht Hb He. destruct (request_next cursor Ht) as (w' & Hr & Ht' & Hc).
  exists w'. rewrite loop_step, Hr. cbn [answer].
  erewrite for_records_raises by eassumption. now repeat split.
Qed.

(** Whatever the tape holds, the keys of the result are keys of records
    the tape holds, or were there before. *)
Lemma loop_keys fuel : forall cursor result w result' w' k,
    loop fuel cursor result w = (Ok result', w') ->
    In k (dict_keys result') ->
    In k (dict_keys result)
    \/ exists done recs r,
        In (Returns (done, Records recs)) (tape w) /\ In r recs /\ key r = k.
Proof.
  assert (Hrec : forall recs st st' k,
             records recs st = inr st' ->
             In k (dict_keys (snd st')) ->
             In k (dict_keys (snd st)) \/ exists r, In r recs /\ key r = k).
  { induction recs as [|r recs IHr]; intros st st' k Hf Hk.
    - inversion Hf; subst. auto.
    - cbn [for_records] in Hf. unfold page_body at 1 in Hf.
      destruct (entry r) as [e|v]; [discriminate|].
      destruct (IHr _ _ _ Hf Hk) as [H|(r0 & H1 & H2)].
      + cbn [snd] in H. apply (dict_set_keys_In eqb eqb_eq) in H.
        destruct H as [H|H]; [|now left].
        right. exists r. split; [now left | now symmetry].
      + right. exists r0. split; [now right | assumption]. }
  induction fuel as [|fuel IH]; intros cursor result w result' w' k Hl Hk;
    [discriminate|].
  rewrite loop_step in Hl. destruct (tape w) as [|o t] eqn:Et.
  - destruct (request_stuck cursor Et) as (w1 & Hr & _).
    rewrite Hr in Hl. discriminate.
  - destruct (request_next cursor Et) as (w1 & Hr & Ht1 & _).
    rewrite Hr in Hl. destruct o as [e|[done [code|recs]]]; cbn [answer] in Hl.
    + destruct e; inversion Hl; subst; auto.
    + inversion Hl; subst; auto.
    + destruct (records recs (cursor, result)) as [e|st] eqn:Ef;
        [discriminate|].
      pose proof (fun k => @Hrec recs (cursor, result) st k Ef) as Hacc.
      cbn [snd] in Hacc.
      destruct done.
      * inversion Hl; subst. destruct (Hacc _ Hk) as [H|(r & H1 & H2)]; auto.
        right. exists true, recs, r. repeat split; auto. now left.
      * destruct (IH _ _ _ _ _ _ Hl Hk) as [H|(d & rs & r & H1 & H2 & H3)].
        -- destruct (Hacc _ H) as [H0|(r & H1 & H2)]; auto.
           right. exists false, recs, r. repeat split; auto. now left.
        -- right. exists d, rs, r. rewrite Ht1 in H1.
           repeat split; auto. now right.
Qed.
End PaginatorFacts.

Lemma find_same {A} (f g : A -> bool) (l : list A) :
  (forall x, f x = g x) -> find f l = find g l.
Proof.
  intro H. induction l as [|a l IH]; simpl; [reflexivity|].
  rewrite H, IH. reflexivity.
Qed.

Section PaginatorUnion.
Variables R K : Type.
Variable rec_id : R -> N.
Variable key : R -> K.
Variable entry : R -> sdict.
Variable eqb : K -> K -> bool.
Hypothesis eqb_eq : forall a b, eqb a b = true <-> a = b.
Hypothesis key_id : forall x y, key x = key y <-> rec_id x = rec_id y.

(** [result] holds the records [seen]: every key once, a key for every
    record seen and no other, and under the key of a record the entry of
    the last record seen with that id. *)
Definition holds_union (seen : list R) (result : dict K sdict) : Prop :=
  NoDup (dict_keys result)
  /\ (forall k, In k (dict_keys result) <-> exists r, In r seen /\ key r = k)
  /\ (forall r, In r seen ->
        exists r', find (fun x => rec_id x =? rec_id r) (rev seen) = Some r'
                   /\ dict_get eqb (key r) result = Some (entry r')).

Lemma find_map_items (k : K) (l : list R) :
  find (fun kv : K * sdict => eqb (fst kv) k)
       (List.map (fun r => (key r, entry r)) l)
  = option_map (fun r => (key r, entry r))
               (find (fun r => eqb (key r) k) l).
Proof.
  induction l as [|a l IH]; simpl; [reflexivity|].
  destruct (eqb (key a) k); [reflexivity | exact IH].
Qed.

Lemma accumulate_holds_union seen :
  holds_union seen (accumulate key entry eqb seen []).
Proof.
  unfold holds_union, accumulate. repeat split.
  - apply (dict_set_all_NoDup eqb eqb_eq). constructor.
  - intro H. apply (dict_set_all_keys eqb eqb_eq) in H.
    destruct H as [H|[]]. rewrite map_map in H. apply in_map_iff in H.
    destruct H as (r & H1 & H2). now exists r.
  - intros (r & H1 & H2). apply (dict_set_all_keys eqb eqb_eq). left.
    rewrite map_map. apply in_map_iff. now exists r.
  - intros r Hr. rewrite (dict_set_all_get eqb eqb_eq).
    rewrite <- map_rev, find_map_items.
    assert (E : forall l, find (fun x => eqb (key x) (key r)) l
                          = find (fun x => rec_id x =? rec_id r) l).
    { intro l. apply find_same. intro x.
      destruct (N.eqb_spec (rec_id x) (rec_id r)) as [H|H].
      - now apply eqb_eq, key_id.
      - destruct (eqb (key x) (key r)) eqn:E; [|reflexivity].
        apply eqb_eq, key_id in E. contradiction. }
    rewrite E.
    destruct (find (fun x => rec_id x =? rec_id r) (rev seen)) as [r'|] eqn:F.
    + exists r'. split; reflexivity.
    + exfalso. apply in_rev in Hr. pose proof (find_none _ _ F r Hr) as H.
      cbv beta in H. now rewrite N.eqb_refl in H.
Qed.
End PaginatorUnion.

(** The three retry-wrapped requests read their tape and log the call. *)
Lemma attributes_request_next cid mfr c w o t :
  attr_tape w = o :: t ->
  exists w', call_discover_attributes_extended cid c mfr w = (answer o, w')
             /\ attr_tape w' = t
             /\ calls w' = calls w ++ [DiscoverAttributesExtended cid c 16 mfr].
Proof.
  intro H. unfold call_discover_attributes_extended. cbn [issue attr_tape].
  rewrite H. eexists. repeat split.
Qed.

Lemma attributes_request_stuck cid mfr c w :
  attr_tape w = [] ->
  exists w', call_discover_attributes_extended cid c mfr w = (Stuck, w')
             /\ calls w' = calls w ++ [DiscoverAttributesExtended cid c 16 mfr].
Proof.
  intro H. unfold call_discover_attributes_extended. cbn [issue attr_tape].
  rewrite H. eexists. repeat split.
Qed.

Lemma received_request_next cid mfr c w o t :
  received_tape w = o :: t ->
  exists w', call_discover_commands_received cid c mfr w = (answer o, w')
             /\ received_tape w' = t
             /\ calls w' = calls w ++ [DiscoverCommandsReceived cid c 16 mfr].
Proof.
  intro H. unfold call_discover_commands_received. cbn [issue received_tape].
  rewrite H. eexists. repeat split.
Qed.

Lemma received_request_stuck cid mfr c w :
  received_tape w = [] ->
  exists w', call_discover_commands_received cid c mfr w = (Stuck, w')
             /\ calls w' = calls w ++ [DiscoverCommandsReceived cid c 16 mfr].
Proof.
  intro H. unfold call_discover_commands_received. cbn [issue received_tape].
  rewrite H. eexists. repeat split.
Qed.

Lemma generated_request_next cid mfr c w o t :
  generated_tape w = o :: t ->
  exists w', call_discover_commands_generated cid c mfr w = (answer o, w')
             /\ generated_tape w' = t
             /\ calls w' = calls w ++ [DiscoverCommandsGenerated cid c 16 mfr].
Proof.
  intro H. unfold call_discover_commands_generated. cbn [issue generated_tape].
  rewrite H. eexists. repeat split.
Qed.

Lemma generated_request_stuck cid mfr c w :
  generated_tape w = [] ->
  exists w', call_discover_commands_generated cid c mfr w = (Stuck, w')
             /\ calls w' = calls w ++ [DiscoverCommandsGenerated cid c 16 mfr].
Proof.
  intro H. unfold call_discover_commands_generated. cbn [issue generated_tape].
  rewrite H. eexists. repeat split.
Qed.

(** The tape of a discovery that goes through [pages] and ends with the
    completion flag set. *)
Definition complete_tape {R} (pages : list (list R)) (final : response R)
  : list (outcome (bool * response R)) :=
  List.map more pages ++ [Returns (true, final)].


(** The highest of some ids. *)
Definition highest (ids : list N) : N := fold_right N.max 0 ids.

Lemma last_succ {A} (f : A -> N) (l : list A) d :
  l <> [] -> last (List.map (fun r => f r + 1) l) d = last (List.map f l) 0 + 1.
Proof.
  induction l as [|a l IH]; [easy|]. intros _.
  destruct l as [|b l]; [reflexivity|].
  change (last (List.map (fun r => f r + 1) (b :: l)) d
          = last (List.map f (b :: l)) 0 + 1).
  now apply IH.
Qed.

Lemma highest_le (ids : list N) m :
  Forall (fun i => i <= m) ids -> highest ids <= m.
Proof.
  induction 1 as [|i l Hi _ IH]; simpl; lia.
Qed.

Lemma last_le_highest (ids : list N) : last ids 0 <= highest ids.
Proof.
  induction ids as [|i [|j l] IH]; simpl; try lia.
  simpl in IH. lia.
Qed.

Lemma highest_last (ids : list N) :
  Forall (fun i => i <= last ids 0) ids -> highest ids = last ids 0.
Proof.
  intro H. apply N.le_antisymm; [now apply highest_le | apply last_le_highest].
Qed.

(** A discovery loop run from the start, as the three functions run it:
    cursor 0, nothing stored, fuel for one call more than the tape holds. *)
Section PaginatorRun.
Variables R K : Type.
Variable request : N -> M (bool * response R).
Variable tape : World -> list (outcome (bool * response R)).
Variable mk_call : N -> call.
Hypothesis request_next : forall c w o t,
  tape w = o :: t ->
  exists w', request c w = (answer o, w')
             /\ tape w' = t /\ calls w' = calls w ++ [mk_call c].
Hypothesis request_stuck : forall c w,
  tape w = [] ->
  exists w', request c w = (Stuck, w') /\ calls w' = calls w ++ [mk_call c].
Variable rec_id : R -> N.
Variable key : R -> K.
Variable entry : R -> exn + sdict.
Variable eqb : K -> K -> bool.

Definition run_loop : M (dict K sdict) :=
fun w =>
  while_not_done request rec_id key entry eqb (S (length (tape w))) 0 [] w.

Lemma run_fuel {w : World} {pages : list (list R)}
    {later : list (outcome (bool * response R))} :
tape w = List.map more pages ++ later ->
S (length (tape w)) = (length pages + S (length later))%nat.
Proof. intros ->. rewrite length_app, length_map. lia. Qed.

Lemma run_complete pages final w :
tape w = complete_tape pages final ->
Forall (builds entry) (concat pages ++ records_of final) ->
exists w',
  run_loop w
  = (Ok (accumulate key (entry_of entry) eqb
                    (concat pages ++ records_of final) []), w')
  /\ tape w' = [].
Proof.
intros Ht Hb. apply Forall_app in Hb. destruct Hb as (Hp & Hf).
unfold run_loop. rewrite (run_fuel Ht). cbn [length].
destruct (loop_pages request tape mk_call request_next rec_id key eqb pages
                     2 0 [] _ _ Ht Hp)
  as (w1 & issued & -> & Ht1 & _).
destruct (loop_last_page request tape mk_call request_next rec_id key eqb 1
            (next_cursor rec_id 0 (concat pages))
            (accumulate key (entry_of entry) eqb (concat pages) []) _ Ht1 Hf)
  as (w' & -> & Ht').
exists w'. now rewrite accumulate_app.
Qed.


(** An exception of the request for page k other than [DeliveryError]
    leaves the loop, after k requests. *)
Lemma run_raises pages e later w :
tape w = List.map more pages ++ Raises e :: later -> e <> DeliveryError ->
Forall (builds entry) (concat pages) ->
exists w', run_loop w = (Raised e, w') /\ tape w' = later
           /\ length (calls w') = (length (calls w) + length pages + 1)%nat.
Proof.
intros Ht He Hb. unfold run_loop. rewrite (run_fuel Ht). cbn [length].
destruct (loop_pages request tape mk_call request_next rec_id key eqb pages
                     (S (S (length later))) 0 [] _ _ Ht Hb)
  as (w1 & issued & -> & Ht1 & Hc1 & Hlen).
destruct (loop_other_error request tape mk_call request_next rec_id key entry eqb
            (S (length later)) (next_cursor rec_id 0 (concat pages))
            (accumulate key (entry_of entry) eqb (concat pages) []) _ Ht1 He)
  as (w' & Hl & Ht' & Hc').
exists w'. split; [exact Hl|]. split; [exact Ht'|].
rewrite Hc', Hc1, !length_app, Hlen. reflexivity.
Qed.

(** A record of page k whose entry raises makes the loop raise, after k
    requests, whatever the page and the tape hold after it. *)
Lemma run_entry_raises pages done good bad rest e later w :
tape w = List.map more pages
         ++ Returns (done, Records (good ++ bad :: rest)) :: later ->
Forall (builds entry) (concat pages ++ good) -> entry bad = inl e ->
exists w', run_loop w = (Raised e, w') /\ tape w' = later
           /\ length (calls w') = (length (calls w) + length pages + 1)%nat.
Proof.
intros Ht Hb He. apply Forall_app in Hb. destruct Hb as (Hp & Hg).
unfold run_loop. rewrite (run_fuel Ht). cbn [length].
destruct (loop_pages request tape mk_call request_next rec_id key eqb pages
                     (S (S (length later))) 0 [] _ _ Ht Hp)
  as (w1 & issued & -> & Ht1 & Hc1 & Hlen).
destruct (loop_entry_raises request tape mk_call request_next rec_id key eqb
            (S (length later)) (next_cursor rec_id 0 (concat pages))
            (accumulate key (entry_of entry) eqb (concat pages) []) _ _ _ Ht1 Hg He)
  as (w' & Hl & Ht' & Hc').
exists w'. split; [exact Hl|]. split; [exact Ht'|].
rewrite Hc', Hc1, !length_app, Hlen. reflexivity.
Qed.

(** The request that follows a page starts past the last record of it. *)
Lemma run_next_request pages recs later w :
tape w = List.map more pages ++ more recs :: later -> recs <> [] ->
Forall (builds entry) (concat pages ++ recs) ->
nth_error (calls (snd (run_loop w))) (length (calls w) + length pages + 1)
= Some (mk_call (last (List.map rec_id recs) 0 + 1)).
Proof.
intros Ht Hne Hb. apply Forall_app in Hb. destruct Hb as (Hp & Hr).
unfold run_loop. rewrite (run_fuel Ht). cbn [length].
destruct (loop_pages request tape mk_call request_next rec_id key eqb pages
                     (S (S (length later))) 0 [] _ _ Ht Hp)
  as (w1 & issued & -> & Ht1 & Hc1 & Hlen).
rewrite loop_step.
destruct (request_next (next_cursor rec_id 0 (concat pages)) Ht1)
  as (w2 & -> & Ht2 & Hc2).
cbn [answer more]. rewrite (for_records_builds rec_id key eqb _ _ Hr).
cbn [fst snd].
destruct (loop_first_call request tape mk_call request_next request_stuck rec_id key entry eqb
            (length later)
            (next_cursor rec_id (next_cursor rec_id 0 (concat pages)) recs)
            (accumulate key (entry_of entry) eqb recs
               (accumulate key (entry_of entry) eqb (concat pages) [])) w2)
  as (extra & ->).
assert (E : forall c, next_cursor rec_id c recs
                      = last (List.map rec_id recs) 0 + 1)
  by (intro c; unfold next_cursor; now apply last_succ).
rewrite E, Hc2, Hc1.
rewrite <- !app_assoc. rewrite nth_error_app2 by lia.
rewrite nth_error_app2 by lia.
replace (length (calls w) + length pages + 1 - length (calls w)
         - length issued)%nat with 1%nat by lia.
reflexivity.
Qed.
End PaginatorRun.

(* ================================================================== *)
(** * The claims, on the code *)

(** ** A small device to run the code on *)

Module Sample.

(** Three entries of [DATA_TYPES], that of 0xff among them, and one
    enumerator of [AttributeAccessControl]. *)
Definition foundation : Foundation :=
  MkFoundation
    (fun t => if t =? 66
              then Some (Some s{"CharacterString"}, Some s{"Discrete"})
              else if t =? 16 then Some (Some s{"Bool"}, Some s{"Discrete"})
              else if t =? 255 then Some (Some s{"Unknown"}, None)
              else None)
    (fun a => if a =? 1 then Some (PStr s{"READ"}) else None).

(** An on/off cluster. *)
Definition on_off : Cluster :=
  MkCluster 6 (PStr s{"on_off"})
    (fun i => if i =? 0 then Some s{"on_off"} else None)
    (fun i => if i =? 0 then Some (s{"off"}, [])
              else if i =? 1 then Some (s{"on"}, [])
              else None)
    (fun _ => None).

Definition basic : Cluster :=
  MkCluster 0 (PStr s{"basic"})
    (fun i => if i =? 4 then Some s{"manufacturer"}
              else if i =? 5 then Some s{"model"} else None)
    (fun _ => None) (fun _ => None).

Definition idle : World := MkWorld [] [] [] [] [].

End Sample.

(* ------------------------------------------------------------------ *)
(** ** Command entries *)

(** Every entry [discover_commands_received] stores has the keys
    [command_id], [command_name], [command_arguments], under its id
    written in hexadecimal. *)
Lemma received_entry_keys cluster cmd_id :
  dict_keys (received_entry cluster cmd_id)
  = [s{"command_id"}; s{"command_name"}; s{"command_arguments"}]
  /\ sget s{"command_id"} (received_entry cluster cmd_id)
     = Some (PStr (format_0x 2 cmd_id)).
Proof.
  unfold received_entry. destruct (command_data _ _). split; reflexivity.
Qed.

(** The entries [discover_commands_generated] stores are named otherwise. *)
Lemma generated_entry_keys cluster cmd_id :
  dict_keys (generated_entry cluster cmd_id)
  = [s{"command_id"}; s{"command_Name"}; s{"command_args"}].
Proof.
  unfold generated_entry. destruct (command_data _ _). reflexivity.
Qed.

(** C1, on the code: for one generated command, id 0, answered in one
    complete page, [discover_commands_generated] emits under the key 0x00 an
    entry whose keys are [command_id], [command_Name] and [command_args];
    it has neither [command_name] nor [command_arguments], the keys
    [discover_commands_received] writes for the same answer. *)
Theorem generated_command_entry_keys_differ :
  let w := MkWorld [] [Returns (true, Records [0])]
                   [Returns (true, Records [0])] [] [] in
  fst (discover_commands_generated Sample.on_off true None w)
  = Ok [ (s{"0x00"},
          PDict [ (s{"command_id"}, PStr s{"0x00"});
                  (s{"command_Name"}, PStr s{"0"});
                  (s{"command_args"}, PStr s{"not_in_zcl"}) ]) ]
  /\ fst (discover_commands_received Sample.on_off true None w)
     = Ok [ (s{"0x00"},
             PDict [ (s{"command_id"}, PStr s{"0x00"});
                     (s{"command_name"}, PStr s{"off"});
                     (s{"command_arguments"}, PList []) ]) ].
Proof. split; reflexivity. Qed.

(* ------------------------------------------------------------------ *)
(** ** The discovery loops of the three functions *)

Lemma format_0x_key_id w (x y : N) : format_0x w x = format_0x w y <-> x = y.
Proof. split; [apply format_0x_inj | now intros ->]. Qed.

Lemma attribute_pages_run fd cluster mfr :
  discover_attribute_pages fd cluster mfr
  = run_loop (fun c => call_discover_attributes_extended (cluster_id cluster) c mfr)
             attr_tape attrid attrid (attr_entry fd cluster) N.eqb.
Proof. reflexivity. Qed.

Lemma received_pages_run cluster mfr :
  discover_received_pages cluster mfr
  = run_loop (fun c => call_discover_commands_received (cluster_id cluster) c mfr)
             received_tape (fun id => id) (format_0x 2)
             (fun id => inr (received_entry cluster id)) pystr_eqb.
Proof. reflexivity. Qed.

Lemma generated_pages_run cluster mfr :
  discover_generated_pages cluster mfr
  = run_loop (fun c => call_discover_commands_generated (cluster_id cluster) c mfr)
             generated_tape (fun id => id) (format_0x 2)
             (fun id => inr (generated_entry cluster id)) pystr_eqb.
Proof. reflexivity. Qed.

Ltac by_run lemma :=
  first
    [ rewrite attribute_pages_run;
      eapply (lemma _ _ _ _ _ (attributes_request_next _ _))
    | rewrite received_pages_run;
      eapply (lemma _ _ _ _ _ (received_request_next _ _))
    | rewrite generated_pages_run;
      eapply (lemma _ _ _ _ _ (generated_request_next _ _)) ].

(** ** The data types [value_type] can name *)

(** The data type of the record has no entry in [DATA_TYPES], or an entry
    whose type and class both have a [__name__]. *)
Definition type_named (fd : Foundation) (r : attr_rec) : bool :=
  match DATA_TYPES fd (datatype r) with
  | Some (Some _, Some _) | None => true
  | Some _ => false
  end.

Lemma attr_entry_named fd cluster r :
  type_named fd r = true -> builds (attr_entry fd cluster) r.
Proof.
  unfold type_named, builds, attr_entry, value_type.
  destruct (DATA_TYPES fd (datatype r)) as [[[t1|] [t2|]]|];
    try discriminate; intros _; eexists; reflexivity.
Qed.

Lemma attr_entry_unnamed fd cluster r :
  type_named fd r = false -> attr_entry fd cluster r = inl AttributeError.
Proof.
  unfold type_named, attr_entry, value_type.
  destruct (DATA_TYPES fd (datatype r)) as [[[t1|] [t2|]]|];
    try discriminate; reflexivity.
Qed.

Lemma attr_entry_builds fd cluster r :
  builds (attr_entry fd cluster) r -> type_named fd r = true.
Proof.
  intros (v & H). destruct (type_named fd r) eqn:E; [reflexivity|].
  rewrite (@attr_entry_unnamed fd cluster r E) in H. discriminate.
Qed.

Lemma all_named_builds fd cluster recs :
  forallb (type_named fd) recs = true ->
  Forall (builds (attr_entry fd cluster)) recs.
Proof.
  intro H. apply Forall_forall. intros r Hr. apply attr_entry_named.
  now apply (proj1 (forallb_forall _ _) H).
Qed.

Lemma all_named_entry fd cluster recs r :
  forallb (type_named fd) recs = true -> In r recs ->
  attr_entry fd cluster r = inr (entry_of (attr_entry fd cluster) r).
Proof.
  intros H Hr. apply builds_entry_of, attr_entry_named.
  now apply (proj1 (forallb_forall _ _) H).
Qed.

(** What the three loops do on a tape, read off the generic loop. *)
Lemma attribute_pages_complete fd cluster mfr pages final w :
  attr_tape w = complete_tape pages final ->
  forallb (type_named fd) (concat pages ++ records_of final) = true ->
  exists w', discover_attribute_pages fd cluster mfr w
             = (Ok (accumulate attrid (entry_of (attr_entry fd cluster)) N.eqb
                               (concat pages ++ records_of final) []), w')
             /\ attr_tape w' = [].
Proof.
  intros Ht Hn. by_run run_complete; [exact Ht | now apply all_named_builds].
Qed.


Lemma attribute_pages_raise fd cluster mfr pages e later w :
  attr_tape w = List.map more pages ++ Raises e :: later ->
  e <> DeliveryError ->
  forallb (type_named fd) (concat pages) = true ->
  exists w', discover_attribute_pages fd cluster mfr w = (Raised e, w')
             /\ attr_tape w' = later
             /\ length (calls w') = (length (calls w) + length pages + 1)%nat.
Proof.
  intros Ht He Hn.
  by_run run_raises; [exact Ht | exact He | now apply all_named_builds].
Qed.

Lemma attribute_pages_unnamed fd cluster mfr pages done good bad rest later w :
  attr_tape w = List.map more pages
                ++ Returns (done, Records (good ++ bad :: rest)) :: later ->
  forallb (type_named fd) (concat pages ++ good) = true ->
  type_named fd bad = false ->
  exists w', discover_attribute_pages fd cluster mfr w
             = (Raised AttributeError, w')
             /\ attr_tape w' = later
             /\ length (calls w') = (length (calls w) + length pages + 1)%nat.
Proof.
  intros Ht Hn Hb.
  by_run run_entry_raises;
    [exact Ht | now apply all_named_builds | now apply attr_entry_unnamed].
Qed.

Lemma received_pages_complete cluster mfr pages final w :
  received_tape w = complete_tape pages final ->
  exists w', discover_received_pages cluster mfr w
             = (Ok (accumulate (format_0x 2) (received_entry cluster) pystr_eqb
                               (concat pages ++ records_of final) []), w')
             /\ received_tape w' = [].
Proof. intro Ht. by_run run_complete; [exact Ht | apply builds_inr]. Qed.

Lemma generated_pages_complete cluster mfr pages final w :
  generated_tape w = complete_tape pages final ->
  exists w', discover_generated_pages cluster mfr w
             = (Ok (accumulate (format_0x 2) (generated_entry cluster) pystr_eqb
                               (concat pages ++ records_of final) []), w')
             /\ generated_tape w' = [].
Proof. intro Ht. by_run run_complete; [exact Ht | apply builds_inr]. Qed.



Lemma received_pages_raise cluster mfr pages e later w :
  received_tape w = List.map more pages ++ Raises e :: later ->
  e <> DeliveryError ->
  exists w', discover_received_pages cluster mfr w = (Raised e, w')
             /\ received_tape w' = later
             /\ length (calls w') = (length (calls w) + length pages + 1)%nat.
Proof.
  intros Ht He. by_run run_raises; [exact Ht | exact He | apply builds_inr].
Qed.

Lemma generated_pages_raise cluster mfr pages e later w :
  generated_tape w = List.map more pages ++ Raises e :: later ->
  e <> DeliveryError ->
  exists w', discover_generated_pages cluster mfr w = (Raised e, w')
             /\ generated_tape w' = later
             /\ length (calls w') = (length (calls w) + length pages + 1)%nat.
Proof.
  intros Ht He. by_run run_raises; [exact Ht | exact He | apply builds_inr].
Qed.

(** C2, as the claim has it, fails for the attributes: a record whose data
    type is 0xff, whose entry in [DATA_TYPES] has no class, on a page that
    ends the discovery makes the loop raise [AttributeError]; no mapping is
    returned, by the loop or by [discover_attributes_extended]. *)
Lemma paginator_raises_on_unnamed_type :
  let pages := [[AttrRec 0 16 1]] in
  let final := Records [AttrRec 1 255 1; AttrRec 2 16 1] in
  let w := MkWorld (complete_tape pages final) [] [] [] [] in
  DATA_TYPES Sample.foundation 255 = Some (Some s{"Unknown"}, None)
  /\ fst (discover_attribute_pages Sample.foundation Sample.on_off None w)
     = Raised AttributeError
  /\ fst (discover_attributes_extended Sample.foundation Sample.on_off None w)
     = Raised AttributeError.
Proof. repeat split. Qed.

(** C2, amended: when the responses are pages that end with the completion
    flag set, the two loops of the commands return a mapping that has
    every key once, has a key for each id seen on the pages and no other,
    and holds under the key of an id the record of its last occurrence; so
    does the loop of the attributes when the data type of every record can
    be named, and on the first record whose type cannot it raises
    [AttributeError], whatever comes after. *)
Theorem paginator_accumulates_union fd cluster mfr :
  (forall pages final w,
      attr_tape w = complete_tape pages final ->
      forallb (type_named fd) (concat pages ++ records_of final) = true ->
      exists result w',
        discover_attribute_pages fd cluster mfr w = (Ok result, w')
        /\ holds_union attrid attrid (entry_of (attr_entry fd cluster)) N.eqb
                       (concat pages ++ records_of final) result
        /\ forall r, In r (concat pages ++ records_of final) ->
                     attr_entry fd cluster r
                     = inr (entry_of (attr_entry fd cluster) r))
  /\ (forall pages done good bad rest later w,
         attr_tape w = List.map more pages
                       ++ Returns (done, Records (good ++ bad :: rest)) :: later ->
         forallb (type_named fd) (concat pages ++ good) = true ->
         type_named fd bad = false ->
         exists w',
           discover_attribute_pages fd cluster mfr w
           = (Raised AttributeError, w')
           /\ attr_tape w' = later)
  /\ (forall pages final w,
         received_tape w = complete_tape pages final ->
         exists result w',
           discover_received_pages cluster mfr w = (Ok result, w')
           /\ holds_union (fun id => id) (format_0x 2) (received_entry cluster)
                          pystr_eqb (concat pages ++ records_of final) result)
  /\ (forall pages final w,
         generated_tape w = complete_tape pages final ->
         exists result w',
           discover_generated_pages cluster mfr w = (Ok result, w')
           /\ holds_union (fun id => id) (format_0x 2) (generated_entry cluster)
                          pystr_eqb (concat pages ++ records_of final) result).
Proof.
  split; [|split; [|split]].
  - intros pages final w Ht Hn.
    destruct (@attribute_pages_complete fd cluster mfr pages final w Ht Hn) as (w' & H & _).
    eexists; exists w'. split; [exact H|]. split.
    + apply accumulate_holds_union; [apply N.eqb_eq | tauto].
    + intros r Hr. now apply all_named_entry with (recs := concat pages ++ records_of final).
  - intros pages done good bad rest later w Ht Hn Hb.
    destruct (@attribute_pages_unnamed fd cluster mfr pages done good bad rest
                                       later w Ht Hn Hb)
      as (w' & H & Ht' & _).
    now exists w'.
  - intros pages final w Ht.
    destruct (@received_pages_complete cluster mfr pages final w Ht) as (w' & H & _).
    eexists; exists w'. split; [exact H|].
    apply accumulate_holds_union; [apply pystr_eqb_eq | apply format_0x_key_id].
  - intros pages final w Ht.
    destruct (@generated_pages_complete cluster mfr pages final w Ht) as (w' & H & _).
    eexists; exists w'. split; [exact H|].
    apply accumulate_holds_union; [apply pystr_eqb_eq | apply format_0x_key_id].
Qed.

(** Two pages of attributes, the second repeating id 1 and closing the
    discovery: the hypotheses of C2 hold and so does its conclusion.  With
    an attribute of data type 0xff second on the second page: the
    [AttributeError]. *)
Lemma paginator_accumulates_union_witness :
  let pages := [[AttrRec 0 66 1; AttrRec 1 16 1]] in
  let final := Records [AttrRec 1 66 7; AttrRec 2 16 1] in
  let w := MkWorld (complete_tape pages final) [] [] [] [] in
  let bad := AttrRec 2 255 1 in
  let wb := MkWorld (List.map more pages
                     ++ [Returns (true, Records ([AttrRec 1 66 7] ++ [bad]))])
                    [] [] [] [] in
  (attr_tape w = complete_tape pages final
   /\ forallb (type_named Sample.foundation) (concat pages ++ records_of final)
      = true
   /\ exists result w',
       discover_attribute_pages Sample.foundation Sample.on_off None w
       = (Ok result, w')
       /\ holds_union attrid attrid
                      (entry_of (attr_entry Sample.foundation Sample.on_off))
                      N.eqb (concat pages ++ records_of final) result
       /\ forall r, In r (concat pages ++ records_of final) ->
                    attr_entry Sample.foundation Sample.on_off r
                    = inr (entry_of (attr_entry Sample.foundation
                                                Sample.on_off) r))
  /\ (attr_tape wb
      = List.map more pages
        ++ Returns (true, Records ([AttrRec 1 66 7] ++ bad :: [])) :: []
      /\ forallb (type_named Sample.foundation)
                 (concat pages ++ [AttrRec 1 66 7]) = true
      /\ type_named Sample.foundation bad = false
      /\ exists w',
          discover_attribute_pages Sample.foundation Sample.on_off None wb
          = (Raised AttributeError, w')
          /\ attr_tape w' = []).
Proof.
  intros pages final w bad wb. split.
  - split; [reflexivity|]. split; [reflexivity|].
    apply (proj1 (paginator_accumulates_union
                    Sample.foundation Sample.on_off None));
      reflexivity.
  - split; [reflexivity|]. split; [reflexivity|]. split; [reflexivity|].
    exact (proj1 (proj2 (paginator_accumulates_union
                           Sample.foundation Sample.on_off None))
                 pages true [AttrRec 1 66 7] bad [] [] wb
                 eq_refl eq_refl eq_refl).
Defined.

(* ------------------------------------------------------------------ *)
(** ** Early termination *)




(* ------------------------------------------------------------------ *)
(** ** The cursor *)

(** C7, as the claim has it, fails: after the page 5, 3 the next request
    starts at 4, one past the last record, and not at 6, one past the
    highest id of the page. *)
Lemma next_request_not_past_highest :
  let w := MkWorld [] [more [5; 3]; Returns (true, Records [])] [] [] [] in
  calls (snd (discover_received_pages Sample.on_off None w))
  = [DiscoverCommandsReceived 6 0 16 None; DiscoverCommandsReceived 6 4 16 None]
  /\ 1 + highest [5; 3] = 6.
Proof. split; reflexivity. Qed.

(** C7, amended: the request that follows a page with records starts at
    one plus the id of the last record of the page; that is one plus the
    highest id of the page when no record of it has an id above the last.
    For the attributes this is so when the data types of the records up to
    that page can be named: a page with a record whose type cannot is
    followed by no request. *)
Theorem next_request_follows_last_record fd cluster mfr :
  (forall pages recs later w,
      attr_tape w = List.map more pages ++ more recs :: later ->
      recs <> [] ->
      forallb (type_named fd) (concat pages ++ recs) = true ->
      let ids := List.map attrid recs in
      nth_error (calls (snd (discover_attribute_pages fd cluster mfr w)))
                (length (calls w) + length pages + 1)
      = Some (DiscoverAttributesExtended (cluster_id cluster)
                                         (last ids 0 + 1) 16 mfr)
      /\ (Forall (fun i => i <= last ids 0) ids ->
          last ids 0 + 1 = 1 + highest ids))
  /\ (forall pages done good bad rest later w,
         attr_tape w = List.map more pages
                       ++ Returns (done, Records (good ++ bad :: rest)) :: later ->
         forallb (type_named fd) (concat pages ++ good) = true ->
         type_named fd bad = false ->
         length (calls (snd (discover_attribute_pages fd cluster mfr w)))
         = (length (calls w) + length pages + 1)%nat)
  /\ (forall pages ids later w,
         received_tape w = List.map more pages ++ more ids :: later ->
         ids <> [] ->
         nth_error (calls (snd (discover_received_pages cluster mfr w)))
                   (length (calls w) + length pages + 1)
         = Some (DiscoverCommandsReceived (cluster_id cluster)
                                          (last ids 0 + 1) 16 mfr)
         /\ (Forall (fun i => i <= last ids 0) ids ->
             last ids 0 + 1 = 1 + highest ids))
  /\ (forall pages ids later w,
         generated_tape w = List.map more pages ++ more ids :: later ->
         ids <> [] ->
         nth_error (calls (snd (discover_generated_pages cluster mfr w)))
                   (length (calls w) + length pages + 1)
         = Some (DiscoverCommandsGenerated (cluster_id cluster)
                                           (last ids 0 + 1) 16 mfr)
         /\ (Forall (fun i => i <= last ids 0) ids ->
             last ids 0 + 1 = 1 + highest ids)).
Proof.
  split; [|split; [|split]].
  - intros pages recs later w Ht Hne Hn ids. split.
    + rewrite attribute_pages_run.
      eapply (run_next_request _ _ _
                (attributes_request_next (cluster_id cluster) mfr)
                (attributes_request_stuck (cluster_id cluster) mfr));
        [exact Ht | exact Hne | now apply all_named_builds].
    + intro Hf. rewrite (highest_last Hf). lia.
  - intros pages done good bad rest later w Ht Hn Hb.
    destruct (@attribute_pages_unnamed fd cluster mfr pages done good bad rest
                                       later w Ht Hn Hb)
      as (w' & H & _ & Hc).
    now rewrite H.
  - intros pages ids later w Ht Hne. split.
    + rewrite received_pages_run.
      rewrite <- (map_id ids) at 1.
      eapply (run_next_request _ _ _
                (received_request_next (cluster_id cluster) mfr)
                (received_request_stuck (cluster_id cluster) mfr));
        [exact Ht | exact Hne | apply builds_inr].
    + intro Hf. rewrite (highest_last Hf). lia.
  - intros pages ids later w Ht Hne. split.
    + rewrite generated_pages_run.
      rewrite <- (map_id ids) at 1.
      eapply (run_next_request _ _ _
                (generated_request_next (cluster_id cluster) mfr)
                (generated_request_stuck (cluster_id cluster) mfr));
        [exact Ht | exact Hne | apply builds_inr].
    + intro Hf. rewrite (highest_last Hf). lia.
Qed.

(** After one page 0, 1, 2 of attributes, on the on/off cluster, the second
    request starts at 3. *)
Lemma next_request_follows_last_record_witness :
  let recs := [AttrRec 0 16 1; AttrRec 1 16 1; AttrRec 2 16 1] in
  let w := MkWorld [more recs; Returns (true, Records [])] [] [] [] [] in
  attr_tape w = List.map more [] ++ more recs :: [Returns (true, Records [])]
  /\ recs <> []
  /\ forallb (type_named Sample.foundation) (concat [] ++ recs) = true
  /\ nth_error (calls (snd (discover_attribute_pages Sample.foundation
                                                      Sample.on_off None w))) 1
     = Some (DiscoverAttributesExtended 6 3 16 None)
  /\ (Forall (fun i => i <= 2) [0; 1; 2] -> 2 + 1 = 1 + highest [0; 1; 2]).
Proof.
  intros recs w. split; [reflexivity|]. split; [discriminate|].
  split; [reflexivity|].
  apply (proj1 (next_request_follows_last_record
                  Sample.foundation Sample.on_off None) [] recs
               [Returns (true, Records [])] w);
    [reflexivity | discriminate | reflexivity].
Defined.

(* ------------------------------------------------------------------ *)
(** ** The Value Reader *)

(** The batches of at most four ids a list is cut into, in order. *)
Fixpoint chunks_upto (fuel : nat) (ids : list N) : list (list N) :=
  match fuel, ids with
  | S fuel', _ :: _ => firstn 4 ids :: chunks_upto fuel' (skipn 4 ids)
  | _, _ => []
  end.


(** ceil(n / 4) *)
Definition quarters (n : nat) : nat := ((n + 3) / 4)%nat.

Lemma skipn4_length (ids : list N) fuel :
  ids <> [] -> (length ids <= S fuel)%nat -> (length (skipn 4 ids) <= fuel)%nat.
Proof.
  intros Hne Hl. rewrite length_skipn. destruct ids; [easy|]. simpl in *. lia.
Qed.



Lemma quarters_step n : quarters (4 + n) = S (quarters n).
Proof.
  unfold quarters. replace (4 + n + 3)%nat with (n + 3 + 1 * 4)%nat by lia.
  rewrite Nat.div_add by lia. lia.
Qed.

Lemma chunks_upto_length fuel : forall ids,
    (length ids <= fuel)%nat ->
    length (chunks_upto fuel ids) = quarters (length ids).
Proof.
  induction fuel as [|fuel IH]; intros ids Hl.
  - destruct ids; [reflexivity | simpl in Hl; lia].
  - destruct ids as [|a ids]; [reflexivity|].
    cbn [chunks_upto length]. rewrite IH by now apply skipn4_length.
    destruct ids as [|b [|c [|d ids]]]; try reflexivity.
    cbn [skipn length]. now rewrite <- quarters_step.
Qed.










(* ------------------------------------------------------------------ *)
(** ** Byte-string values *)

Lemma byte_eqb_eq (a b : byte) : Byte.eqb a b = true <-> a = b.
Proof. split; [apply Byte.byte_dec_bl | apply Byte.byte_dec_lb]. Qed.

Lemma bytes_split_hd sep b r :
  Byte.eqb b sep = false ->
  hd [] (bytes_split sep (b :: r)) = b :: hd [] (bytes_split sep r).
Proof.
  intro H. cbn [bytes_split]. rewrite H.
  destruct (bytes_split sep r); reflexivity.
Qed.

Lemma byte_eqb_neq (a b : byte) : a <> b -> Byte.eqb a b = false.
Proof.
  intro H. destruct (Byte.eqb a b) eqn:E; [|reflexivity].
  now apply byte_eqb_eq in E.
Qed.

(** The first piece of a split is what stands before the first separator. *)
Lemma bytes_split_before sep p rest :
  ~ In sep p -> hd [] (bytes_split sep (p ++ sep :: rest)) = p.
Proof.
  induction p as [|b p IH]; intro H.
  - cbn [app bytes_split]. now rewrite (Byte.byte_dec_lb eq_refl).
  - cbn [app]. rewrite bytes_split_hd.
    + f_equal. apply IH. intro; apply H; now right.
    + apply byte_eqb_neq. intro; apply H; now left.
Qed.

Lemma bytes_split_whole sep bs :
  ~ In sep bs -> hd [] (bytes_split sep bs) = bs.
Proof.
  induction bs as [|b bs IH]; intro H; [reflexivity|].
  rewrite bytes_split_hd.
  - f_equal. apply IH. intro; apply H; now right.
  - apply byte_eqb_neq. intro; apply H; now left.
Qed.

(** [t] is [text] without the white space around it. *)
Definition trimmed_of (text t : pystr) : Prop :=
  exists l r,
    text = l ++ t ++ r
    /\ forallb isspace l = true /\ forallb isspace r = true
    /\ (forall c, hd_error t = Some c -> isspace c = false)
    /\ (forall c, hd_error (rev t) = Some c -> isspace c = false).

Lemma lstrip_spec x :
  exists l, x = l ++ lstrip x /\ forallb isspace l = true
            /\ forall c, hd_error (lstrip x) = Some c -> isspace c = false.
Proof.
  induction x as [|c x (l & Hx & Hl & Hh)].
  - exists []. repeat split. discriminate.
  - cbn [lstrip]. destruct (isspace c) eqn:E.
    + exists (c :: l). repeat split.
      * cbn [app]. now rewrite <- Hx.
      * cbn [forallb]. now rewrite E, Hl.
      * exact Hh.
    + exists []. repeat split. now intros c' [= <-].
Qed.

Lemma forallb_reverse {A} (f : A -> bool) l :
  forallb f l = true -> forallb f (rev l) = true.
Proof.
  rewrite !forallb_forall. intros H x Hx. apply H. now apply in_rev.
Qed.

Lemma strip_trimmed text : trimmed_of text (strip text).
Proof.
  unfold strip, rstrip.
  destruct (lstrip_spec text) as (l & Hx & Hl & Hh).
  destruct (lstrip_spec (rev (lstrip text))) as (r & Hy & Hr & Hh').
  exists l, (rev r). repeat split.
  - rewrite <- rev_app_distr, <- Hy, rev_involutive. exact Hx.
  - exact Hl.
  - now apply forallb_reverse.
  - intros c Hc. apply Hh.
    apply (f_equal (@rev N)) in Hy. rewrite rev_involutive, rev_app_distr in Hy.
    rewrite Hy. destruct (rev (lstrip (rev (lstrip text)))); [discriminate|].
    exact Hc.
  - rewrite rev_involutive. exact Hh'.
Qed.

Lemma fromhex_hex_of_byte b r :
  fromhex (hex_of_byte b ++ r)
  = match fromhex r with Some ys => Some (b :: ys) | None => None end.
Proof. destruct b; reflexivity. Qed.

(** Hex-decoding the hex representation gives the bytes back. *)
Lemma fromhex_hex bs : fromhex (hex bs) = Some bs.
Proof.
  induction bs as [|b bs IH]; [reflexivity|].
  unfold hex. cbn [flat_map]. fold (hex bs).
  now rewrite fromhex_hex_of_byte, IH.
Qed.

(** C6: a byte-string value whose part before the first null decodes is
    stored as that part, decoded and trimmed (the whole value when it has
    no null); a value whose part before the first null does not decode is
    stored as the hex representation of the whole value, and hex-decoding
    what is stored gives the value back. *)
Theorem bytes_value_decoding (bs : list byte) :
  (forall p rest text,
      bs = p ++ x00 :: rest -> ~ In x00 p -> decode p = Some text ->
      convert_value (PBytes bs) = PStr (strip text)
      /\ trimmed_of text (strip text))
  /\ (forall text,
         ~ In x00 bs -> decode bs = Some text ->
         convert_value (PBytes bs) = PStr (strip text)
         /\ trimmed_of text (strip text))
  /\ (forall p rest,
         bs = p ++ x00 :: rest -> ~ In x00 p -> decode p = None ->
         convert_value (PBytes bs) = PStr (hex bs)
         /\ fromhex (hex bs) = Some bs)
  /\ (~ In x00 bs -> decode bs = None ->
      convert_value (PBytes bs) = PStr (hex bs)
      /\ fromhex (hex bs) = Some bs).
Proof.
  unfold convert_value. repeat split.
  - subst bs. rewrite bytes_split_before by assumption. now rewrite H1.
  - apply strip_trimmed.
  - rewrite bytes_split_whole by assumption. now rewrite H0.
  - apply strip_trimmed.
  - subst bs. rewrite bytes_split_before by assumption. now rewrite H1.
  - apply fromhex_hex.
  - rewrite bytes_split_whole by assumption. now rewrite H0.
  - apply fromhex_hex.
Qed.

(** The value [b" ab \x00\xff"] is stored as ["ab"], the value [b"\xff\x00"]
    as ["ff00"]. *)
Lemma bytes_value_decoding_witness :
  ([x20; x61; x62; x20; x00; xff] = [x20; x61; x62; x20] ++ x00 :: [xff]
   /\ ~ In x00 [x20; x61; x62; x20]
   /\ decode [x20; x61; x62; x20] = Some s{" ab "}
   /\ convert_value (PBytes [x20; x61; x62; x20; x00; xff]) = PStr s{"ab"})
  /\ ([xff; x00] = [xff] ++ x00 :: []
      /\ ~ In x00 [xff]
      /\ decode [xff] = None
      /\ convert_value (PBytes [xff; x00]) = PStr s{"ff00"}
      /\ fromhex s{"ff00"} = Some [xff; x00]).
Proof.
  assert (H1 : ~ In x00 [x20; x61; x62; x20])
    by (intros [H|[H|[H|[H|[]]]]]; discriminate).
  assert (H2 : ~ In x00 [xff]) by (intros [H|[]]; discriminate).
  split.
  - split; [reflexivity|]. split; [exact H1|]. split; [reflexivity|].
    exact (proj1 (proj1 (bytes_value_decoding [x20; x61; x62; x20; x00; xff])
                        [x20; x61; x62; x20] [xff] s{" ab "}
                        eq_refl H1 eq_refl)).
  - split; [reflexivity|]. split; [exact H2|]. split; [reflexivity|].
    exact (proj1 (proj2 (proj2 (bytes_value_decoding [xff; x00])))
                 [xff] [] eq_refl H2 eq_refl).
Defined.

(* ------------------------------------------------------------------ *)
(** ** The ZDO commands *)

(** A world as before, with one record more in the log. *)
Definition only_logged (l : Zdo.level) (msg : pystr) (w : Zdo.World)
  : Zdo.World :=
  Zdo.MkWorld (Zdo.answers w) (Zdo.transport w) (Zdo.logged w ++ [(l, msg)]).

(** C8, as the claim has it, fails for [join_with_code]: given neither an
    address nor data it checks nothing and makes its two transport calls,
    with the node and the key written in the code. *)
Lemma join_with_code_validates_nothing :
  let w := Zdo.MkWorld [Returns PNone; Returns PNone] [] [] in
  let app := Zdo.MkApp (fun _ => None) (fun _ => None) in
  Zdo.join_with_code app None PNone w
  = (Ok tt,
     Zdo.MkWorld []
       [ Zdo.AddTransientLinkKey s{"04:cf:8c:df:3c:75:e1:e7"}
           [x5a; x69; x67; x42; x65; x65; x41; x6c;
            x6c; x69; x61; x6e; x63; x65; x30; x39];
         Zdo.Permit 60 ]
       [(Zdo.DEBUG, s{"permit with key: %s"})]).
Proof. reflexivity. Qed.

(** C8, amended: a command that reads an input returns before any
    transport call when that input is missing: [leave] without a target
    address (or without the parent in [data]) logs one warning and returns,
    the world otherwise as it was; so do [ieee_ping] without an address and
    [update_nwk_id] without [data] (an error record for the latter).
    [join_with_code] reads neither [ieee] nor [data]: what it does is the
    same whatever it is given. *)
Theorem commands_validate_input int_base16 uint8_t update_payload app w :
  (forall ieee data,
      ieee = None \/ Zdo.falsy data = true ->
      Zdo.leave int_base16 app ieee data w
      = (Ok tt,
         only_logged Zdo.WARNING
                     s{"Incorrect parameters for 'zdo.leave' command: %s"} w))
  /\ (forall data,
         Zdo.ieee_ping app None data w
         = (Ok tt,
            only_logged Zdo.WARNING
                        s{"Incorrect parameters for 'ieee_ping' command: %s"} w))
  /\ (forall ieee,
         Zdo.update_nwk_id uint8_t update_payload app ieee PNone w
         = (Ok tt,
            only_logged Zdo.ERROR s{"Need NWK update id in the data"} w))
  /\ (forall ieee data ieee' data',
         Zdo.join_with_code app ieee data w
         = Zdo.join_with_code app ieee' data' w).
Proof.
  repeat split.
  intros ieee data [->|H]; unfold Zdo.leave.
  - reflexivity.
  - rewrite H, orb_true_r. reflexivity.
Qed.

(** [leave] with no target address, the radio untouched: no transport
    call, one warning. *)
Lemma commands_validate_input_witness :
  let w := Zdo.MkWorld [Returns PNone] [] [] in
  let app := Zdo.MkApp (fun _ => Some 0) (fun _ => Some 0) in
  ((None : option pystr) = None \/ Zdo.falsy (PStr s{"0x1234"}) = true)
  /\ Zdo.leave (fun _ => Some 4660) app None (PStr s{"0x1234"}) w
     = (Ok tt,
        Zdo.MkWorld [Returns PNone] []
          [(Zdo.WARNING, s{"Incorrect parameters for 'zdo.leave' command: %s"})]).
Proof.
  intros w app. split; [now left|].
  exact (proj1 (commands_validate_input (fun _ => Some 4660) (fun _ => None)
                                        (fun _ => []) app w)
               None (PStr s{"0x1234"}) (or_introl eq_refl)).
Defined.

(** With its inputs present [leave] does reach the radio. *)
Lemma leave_sends_request :
  let w := Zdo.MkWorld [Returns PNone] [] [] in
  let app := Zdo.MkApp (fun _ => Some 4660) (fun _ => None) in
  Zdo.transport
    (snd (Zdo.leave (fun _ => Some 4660) app (Some s{"00:0d:6f:00:0a:90:69:e7"})
                    (PStr s{"1234"}) w))
  = [Zdo.ZdoRequest 4660 Zdo.Mgmt_Leave_req
                    [PStr s{"00:0d:6f:00:0a:90:69:e7"}; PInt 2]].
Proof. reflexivity. Qed.

(* ------------------------------------------------------------------ *)
(** ** The device report *)

Lemma sget_sset_same k v d : sget k (sset k v d) = Some v.
Proof. apply (dict_get_set_same pystr_eqb pystr_eqb_eq). Qed.

Lemma sget_sset_other k k' v d : k <> k' -> sget k' (sset k v d) = sget k' d.
Proof. apply (dict_get_set_other pystr_eqb pystr_eqb_eq). Qed.

(** Two literals of the source differ. *)
Ltac distinct :=
  let H := fresh in intro H; vm_compute in H; discriminate H.

(** The endpoints a scan goes into: all but the ZDO endpoint 0. *)
Definition scanned_endpoints (device : Device) : list (N * Endpoint) :=
  filter (fun item => negb (fst item =? 0)) (endpoints device).

(** The body of the loop of [scan_results]. *)
Definition scan_results_body fd (st : sdict * list pyval) (item : N * Endpoint)
  : M (sdict * list pyval) :=
  let (result, endpoints) := st in
  let (epid, ep) := item in
  if epid =? 0 then ret st
  else
    let result := sset s{"model"} (model ep) result in
    let result := sset s{"manufacturer"} (manufacturer ep) result in
    let endpoint :=
      [ (s{"id"}, PInt (Z.of_N epid));
        (s{"device_type"}, PStr (format_0x 4 (device_type ep)));
        (s{"profile"}, PStr (format_0x 4 (profile_id ep))) ] in
    scanned <- scan_endpoint fd ep ;;
    let endpoint := dict_update endpoint scanned in
    ret (result, endpoints ++ [PDict endpoint]).

Lemma scan_results_unfold fd device :
  scan_results fd device
  = (st <- for_each (scan_results_body fd) (endpoints device)
                    ([ (s{"ieee"}, PStr (ieee device));
                       (s{"nwk"}, PStr (format_0x 4 (nwk device))) ], []) ;;
     let (result, endpoints) := st in
     ret (sset s{"endpoints"} (PList endpoints) result)).
Proof. reflexivity. Qed.

(** What the loop leaves under a key it sets from each endpoint scanned. *)
Lemma scan_results_loop fd (field : Endpoint -> pyval) (k : pystr) :
  (forall ep result,
      sget k (sset s{"manufacturer"} (manufacturer ep)
                   (sset s{"model"} (model ep) result)) = Some (field ep)) ->
  forall eps result l w st' w',
    for_each (scan_results_body fd) eps (result, l) w = (Ok st', w') ->
    sget k (fst st')
    = match rev (filter (fun item => negb (fst item =? 0)) eps) with
      | (_, ep) :: _ => Some (field ep)
      | [] => sget k result
      end.
Proof.
  intro Hk. induction eps as [|[epid ep] eps IH]; intros result l w st' w' H.
  - simpl in H. injection H as <- _. reflexivity.
  - cbn [for_each] in H. unfold bind at 1 in H.
    cbn [filter fst]. unfold scan_results_body at 1 in H.
    destruct (N.eqb_spec epid 0) as [E|E]; cbn [negb].
    + cbn [ret] in H. now apply IH in H.
    + unfold bind at 1 in H.
      destruct (scan_endpoint fd ep w) as [[sc|e|] w1]; try discriminate.
      cbn [ret] in H. apply IH in H. rewrite H. cbn [rev].
      destruct (rev (filter (fun item => negb (fst item =? 0)) eps))
        as [|[epid' ep'] r]; [|reflexivity].
      cbn [app]. apply Hk.
Qed.

(** C10: in the report [scan_results] returns, [model] and [manufacturer]
    are those of the last endpoint other than 0 in the order of
    [device.endpoints], and both keys are absent when the device has no
    such endpoint. *)
Theorem model_of_last_endpoint fd device w report w' :
  scan_results fd device w = (Ok report, w') ->
  match rev (scanned_endpoints device) with
  | (_, ep) :: _ =>
      sget s{"model"} report = Some (model ep)
      /\ sget s{"manufacturer"} report = Some (manufacturer ep)
  | [] =>
      sget s{"model"} report = None /\ sget s{"manufacturer"} report = None
  end.
Proof.
  rewrite scan_results_unfold. unfold bind at 1.
  destruct (for_each _ _ _ w) as [[[result l]|e|] w1] eqn:E; try discriminate.
  cbn [ret]. intros [= <- _].
  rewrite !sget_sset_other by distinct.
  pose proof (scan_results_loop fd model s{"model"}) as Hm.
  pose proof (scan_results_loop fd manufacturer s{"manufacturer"}) as Hf.
  assert (Hne : s{"manufacturer"} <> s{"model"}) by distinct.
  specialize (Hm (fun ep r => eq_trans (sget_sset_other _ _ Hne)
                                       (sget_sset_same _ _ _))
                 _ _ _ _ _ _ E).
  specialize (Hf (fun ep r => sget_sset_same _ _ _) _ _ _ _ _ _ E).
  cbn [fst] in Hm, Hf. unfold scanned_endpoints.
  destruct (rev (filter _ (endpoints device))) as [|[epid ep] r].
  - rewrite Hm, Hf. split; reflexivity.
  - split; assumption.
Qed.

(** A plug with the ZDO endpoint, an endpoint with an on/off cluster and a
    second endpoint without clusters, and a radio that answers each of the
    three discoveries of the on/off cluster with an empty, complete page. *)
Definition sample_plug : Device :=
  MkDevice s{"00:0d:6f:00:0a:90:69:e7"} 4660
    [ (0, MkEndpoint PNone PNone 0 0 [] []);
      (1, MkEndpoint (PStr s{"lumi.plug"}) (PStr s{"LUMI"}) 81 260
                     [Sample.on_off] []);
      (2, MkEndpoint (PStr s{"lumi.plug.2"}) PNone 9 260 [] []) ].

Definition sample_radio : World :=
  MkWorld [Returns (true, Records [])] [Returns (true, Records [])]
          [Returns (true, Records [])] [] [].

(** The report of the plug has the model of its endpoint 2, and the
    manufacturer of it, [None]. *)
Lemma model_of_last_endpoint_witness :
  exists report w',
    scan_results Sample.foundation sample_plug sample_radio = (Ok report, w')
    /\ sget s{"model"} report = Some (PStr s{"lumi.plug.2"})
    /\ sget s{"manufacturer"} report = Some PNone.
Proof.
  set (out := scan_results Sample.foundation sample_plug sample_radio).
  assert (E : out = (Ok (match fst out with Ok r => r | _ => [] end), snd out))
    by (vm_compute; reflexivity).
  exists (match fst out with Ok r => r | _ => [] end), (snd out).
  split; [exact E|].
  exact (model_of_last_endpoint Sample.foundation sample_plug sample_radio E).
Defined.

(* ------------------------------------------------------------------ *)
(** ** The order of the maps *)

Lemma insert_sorted_perm {A B} (key : A -> B) lt x l :
  Permutation (insert_sorted key lt x l) (x :: l).
Proof.
  induction l as [|y l IH]; simpl; [reflexivity|].
  destruct (lt (key y) (key x)); [|reflexivity].
  rewrite IH. apply perm_swap.
Qed.

Lemma sorted_perm {A B} (key : A -> B) lt l : Permutation (sorted key lt l) l.
Proof.
  induction l as [|x l IH]; simpl; [reflexivity|].
  rewrite insert_sorted_perm. now constructor.
Qed.

Lemma dict_of_items_In (items : list (pystr * pyval)) x :
  In x (dict_of_items pystr_eqb items) -> In x items.
Proof.
  intro H. apply (dict_set_all_In pystr_eqb pystr_eqb_eq) in H.
  destruct H as [H|[]]. exact H.
Qed.


Section SortFacts.
Variables A B : Type.
Variable key : A -> B.
Variable lt : B -> B -> bool.
(** A number for each key, that [lt] compares on the keys sorted. *)
Variable num : B -> N.

Local Abbreviation le_key := (fun a b : A => num (key a) <= num (key b)).

Lemma insert_sorted_ascending x l :
  (forall y, In y l -> lt (key y) (key x) = (num (key y) <? num (key x))) ->
  StronglySorted le_key l ->
  StronglySorted le_key (insert_sorted key lt x l).
Proof.
  induction l as [|y l IH]; intros Hlt Hs; simpl.
  - constructor; constructor.
  - inversion Hs as [|? ? Hs' Hf]; subst. rewrite Hlt by now left.
    destruct (N.ltb_spec (num (key y)) (num (key x))) as [H|H].
    + constructor.
      * apply IH; [|exact Hs']. intros z Hz. apply Hlt. now right.
      * apply Forall_forall. intros z Hz.
        apply (Permutation_in _ (insert_sorted_perm key lt x l)) in Hz.
        destruct Hz as [<-|Hz]; [lia|].
        rewrite Forall_forall in Hf. now apply Hf.
    + constructor; [exact Hs|]. constructor; [exact H|].
      rewrite Forall_forall in *. intros z Hz. specialize (Hf z Hz).
      cbv beta in Hf. lia.
Qed.

Lemma sorted_ascending l :
  (forall x y, In x l -> In y l ->
               lt (key x) (key y) = (num (key x) <? num (key y))) ->
  StronglySorted le_key (sorted key lt l).
Proof.
  induction l as [|x l IH]; intro Hlt; simpl; [constructor|].
  apply insert_sorted_ascending.
  - intros y Hy. apply (Permutation_in _ (sorted_perm key lt l)) in Hy.
    apply Hlt; [now right | now left].
  - apply IH. intros a b Ha Hb. apply Hlt; now right.
Qed.
End SortFacts.

Lemma ascending_strict {A} (f : A -> N) l :
  StronglySorted (fun a b => f a <= f b) l -> NoDup (List.map f l) ->
  StronglySorted (fun a b => f a < f b) l.
Proof.
  induction 1 as [|a l Hs IH Hf]; intro Hn; [constructor|].
  cbn [List.map] in Hn. inversion Hn as [|? ? Hnot Hn']; subst.
  constructor; [now apply IH|].
  rewrite Forall_forall in *. intros b Hb. specialize (Hf b Hb).
  assert (f a <> f b) by (intro E; apply Hnot; rewrite E; now apply in_map).
  cbv beta in Hf. lia.
Qed.

(** There is one way to put given records in strictly ascending order. *)
Lemma strictly_sorted_unique {A} (f : A -> N) : forall l1 l2,
    Permutation l1 l2 ->
    StronglySorted (fun a b => f a < f b) l1 ->
    StronglySorted (fun a b => f a < f b) l2 ->
    l1 = l2.
Proof.
  induction l1 as [|a l1 IH]; intros l2 Hp H1 H2.
  - apply Permutation_nil in Hp. now subst.
  - destruct l2 as [|b l2];
      [symmetry in Hp; now apply Permutation_nil in Hp|].
    inversion H1 as [|? ? H1' F1]; inversion H2 as [|? ? H2' F2]; subst.
    rewrite Forall_forall in F1, F2.
    assert (a = b).
    { assert (Ha : In a (b :: l2)) by (apply (Permutation_in _ Hp); now left).
      assert (Hb : In b (a :: l1))
        by (apply (Permutation_in _ (Permutation_sym Hp)); now left).
      destruct Ha as [Ha|Ha]; [now symmetry|].
      destruct Hb as [Hb|Hb]; [assumption|].
      specialize (F1 b Hb). specialize (F2 a Ha). cbv beta in *. lia. }
    subst b. f_equal. apply IH; [|assumption..].
    now apply Permutation_cons_inv in Hp.
Qed.

Lemma StronglySorted_map {A B} (f : A -> B) (R : B -> B -> Prop) l :
  StronglySorted (fun a b => R (f a) (f b)) l -> StronglySorted R (List.map f l).
Proof.
  induction 1 as [|a l Hs IH Hf]; simpl; constructor; [assumption|].
  rewrite Forall_forall in *. intros b Hb. apply in_map_iff in Hb.
  destruct Hb as (x & <- & Hx). now apply Hf.
Qed.

(** The number a key of a map was written from. *)
Definition key_number (k : pystr) : N := parse_hex (skipn 2 k).

Lemma key_number_format w n : key_number (format_0x w n) = n.
Proof. unfold key_number, format_0x. apply parse_zfill_hex_digits. Qed.

(** Keys written with [w] digits from numbers that fit in [w] digits. *)
Definition formatted (w : nat) (keys : list pystr) : Prop :=
  forall k, In k keys -> exists n, n < 16 ^ N.of_nat w /\ k = format_0x w n.

(** The keys of a map are those of ids in strictly ascending order. *)
Definition ascending_keys (w : nat) (d : sdict) : Prop :=
  exists ids, dict_keys d = List.map (format_0x w) ids /\ StronglySorted N.lt ids.

Lemma formatted_key w keys k :
  formatted w keys -> In k keys -> format_0x w (key_number k) = k.
Proof.
  intros Hf Hk. destruct (Hf k Hk) as (n & _ & ->).
  now rewrite key_number_format.
Qed.

Lemma sorted_items_sorted w (d : sdict) :
  (1 <= w)%nat -> NoDup (dict_keys d) -> formatted w (dict_keys d) ->
  sorted_items d = sorted fst str_lt d
  /\ Permutation (sorted_items d) d
  /\ StronglySorted (fun a b => key_number (fst a) < key_number (fst b))
                    (sorted_items d).
Proof.
  intros Hw Hn Hf.
  pose proof (sorted_perm fst str_lt d) as Hp.
  assert (E : sorted_items d = sorted fst str_lt d).
  { unfold sorted_items. apply (dict_of_items_NoDup pystr_eqb pystr_eqb_eq).
    eapply Permutation_NoDup; [|exact Hn].
    apply Permutation_map. now symmetry. }
  rewrite E. split; [reflexivity|]. split; [exact Hp|].
  apply ascending_strict.
  - apply sorted_ascending. intros x y Hx Hy.
    destruct (Hf (fst x)) as (a & Ha & ->); [now apply in_map|].
    destruct (Hf (fst y)) as (b & Hb & ->); [now apply in_map|].
    rewrite !key_number_format. now apply str_lt_format_0x.
  - assert (Hk : NoDup (List.map fst (sorted fst str_lt d))).
    { eapply Permutation_NoDup; [|exact Hn].
      apply Permutation_map. now symmetry. }
    rewrite <- map_map.
    assert (Hf' : formatted w (List.map fst (sorted fst str_lt d))).
    { intros k Hk'. apply Hf. unfold dict_keys.
      eapply Permutation_in; [|exact Hk']. now apply Permutation_map. }
    revert Hk Hf'. generalize (List.map fst (sorted fst str_lt d)).
    induction l as [|k l IH]; intros Hk Hf'; [constructor|].
    inversion Hk as [|? ? Hnot Hk']; subst. cbn [List.map]. constructor.
    + intro Hin. apply in_map_iff in Hin. destruct Hin as (k' & Ek & Hk'').
      apply Hnot. rewrite <- (@formatted_key w _ k Hf' (or_introl eq_refl)).
      rewrite <- Ek. rewrite (@formatted_key w _ k' Hf' (or_intror Hk'')).
      exact Hk''.
    + apply IH; [exact Hk'|]. intros k' Hk''. apply Hf'. now right.
Qed.

Lemma sorted_items_ascending w (d : sdict) :
  (1 <= w)%nat -> NoDup (dict_keys d) -> formatted w (dict_keys d) ->
  ascending_keys w (sorted_items d).
Proof.
  intros Hw Hn Hf. destruct (@sorted_items_sorted w d Hw Hn Hf) as (_ & Hp & Hs).
  exists (List.map (fun kv => key_number (fst kv)) (sorted_items d)). split.
  - unfold dict_keys. rewrite map_map. apply map_ext_in. intros kv Hkv.
    symmetry. apply (@formatted_key w _ (fst kv) Hf). unfold dict_keys.
    apply in_map. eapply Permutation_in; [exact Hp | exact Hkv].
  - now apply (StronglySorted_map (fun kv => key_number (fst kv)) N.lt).
Qed.

(** The sorted map depends on the items, not on their order. *)
Lemma sorted_items_any_order w (d d' : sdict) :
  (1 <= w)%nat -> NoDup (dict_keys d) -> formatted w (dict_keys d) ->
  Permutation d d' -> sorted_items d = sorted_items d'.
Proof.
  intros Hw Hn Hf Hp.
  assert (Hn' : NoDup (dict_keys d'))
    by (eapply Permutation_NoDup; [|exact Hn]; now apply Permutation_map).
  assert (Hf' : formatted w (dict_keys d')).
  { intros k Hk. apply Hf. unfold dict_keys in *.
    eapply Permutation_in; [|exact Hk]. apply Permutation_map. now symmetry. }
  destruct (@sorted_items_sorted w d Hw Hn Hf) as (_ & P1 & S1).
  destruct (@sorted_items_sorted w d' Hw Hn' Hf') as (_ & P2 & S2).
  apply (strictly_sorted_unique (fun kv => key_number (fst kv))); auto.
  rewrite P1, P2. exact Hp.
Qed.

(** Whatever the tape holds, a loop that returns has stored records of the
    pages of the tape, one after the other. *)
Section PaginatorShape.
Variables R K : Type.
Variable request : N -> M (bool * response R).
Variable tape : World -> list (outcome (bool * response R)).
Variable mk_call : N -> call.
Hypothesis request_next : forall c w o t,
    tape w = o :: t ->
    exists w', request c w = (answer o, w')
               /\ tape w' = t /\ calls w' = calls w ++ [mk_call c].
Hypothesis request_stuck : forall c w,
    tape w = [] ->
    exists w', request c w = (Stuck, w') /\ calls w' = calls w ++ [mk_call c].
Variable rec_id : R -> N.
Variable key : R -> K.
Variable entry : R -> exn + sdict.
Variable eqb : K -> K -> bool.

Lemma loop_accumulates fuel : forall cursor result w result' w',
    while_not_done request rec_id key entry eqb fuel cursor result w
    = (Ok result', w') ->
    exists recs,
      result' = accumulate key (entry_of entry) eqb recs result
      /\ Forall (builds entry) recs
      /\ forall r, In r recs ->
                   exists done rs,
                     In (Returns (done, Records rs)) (tape w) /\ In r rs.
Proof.
  induction fuel as [|fuel IH]; intros cursor result w result' w' Hl;
    [discriminate|].
  rewrite loop_step in Hl. destruct (tape w) as [|o t] eqn:Et.
  - destruct (request_stuck cursor Et) as (w1 & Hr & _).
    rewrite Hr in Hl. discriminate.
  - destruct (request_next cursor Et) as (w1 & Hr & Ht1 & _).
    rewrite Hr in Hl. destruct o as [e|[done [code|recs]]]; cbn [answer] in Hl.
    + destruct e; inversion Hl; subst; exists []; split; easy.
    + inversion Hl; subst. exists []. split; easy.
    + destruct (for_records rec_id key entry eqb recs (cursor, result))
        as [e|st] eqn:Ef; [discriminate|].
      pose proof (for_records_stored _ _ _ _ _ _ Ef) as Hb.
      rewrite (for_records_builds rec_id key eqb cursor result Hb) in Ef.
      injection Ef as <-. cbn [fst snd] in Hl.
      destruct done.
      * inversion Hl; subst. exists recs. split; [reflexivity|].
        split; [exact Hb|].
        intros r Hr'. exists true, recs. split; [now left | exact Hr'].
      * destruct (IH _ _ _ _ _ Hl) as (recs' & -> & Hb' & Hin).
        exists (recs ++ recs'). split; [now rewrite accumulate_app|].
        split; [now apply Forall_app|].
        intros r Hr'. apply in_app_or in Hr'. destruct Hr' as [Hr'|Hr'].
        -- exists false, recs. split; [now left | exact Hr'].
        -- destruct (Hin r Hr') as (d & rs & H1 & H2). exists d, rs.
           rewrite Ht1 in H1. split; [now right | exact H2].
Qed.
End PaginatorShape.

Lemma accumulate_keys {R K} (key : R -> K) entry eqb
      (eqb_eq : forall a b, eqb a b = true <-> a = b) (recs : list R) :
  NoDup (dict_keys (accumulate key entry eqb recs []))
  /\ forall k, In k (dict_keys (accumulate key entry eqb recs [])) ->
               exists r, In r recs /\ key r = k.
Proof.
  unfold accumulate. split.
  - apply (dict_set_all_NoDup eqb eqb_eq). constructor.
  - intros k H. apply (dict_set_all_keys eqb eqb_eq) in H.
    destruct H as [H|[]]. rewrite map_map in H. apply in_map_iff in H.
    destruct H as (r & H1 & H2). now exists r.
Qed.

(** The ids a tape of command discovery carries are below [bound]. *)
Definition ids_below (bound : N) (tape : list (outcome (bool * response N)))
  : Prop :=
  forall done ids id,
    In (Returns (done, Records ids)) tape -> In id ids -> id < bound.

Lemma NoDup_map_injective {A B} (f : A -> B) l :
  (forall x y, f x = f y -> x = y) -> NoDup l -> NoDup (List.map f l).
Proof.
  intros Hi. induction 1 as [|a l Hn Hd IH]; simpl; constructor; [|exact IH].
  intro H. apply in_map_iff in H. destruct H as (x & E & Hx).
  apply Hi in E. now subst.
Qed.

(** The Value Reader keeps the keys of what it is given. *)
Lemma store_values_keys success : forall result w result' w',
    store_values result success w = (Ok result', w') ->
    dict_keys result' = dict_keys result.
Proof.
  unfold store_values.
  induction success as [|[k v] success IH]; intros result w result' w' H.
  - simpl in H. now injection H as <- _.
  - cbn [for_each] in H. unfold bind at 1 in H.
    destruct (dict_get N.eqb k result) as [e|] eqn:E; [|discriminate].
    cbn [ret] in H. apply IH in H. rewrite H.
    apply (dict_set_keys_known N.eqb N.eqb_eq).
    apply (dict_get_In N.eqb N.eqb_eq). congruence.
Qed.

Lemma try_read_chunk_keys cluster chunk result w result' w' :
  try_read_chunk cluster chunk result w = (Ok result', w') ->
  dict_keys result' = dict_keys result.
Proof.
  unfold try_read_chunk, bind.
  destruct (read_attr (cluster_id cluster) chunk w) as [[rsp|e|] w1].
  - destruct (store_values result (fst rsp) w1) as [[r|e|] w2] eqn:E.
    + intros [= <- _]. now apply store_values_keys in E.
    + destruct e; intros [= <- _] || discriminate. reflexivity.
    + discriminate.
  - destruct e; intros [= <- _] || discriminate. reflexivity.
  - discriminate.
Qed.

Lemma read_chunks_keys cluster fuel : forall chunk to_read result w result' w',
    read_chunks fuel cluster chunk to_read result w = (Ok result', w') ->
    dict_keys result' = dict_keys result.
Proof.
  induction fuel as [|fuel IH]; intros chunk to_read result w result' w' H;
    destruct chunk as [|a chunk]; cbn [read_chunks] in H.
  - now injection H as <- _.
  - discriminate.
  - now injection H as <- _.
  - unfold bind at 1 in H.
    destruct (try_read_chunk cluster (a :: chunk) result w) as [[r|e|] w1] eqn:E;
      try discriminate.
    apply IH in H. apply try_read_chunk_keys in E. congruence.
Qed.

Lemma sorted_ids_ascending (ids : list N) :
  NoDup ids ->
  StronglySorted N.lt (sorted (fun a_id => a_id) N.ltb ids)
  /\ Permutation (sorted (fun a_id => a_id) N.ltb ids) ids.
Proof.
  intro Hn. pose proof (sorted_perm (fun a_id : N => a_id) N.ltb ids) as Hp.
  split; [|exact Hp].
  apply (ascending_strict (fun a : N => a)).
  - apply (sorted_ascending (fun a_id : N => a_id) N.ltb (fun a : N => a)).
    reflexivity.
  - rewrite map_id. eapply Permutation_NoDup; [|exact Hn]. now symmetry.
Qed.

Lemma attributes_report_keys result :
  NoDup (dict_keys result) ->
  dict_keys (attributes_report result)
  = List.map (format_0x 4) (sorted (fun a_id => a_id) N.ltb (dict_keys result)).
Proof.
  intro Hn. destruct (sorted_ids_ascending Hn) as (_ & Hp).
  unfold attributes_report. rewrite (dict_of_items_NoDup pystr_eqb pystr_eqb_eq).
  - unfold dict_keys at 1. now rewrite map_map.
  - rewrite map_map. cbn [fst]. apply NoDup_map_injective.
    + apply format_0x_inj.
    + eapply Permutation_NoDup; [|exact Hn]. now symmetry.
Qed.

Lemma attributes_report_ascending result :
  NoDup (dict_keys result) -> ascending_keys 4 (attributes_report result).
Proof.
  intro Hn. exists (sorted (fun a_id => a_id) N.ltb (dict_keys result)).
  split; [now apply attributes_report_keys | now apply sorted_ids_ascending].
Qed.

Lemma dict_get_NoDup_In {K V} (eqb : K -> K -> bool)
      (eqb_eq : forall a b, eqb a b = true <-> a = b) (d : dict K V) k v :
  NoDup (dict_keys d) -> In (k, v) d -> dict_get eqb k d = Some v.
Proof.
  induction d as [|[k0 v0] d IH]; intros Hn Hin; [easy|].
  cbn [dict_keys List.map fst] in Hn. inversion Hn as [|? ? Hnot Hn']; subst.
  cbn [dict_get]. destruct Hin as [[= -> ->]|Hin].
  - now rewrite (proj2 (eqb_eq k k) eq_refl).
  - destruct (eqb k k0) eqn:E; [|now apply IH].
    apply eqb_eq in E. subst. exfalso. apply Hnot.
    change k0 with (fst (k0, v)). now apply in_map.
Qed.

Lemma dict_get_any_order {K V} (eqb : K -> K -> bool)
      (eqb_eq : forall a b, eqb a b = true <-> a = b) (d d' : dict K V) k :
  NoDup (dict_keys d) -> Permutation d d' ->
  dict_get eqb k d = dict_get eqb k d'.
Proof.
  intros Hn Hp.
  assert (Hn' : NoDup (dict_keys d'))
    by (eapply Permutation_NoDup; [|exact Hn]; now apply Permutation_map).
  destruct (dict_get eqb k d) as [v|] eqn:E.
  - apply (dict_get_Some_In eqb eqb_eq) in E. symmetry.
    apply (dict_get_NoDup_In eqb eqb_eq); [exact Hn'|].
    eapply Permutation_in; [exact Hp | exact E].
  - destruct (dict_get eqb k d') as [v|] eqn:E'; [|reflexivity].
    apply (dict_get_Some_In eqb eqb_eq) in E'.
    apply (Permutation_in _ (Permutation_sym Hp)) in E'.
    apply (@dict_get_NoDup_In _ _ eqb eqb_eq d k v Hn) in E'. congruence.
Qed.

Lemma attributes_report_any_order result result' :
  NoDup (dict_keys result) -> Permutation result result' ->
  attributes_report result = attributes_report result'.
Proof.
  intros Hn Hp.
  assert (Hk : Permutation (dict_keys result) (dict_keys result'))
    by now apply Permutation_map.
  assert (Hn' : NoDup (dict_keys result'))
    by (eapply Permutation_NoDup; [exact Hk | exact Hn]).
  destruct (sorted_ids_ascending Hn) as (S1 & P1).
  destruct (sorted_ids_ascending Hn') as (S2 & P2).
  unfold attributes_report.
  rewrite (strictly_sorted_unique (fun a : N => a) (l1 := sorted _ _ _)
             (l2 := sorted (fun a_id => a_id) N.ltb (dict_keys result')));
    [| now rewrite P1, P2 | exact S1 | exact S2].
  f_equal. apply map_ext. intro a.
  now rewrite (dict_get_any_order N.eqb N.eqb_eq a Hn Hp).
Qed.

(** The keys of a map are those of the ids that satisfy [P], each once, in
    ascending order of the ids. *)
Definition ascending_keys_of (w : nat) (d : sdict) (P : N -> Prop) : Prop :=
  exists ids,
    dict_keys d = List.map (format_0x w) ids
    /\ StronglySorted N.lt ids
    /\ forall i, In i ids <-> P i.

Lemma ascending_keys_of_ascending w d P :
  ascending_keys_of w d P -> ascending_keys w d.
Proof. intros (ids & Hk & Hs & _). now exists ids. Qed.

Lemma sorted_items_perm (d : sdict) :
  NoDup (dict_keys d) -> Permutation (sorted_items d) d.
Proof.
  intro Hn. unfold sorted_items.
  rewrite (dict_of_items_NoDup pystr_eqb pystr_eqb_eq);
    [apply sorted_perm|].
  eapply Permutation_NoDup; [|exact Hn].
  apply Permutation_map. symmetry. apply sorted_perm.
Qed.

Lemma sorted_items_In (d : sdict) x : In x (sorted_items d) -> In x d.
Proof.
  intro H. unfold sorted_items in H. apply dict_of_items_In in H.
  exact (Permutation_in _ (sorted_perm fst str_lt d) H).
Qed.

(** Sorting a map changes no value. *)
Lemma sorted_items_get (d : sdict) k :
  NoDup (dict_keys d) -> sget k (sorted_items d) = sget k d.
Proof.
  intro Hn. symmetry. unfold sget.
  apply (dict_get_any_order pystr_eqb pystr_eqb_eq); [exact Hn|].
  symmetry. now apply sorted_items_perm.
Qed.

Lemma sorted_items_ids w (d : sdict) :
  (1 <= w)%nat -> NoDup (dict_keys d) -> formatted w (dict_keys d) ->
  ascending_keys_of w (sorted_items d)
                    (fun i => In (format_0x w i) (dict_keys d)).
Proof.
  intros Hw Hn Hf.
  destruct (@sorted_items_ascending w d Hw Hn Hf) as (ids & Hk & Hs).
  exists ids. split; [exact Hk|]. split; [exact Hs|].
  assert (Hp : Permutation (dict_keys (sorted_items d)) (dict_keys d))
    by (apply Permutation_map; now apply sorted_items_perm).
  intro i. split.
  - intro Hi. eapply Permutation_in; [exact Hp|].
    rewrite Hk. now apply in_map.
  - intro Hi. apply (Permutation_in _ (Permutation_sym Hp)) in Hi.
    rewrite Hk in Hi. apply in_map_iff in Hi. destruct Hi as (j & E & Hj).
    apply format_0x_inj in E. now subst.
Qed.

Lemma attributes_report_ids result :
  NoDup (dict_keys result) ->
  ascending_keys_of 4 (attributes_report result)
                    (fun i => In i (dict_keys result))
  /\ forall i e,
      dict_get N.eqb i result = Some e ->
      sget (format_0x 4 i) (attributes_report result) = Some (PDict e).
Proof.
  intro Hn. destruct (@sorted_ids_ascending (dict_keys result) Hn) as (Hs & Hp). split.
  - exists (sorted (fun a_id => a_id) N.ltb (dict_keys result)).
    split; [now apply attributes_report_keys|]. split; [exact Hs|].
    intro i. split; intro Hi.
    + eapply Permutation_in; [exact Hp | exact Hi].
    + eapply Permutation_in; [symmetry; exact Hp | exact Hi].
  - intros i e Hi.
    assert (Hk : NoDup (List.map fst
                   (List.map
                      (fun a_id =>
                         (format_0x 4 a_id,
                          match dict_get N.eqb a_id result with
                          | Some e => PDict e
                          | None => PNone
                          end))
                      (sorted (fun a_id => a_id) N.ltb (dict_keys result))))).
    { rewrite map_map. cbn [fst]. apply NoDup_map_injective.
      - apply format_0x_inj.
      - eapply Permutation_NoDup; [|exact Hn]. now symmetry. }
    unfold attributes_report, sget.
    rewrite (dict_of_items_NoDup pystr_eqb pystr_eqb_eq) by exact Hk.
    apply (dict_get_NoDup_In pystr_eqb pystr_eqb_eq); [exact Hk|].
    apply in_map_iff. exists i. rewrite Hi. split; [reflexivity|].
    eapply Permutation_in; [symmetry; exact Hp|].
    apply (dict_get_In N.eqb N.eqb_eq). congruence.
Qed.

Lemma attribute_pages_NoDup fd cluster mfr w result w' :
  discover_attribute_pages fd cluster mfr w = (Ok result, w') ->
  NoDup (dict_keys result).
Proof.
  intro H. unfold discover_attribute_pages in H.
  apply (loop_accumulates _ _ _
           (attributes_request_next (cluster_id cluster) mfr)
           (attributes_request_stuck (cluster_id cluster) mfr)) in H.
  destruct H as (recs & -> & _).
  apply (accumulate_keys attrid (entry_of (attr_entry fd cluster)) N.eqb
                         N.eqb_eq).
Qed.

(** The attribute map: a key for each id discovered and no other, in
    ascending order, and under the key of an id the record the Value Reader
    has left for it. *)
Lemma attribute_map_of_discovered fd cluster mfr w report w' :
  discover_attributes_extended fd cluster mfr w = (Ok report, w') ->
  exists discovered w1 result,
    discover_attribute_pages fd cluster mfr w = (Ok discovered, w1)
    /\ read_attribute_values cluster discovered w1 = (Ok result, w')
    /\ ascending_keys_of 4 report (fun i => In i (dict_keys discovered))
    /\ forall i e,
        dict_get N.eqb i result = Some e ->
        sget (format_0x 4 i) report = Some (PDict e).
Proof.
  unfold discover_attributes_extended, bind.
  destruct (discover_attribute_pages fd cluster mfr w) as [[r1|e|] w1] eqn:E1;
    try discriminate.
  destruct (read_attribute_values cluster r1 w1) as [[r2|e|] w2] eqn:E2;
    try discriminate.
  cbn [ret]. intros [= <- <-]. exists r1, w1, r2.
  split; [reflexivity|]. split; [exact E2|].
  pose proof (read_chunks_keys _ _ _ _ _ _ E2) as Hk.
  assert (Hn : NoDup (dict_keys r2))
    by (rewrite Hk; now apply attribute_pages_NoDup in E1).
  destruct (@attributes_report_ids r2 Hn) as (Ha & Hv).
  split; [|exact Hv]. now rewrite <- Hk.
Qed.

(** The mapping of a command discovery: every key once, and each written
    with two digits when the ids of the tape are below 256. *)
Lemma command_pages_keys (tape : list (outcome (bool * response N)))
      entry (recs : list N) :
  ids_below 256 tape ->
  (forall r, In r recs ->
             exists done rs, In (Returns (done, Records rs)) tape /\ In r rs) ->
  let d := List.map (fun kv => (fst kv, PDict (snd kv)))
                    (accumulate (format_0x 2) entry pystr_eqb recs []) in
  NoDup (dict_keys d) /\ formatted 2 (dict_keys d).
Proof.
  intros Hb Hin d.
  destruct (accumulate_keys (format_0x 2) entry pystr_eqb pystr_eqb_eq recs)
    as (Hn & Hk).
  assert (E : dict_keys d
              = dict_keys (accumulate (format_0x 2) entry pystr_eqb recs []))
    by (unfold d, dict_keys; rewrite map_map; reflexivity).
  rewrite E. split; [exact Hn|].
  intros k H. destruct (Hk k H) as (r & Hr & <-).
  destruct (Hin r Hr) as (done & rs & H1 & H2).
  exists r. split; [|reflexivity]. exact (Hb done rs r H1 H2).
Qed.

Lemma dict_get_map_PDict (result : dict pystr sdict) k :
  sget k (List.map (fun kv => (fst kv, PDict (snd kv))) result)
  = option_map PDict (dict_get pystr_eqb k result).
Proof.
  unfold sget. induction result as [|[k0 e0] result IH]; [reflexivity|].
  cbn [List.map dict_get fst snd]. destruct (pystr_eqb k k0); [reflexivity|].
  exact IH.
Qed.

(** A command map: the keys of the mapping the loop returns and no other,
    in ascending order of the ids, each with the entry stored. *)
Lemma sorted_report_of_result (result : dict pystr sdict) :
  NoDup (dict_keys result) -> formatted 2 (dict_keys result) ->
  ascending_keys_of 2 (sorted_report result)
                    (fun i => In (format_0x 2 i) (dict_keys result))
  /\ forall k e,
      dict_get pystr_eqb k result = Some e ->
      sget k (sorted_report result) = Some (PDict e).
Proof.
  intros Hn Hf. unfold sorted_report.
  set (d := List.map (fun kv => (fst kv, PDict (snd kv))) result).
  assert (E : dict_keys d = dict_keys result)
    by (unfold d, dict_keys; rewrite map_map; reflexivity).
  assert (Hn' : NoDup (dict_keys d)) by now rewrite E.
  assert (Hf' : formatted 2 (dict_keys d)) by now rewrite E.
  split.
  - rewrite <- E. apply sorted_items_ids; [lia | exact Hn' | exact Hf'].
  - intros k e Hk. rewrite (@sorted_items_get d k Hn'). unfold d.
    rewrite dict_get_map_PDict, Hk. reflexivity.
Qed.

Lemma received_map_of_result cluster is_server mfr w report w' :
  ids_below 256 (received_tape w) ->
  discover_commands_received cluster is_server mfr w = (Ok report, w') ->
  exists result,
    discover_received_pages cluster mfr w = (Ok result, w')
    /\ ascending_keys_of 2 report
                         (fun i => In (format_0x 2 i) (dict_keys result))
    /\ forall k e,
        dict_get pystr_eqb k result = Some e ->
        sget k report = Some (PDict e).
Proof.
  intro Hb. unfold discover_commands_received, bind.
  destruct (discover_received_pages cluster mfr w) as [[r1|e|] w1] eqn:E1;
    try discriminate.
  cbn [ret]. intros [= <- <-]. exists r1. split; [reflexivity|].
  unfold discover_received_pages in E1.
  apply (loop_accumulates _ _ _
           (received_request_next (cluster_id cluster) mfr)
           (received_request_stuck (cluster_id cluster) mfr)) in E1.
  destruct E1 as (recs & -> & _ & Hin).
  destruct (command_pages_keys (received_entry cluster) recs Hb Hin) as (Hn & Hf).
  apply sorted_report_of_result.
  - apply (accumulate_keys (format_0x 2) (received_entry cluster) pystr_eqb
                           pystr_eqb_eq).
  - unfold dict_keys in *. rewrite map_map in Hf. exact Hf.
Qed.

Lemma generated_map_of_result cluster is_server mfr w report w' :
  ids_below 256 (generated_tape w) ->
  discover_commands_generated cluster is_server mfr w = (Ok report, w') ->
  exists result,
    discover_generated_pages cluster mfr w = (Ok result, w')
    /\ ascending_keys_of 2 report
                         (fun i => In (format_0x 2 i) (dict_keys result))
    /\ forall k e,
        dict_get pystr_eqb k result = Some e ->
        sget k report = Some (PDict e).
Proof.
  intro Hb. unfold discover_commands_generated, bind.
  destruct (discover_generated_pages cluster mfr w) as [[r1|e|] w1] eqn:E1;
    try discriminate.
  cbn [ret]. intros [= <- <-]. exists r1. split; [reflexivity|].
  unfold discover_generated_pages in E1.
  apply (loop_accumulates _ _ _
           (generated_request_next (cluster_id cluster) mfr)
           (generated_request_stuck (cluster_id cluster) mfr)) in E1.
  destruct E1 as (recs & -> & _ & Hin).
  destruct (command_pages_keys (generated_entry cluster) recs Hb Hin) as (Hn & Hf).
  apply sorted_report_of_result.
  - apply (accumulate_keys (format_0x 2) (generated_entry cluster) pystr_eqb
                           pystr_eqb_eq).
  - unfold dict_keys in *. rewrite map_map in Hf. exact Hf.
Qed.

(** The report of a cluster holds the three maps, the two of the commands
    under the names the role gives. *)
Lemma scan_cluster_maps fd cluster is_server w d w' :
  scan_cluster fd cluster is_server w = (Ok d, w') ->
  exists attrs received generated w1 w2,
    discover_attributes_extended fd cluster None w = (Ok attrs, w1)
    /\ discover_commands_received cluster is_server None w1 = (Ok received, w2)
    /\ discover_commands_generated cluster is_server None w2
       = (Ok generated, w')
    /\ sget s{"attributes"} d = Some (PDict attrs)
    /\ sget (if is_server then s{"commands_received"}
             else s{"commands_generated"}) d = Some (PDict received)
    /\ sget (if is_server then s{"commands_generated"}
             else s{"commands_received"}) d = Some (PDict generated).
Proof.
  unfold scan_cluster. destruct is_server; unfold bind;
    destruct (discover_attributes_extended fd cluster None w)
      as [[a|e|] w1] eqn:Ea; try discriminate;
    destruct (discover_commands_received cluster _ None w1)
      as [[r|e|] w2] eqn:Er; try discriminate;
    destruct (discover_commands_generated cluster _ None w2)
      as [[g|e|] w3] eqn:Eg; try discriminate;
    intros [= <- <-]; exists a, r, g, w1, w2;
    (split; [reflexivity|]); (split; [exact Er|]); (split; [exact Eg|]);
    repeat split.
Qed.

(** The clusters of one side of an endpoint scanned one after the other in
    the server role: each cluster with its report, in the order of the
    scan. *)
Fixpoint server_scans fd (cs : list Cluster) : M (list (Cluster * sdict)) :=
  match cs with
  | [] => ret []
  | c :: cs' =>
      d <- scan_cluster fd c true ;;
      rest <- server_scans fd cs' ;;
      ret ((c, d) :: rest)
  end.

(** The item a scan puts in the cluster map. *)
Definition cluster_item (cd : Cluster * sdict) : pystr * pyval :=
  (format_0x 4 (cluster_id (fst cd)), PDict (snd cd)).

Lemma scan_clusters_loop_scans fd : forall cs clusters w clusters' w',
    for_each
      (fun clusters cluster =>
         let key := format_0x 4 (cluster_id cluster) in
         report <- scan_cluster fd cluster true ;;
         ret (sset key (PDict report) clusters))
      cs clusters w = (Ok clusters', w') ->
    exists scans,
      server_scans fd cs w = (Ok scans, w')
      /\ List.map fst scans = cs
      /\ clusters' = dict_set_all pystr_eqb (List.map cluster_item scans)
                                  clusters.
Proof.
  induction cs as [|c cs IH]; intros clusters w clusters' w' H.
  - simpl in H. injection H as <- <-. exists []. repeat split.
  - cbn [for_each] in H. unfold bind at 1 2 in H.
    cbn [server_scans]. unfold bind at 1.
    destruct (scan_cluster fd c true w) as [[d|e|] w1]; try discriminate.
    cbn [ret] in H. apply IH in H. destruct H as (scans & Hs & Hm & ->).
    exists ((c, d) :: scans). unfold bind. rewrite Hs. cbn [ret].
    split; [reflexivity|]. split; [cbn [List.map fst]; now rewrite Hm|].
    reflexivity.
Qed.

Lemma scan_clusters_scans fd cs w report w' :
  scan_clusters fd cs w = (Ok report, w') ->
  exists scans,
    server_scans fd cs w = (Ok scans, w')
    /\ List.map fst scans = cs
    /\ report = sorted_items (dict_of_items pystr_eqb
                                            (List.map cluster_item scans)).
Proof.
  unfold scan_clusters, bind.
  match goal with
  | |- context [for_each ?body cs [] w] =>
      destruct (for_each body cs [] w) as [[clusters|e|] w1] eqn:E
  end; try discriminate.
  cbn [ret]. intros [= <- <-].
  apply scan_clusters_loop_scans in E. destruct E as (scans & Hs & Hm & ->).
  exists scans. repeat split; assumption.
Qed.

Lemma cluster_items_keys (scans : list (Cluster * sdict)) :
  List.map fst (List.map cluster_item scans)
  = List.map (format_0x 4) (List.map cluster_id (List.map fst scans)).
Proof. rewrite !map_map. reflexivity. Qed.

(** A cluster map: a key for each cluster of the side and no other, in
    ascending order of the cluster ids. *)
Lemma scan_clusters_ids fd cs w report w' :
  (forall c, In c cs -> cluster_id c < 65536) ->
  scan_clusters fd cs w = (Ok report, w') ->
  ascending_keys_of 4 report (fun i => In i (List.map cluster_id cs)).
Proof.
  intros Hb H. apply scan_clusters_scans in H.
  destruct H as (scans & _ & Hm & ->).
  set (d := dict_of_items pystr_eqb (List.map cluster_item scans)).
  assert (Hn : NoDup (dict_keys d))
    by (apply (dict_set_all_NoDup pystr_eqb pystr_eqb_eq); constructor).
  assert (Hk : forall k, In k (dict_keys d)
                         <-> In k (List.map (format_0x 4)
                                            (List.map cluster_id cs))).
  { intro k. unfold d, dict_of_items.
    change (fold_left _ ?items []) with (dict_set_all pystr_eqb items []).
    rewrite (dict_set_all_keys pystr_eqb pystr_eqb_eq), cluster_items_keys, Hm.
    simpl. tauto. }
  assert (Hf : formatted 4 (dict_keys d)).
  { intros k Hin. apply Hk in Hin. apply in_map_iff in Hin.
    destruct Hin as (i & <- & Hi). apply in_map_iff in Hi.
    destruct Hi as (c & <- & Hc). exists (cluster_id c).
    split; [exact (Hb c Hc) | reflexivity]. }
  destruct (@sorted_items_ids 4 d ltac:(lia) Hn Hf) as (ids & H1 & H2 & H3).
  exists ids. split; [exact H1|]. split; [exact H2|].
  intro i. rewrite H3, Hk. split.
  - intro Hin. apply in_map_iff in Hin. destruct Hin as (j & E & Hj).
    apply format_0x_inj in E. now subst.
  - intro Hin. now apply in_map.
Qed.

(** With distinct ids the mapping of a loop is the list of the records
    stored, in their order of arrival. *)
Lemma accumulate_distinct {R K} (key : R -> K) entry eqb
      (eqb_eq : forall a b, eqb a b = true <-> a = b) (recs : list R) :
  NoDup (List.map key recs) ->
  accumulate key entry eqb recs [] = List.map (fun r => (key r, entry r)) recs.
Proof.
  intro Hn. unfold accumulate.
  change (dict_set_all eqb ?items []) with (dict_of_items eqb items).
  apply (dict_of_items_NoDup eqb eqb_eq). now rewrite map_map.
Qed.

Lemma accumulate_any_order {R K} (key : R -> K) entry eqb
      (eqb_eq : forall a b, eqb a b = true <-> a = b) (recs recs' : list R) :
  NoDup (List.map key recs) -> Permutation recs recs' ->
  NoDup (dict_keys (accumulate key entry eqb recs []))
  /\ Permutation (accumulate key entry eqb recs [])
                 (accumulate key entry eqb recs' []).
Proof.
  intros Hn Hp.
  assert (Hn' : NoDup (List.map key recs'))
    by (eapply Permutation_NoDup; [|exact Hn]; now apply Permutation_map).
  rewrite !(accumulate_distinct _ _ _ eqb_eq) by assumption. split.
  - unfold dict_keys. now rewrite map_map.
  - now apply Permutation_map.
Qed.

(** The command map of a discovery that goes to its end is the same for
    any order in which the ids arrive. *)
Lemma sorted_report_any_order (entry : N -> sdict) (recs recs' : list N) :
  NoDup recs -> Forall (fun i => i < 256) recs -> Permutation recs recs' ->
  sorted_report (accumulate (format_0x 2) entry pystr_eqb recs [])
  = sorted_report (accumulate (format_0x 2) entry pystr_eqb recs' []).
Proof.
  intros Hn Hb Hp.
  assert (Hk : NoDup (List.map (format_0x 2) recs))
    by (apply NoDup_map_injective; [apply format_0x_inj | exact Hn]).
  destruct (accumulate_any_order (format_0x 2) entry pystr_eqb pystr_eqb_eq
                                 Hk Hp) as (Hd & Hperm).
  unfold sorted_report.
  apply (@sorted_items_any_order 2); [lia | | | now apply Permutation_map].
  - unfold dict_keys in *. now rewrite map_map.
  - unfold dict_keys. rewrite map_map. cbn [fst].
    rewrite (accumulate_distinct _ _ _ pystr_eqb_eq) by exact Hk.
    rewrite map_map. cbn [fst]. intros k Hin.
    apply in_map_iff in Hin. destruct Hin as (i & <- & Hi).
    exists i. split; [|reflexivity].
    exact (proj1 (Forall_forall _ _) Hb i Hi).
Qed.

(** C4: the maps of a report have their keys in ascending order of the
    ids, and these are the keys of what was discovered: the attribute map
    has a key for each id the discovery has stored and no other, with the
    record the Value Reader left for it; a command map (command ids of one
    byte) a key for each key the discovery has stored, with its entry; the
    report of a cluster holds these three maps; and a cluster map of an
    endpoint (cluster ids of two bytes) has a key for each cluster of its
    side.  A map is the same for any order in which its records arrive:
    two discoveries that go to their end on the same records, of distinct
    ids, in any order, give the same map, and so do two mappings with the
    same items. *)
Theorem report_maps_ascending fd :
  (forall cluster mfr w report w',
      discover_attributes_extended fd cluster mfr w = (Ok report, w') ->
      exists discovered w1 result,
        discover_attribute_pages fd cluster mfr w = (Ok discovered, w1)
        /\ read_attribute_values cluster discovered w1 = (Ok result, w')
        /\ ascending_keys_of 4 report (fun i => In i (dict_keys discovered))
        /\ forall i e,
            dict_get N.eqb i result = Some e ->
            sget (format_0x 4 i) report = Some (PDict e))
  /\ (forall cluster is_server mfr w report w',
         ids_below 256 (received_tape w) ->
         discover_commands_received cluster is_server mfr w = (Ok report, w') ->
         exists result,
           discover_received_pages cluster mfr w = (Ok result, w')
           /\ ascending_keys_of 2 report
                                (fun i => In (format_0x 2 i) (dict_keys result))
           /\ forall k e,
               dict_get pystr_eqb k result = Some e ->
               sget k report = Some (PDict e))
  /\ (forall cluster is_server mfr w report w',
         ids_below 256 (generated_tape w) ->
         discover_commands_generated cluster is_server mfr w = (Ok report, w') ->
         exists result,
           discover_generated_pages cluster mfr w = (Ok result, w')
           /\ ascending_keys_of 2 report
                                (fun i => In (format_0x 2 i) (dict_keys result))
           /\ forall k e,
               dict_get pystr_eqb k result = Some e ->
               sget k report = Some (PDict e))
  /\ (forall cluster is_server w d w',
         scan_cluster fd cluster is_server w = (Ok d, w') ->
         exists attrs received generated w1 w2,
           discover_attributes_extended fd cluster None w = (Ok attrs, w1)
           /\ discover_commands_received cluster is_server None w1
              = (Ok received, w2)
           /\ discover_commands_generated cluster is_server None w2
              = (Ok generated, w')
           /\ sget s{"attributes"} d = Some (PDict attrs)
           /\ sget (if is_server then s{"commands_received"}
                    else s{"commands_generated"}) d = Some (PDict received)
           /\ sget (if is_server then s{"commands_generated"}
                    else s{"commands_received"}) d = Some (PDict generated))
  /\ (forall ep w report w',
         (forall c, In c (in_clusters ep ++ out_clusters ep) ->
                    cluster_id c < 65536) ->
         scan_endpoint fd ep w = (Ok report, w') ->
         exists ins outs,
           report = [ (s{"in_clusters"}, PDict ins);
                      (s{"out_clusters"}, PDict outs) ]
           /\ ascending_keys_of 4 ins
                (fun i => In i (List.map cluster_id (in_clusters ep)))
           /\ ascending_keys_of 4 outs
                (fun i => In i (List.map cluster_id (out_clusters ep))))
  /\ (forall cluster mfr pages final pages' final' w w2,
         let recs := concat pages ++ records_of final in
         let recs' := concat pages' ++ records_of final' in
         attr_tape w = complete_tape pages final ->
         attr_tape w2 = complete_tape pages' final' ->
         forallb (type_named fd) recs = true ->
         NoDup (List.map attrid recs) ->
         Permutation recs recs' ->
         exists result result' w1 w1',
           discover_attribute_pages fd cluster mfr w = (Ok result, w1)
           /\ discover_attribute_pages fd cluster mfr w2 = (Ok result', w1')
           /\ attributes_report result = attributes_report result')
  /\ (forall cluster is_server mfr pages final pages' final' w w2,
         let ids := concat pages ++ records_of final in
         let ids' := concat pages' ++ records_of final' in
         NoDup ids -> Forall (fun i => i < 256) ids -> Permutation ids ids' ->
         (received_tape w = complete_tape pages final ->
          received_tape w2 = complete_tape pages' final' ->
          exists report,
            fst (discover_commands_received cluster is_server mfr w)
            = Ok report
            /\ fst (discover_commands_received cluster is_server mfr w2)
               = Ok report)
         /\ (generated_tape w = complete_tape pages final ->
             generated_tape w2 = complete_tape pages' final' ->
             exists report,
               fst (discover_commands_generated cluster is_server mfr w)
               = Ok report
               /\ fst (discover_commands_generated cluster is_server mfr w2)
                  = Ok report))
  /\ (forall result result',
         NoDup (dict_keys result) -> Permutation result result' ->
         attributes_report result = attributes_report result')
  /\ (forall result result' : dict pystr sdict,
         NoDup (dict_keys result) -> formatted 2 (dict_keys result) ->
         Permutation result result' ->
         sorted_report result = sorted_report result')
  /\ (forall clusters clusters' : sdict,
         NoDup (dict_keys clusters) -> formatted 4 (dict_keys clusters) ->
         Permutation clusters clusters' ->
         sorted_items clusters = sorted_items clusters').
Proof.
  split; [intros; eapply attribute_map_of_discovered; eassumption|].
  split; [intros; eapply received_map_of_result; eassumption|].
  split; [intros; eapply generated_map_of_result; eassumption|].
  split; [intros; eapply scan_cluster_maps; eassumption|].
  split; [|split; [|split; [|split;
    [intros; now apply attributes_report_any_order|split]]]].
  - intros ep w report w' Hb. unfold scan_endpoint, bind.
    destruct (scan_clusters fd (in_clusters ep) w) as [[ins|e|] w1] eqn:Ei;
      try discriminate.
    destruct (scan_clusters fd (out_clusters ep) w1) as [[outs|e|] w2] eqn:Eo;
      try discriminate.
    cbn [ret]. intros [= <- _]. exists ins, outs.
    split; [reflexivity|]. split.
    + eapply scan_clusters_ids; [|exact Ei].
      intros c Hc. apply Hb, in_or_app. now left.
    + eapply scan_clusters_ids; [|exact Eo].
      intros c Hc. apply Hb, in_or_app. now right.
  - intros cluster mfr pages final pages' final' w w2 recs recs'
           Ht Ht2 Hnamed Hn Hp.
    assert (Hnamed' : forallb (type_named fd) recs' = true).
    { apply forallb_forall. intros r Hr.
      apply (proj1 (forallb_forall _ _) Hnamed).
      eapply Permutation_in; [symmetry; exact Hp | exact Hr]. }
    destruct (@attribute_pages_complete fd cluster mfr pages final w Ht Hnamed)
      as (w1 & H1 & _).
    destruct (@attribute_pages_complete fd cluster mfr pages' final' w2 Ht2
                                        Hnamed') as (w1' & H2 & _).
    eexists; eexists; exists w1, w1'.
    split; [exact H1|]. split; [exact H2|].
    destruct (accumulate_any_order attrid (entry_of (attr_entry fd cluster))
                                   N.eqb N.eqb_eq Hn Hp) as (Hd & Hperm).
    now apply attributes_report_any_order.
  - intros cluster is_server mfr pages final pages' final' w w2 ids ids'
           Hn Hb Hp. split.
    + intros Ht Ht2.
      destruct (@received_pages_complete cluster mfr pages final w Ht)
        as (w1 & H1 & _).
      destruct (@received_pages_complete cluster mfr pages' final' w2 Ht2)
        as (w1' & H2 & _).
      eexists. unfold discover_commands_received, bind. rewrite H1, H2.
      cbn [ret fst]. split; [reflexivity|]. f_equal. symmetry.
      now apply sorted_report_any_order.
    + intros Ht Ht2.
      destruct (@generated_pages_complete cluster mfr pages final w Ht)
        as (w1 & H1 & _).
      destruct (@generated_pages_complete cluster mfr pages' final' w2 Ht2)
        as (w1' & H2 & _).
      eexists. unfold discover_commands_generated, bind. rewrite H1, H2.
      cbn [ret fst]. split; [reflexivity|]. f_equal. symmetry.
      now apply sorted_report_any_order.
  - intros result result' Hn Hf Hp. unfold sorted_report.
    apply (@sorted_items_any_order 2); [lia | | | now apply Permutation_map];
      unfold dict_keys in *; rewrite map_map; assumption.
  - intros clusters clusters' Hn Hf Hp.
    now apply (@sorted_items_any_order 4); [lia | | |].
Qed.

(** An endpoint with the on/off cluster before the basic cluster on its
    input side and the on/off cluster on its output side, and a radio on
    which the attributes 5 and 4 of the basic cluster arrive in that order,
    on two pages, and the commands 1 and 0 of the on/off cluster likewise. *)
Definition sample_endpoint : Endpoint :=
  MkEndpoint (PStr s{"lumi.plug"}) (PStr s{"LUMI"}) 81 260
             [Sample.on_off; Sample.basic] [Sample.on_off].

Definition sample_scan : World :=
  MkWorld
    [ Returns (true, Records [AttrRec 0 16 1]);
      more [AttrRec 5 66 1]; Returns (true, Records [AttrRec 4 66 1]);
      Returns (true, Records []) ]
    [ more [1]; Returns (true, Records [0]);
      Returns (true, Records []); Returns (true, Records []) ]
    [ Returns (true, Records []); Returns (true, Records []);
      Returns (true, Records []) ]
    [ Returns ([(0, PBool true)], []);
      Returns ([(5, PBytes [x6c; x75; x6d; x69; x00])], [(4, 134)]) ]
    [].

(** The cluster map of the input side has the keys 0x0000, 0x0006, in
    that order, and the attribute map of the basic cluster, scanned on the
    rest of that radio, the keys 0x0004, 0x0005; the commands 2, 1, 0 give
    the keys 0x00, 0x01, 0x02, and the same map as the commands 0, 1, 2. *)
Lemma report_maps_ascending_witness :
  let basic_scan :=
    MkWorld (skipn 1 (attr_tape sample_scan)) [] []
            (skipn 1 (read_tape sample_scan)) [] in
  (forall c, In c (in_clusters sample_endpoint ++ out_clusters sample_endpoint) ->
             cluster_id c < 65536)
  /\ (exists report w',
         scan_endpoint Sample.foundation sample_endpoint sample_scan
         = (Ok report, w')
         /\ option_map (fun v => match v with PDict d => dict_keys d | _ => [] end)
                       (sget s{"in_clusters"} report)
            = Some [s{"0x0000"}; s{"0x0006"}]
         /\ exists ins outs,
             report = [ (s{"in_clusters"}, PDict ins);
                        (s{"out_clusters"}, PDict outs) ]
             /\ ascending_keys_of 4 ins
                  (fun i => In i (List.map cluster_id
                                           (in_clusters sample_endpoint)))
             /\ ascending_keys_of 4 outs
                  (fun i => In i (List.map cluster_id
                                           (out_clusters sample_endpoint))))
  /\ (exists report w',
         discover_attributes_extended Sample.foundation Sample.basic None
                                      basic_scan = (Ok report, w')
         /\ dict_keys report = [s{"0x0004"}; s{"0x0005"}]
         /\ exists discovered w1 result,
             discover_attribute_pages Sample.foundation Sample.basic None
                                      basic_scan = (Ok discovered, w1)
             /\ read_attribute_values Sample.basic discovered w1
                = (Ok result, w')
             /\ ascending_keys_of 4 report
                                  (fun i => In i (dict_keys discovered))
             /\ forall i e,
                 dict_get N.eqb i result = Some e ->
                 sget (format_0x 4 i) report = Some (PDict e))
  /\ (let w := MkWorld [] [more [2; 1]; Returns (true, Records [0])] [] [] [] in
      let w2 := MkWorld [] [more [0]; Returns (true, Records [1; 2])] [] [] [] in
      NoDup [2; 1; 0]
      /\ Forall (fun i => i < 256) [2; 1; 0]
      /\ Permutation [2; 1; 0] [0; 1; 2]
      /\ dict_keys (match fst (discover_commands_received Sample.on_off true
                                                          None w) with
                    | Ok report => report
                    | _ => []
                    end)
         = [s{"0x00"}; s{"0x01"}; s{"0x02"}]
      /\ exists report,
          fst (discover_commands_received Sample.on_off true None w)
          = Ok report
          /\ fst (discover_commands_received Sample.on_off true None w2)
             = Ok report).
Proof.
  intro basic_scan.
  assert (Hb : forall c,
             In c (in_clusters sample_endpoint ++ out_clusters sample_endpoint) ->
             cluster_id c < 65536).
  { intros c Hc. repeat (destruct Hc as [<-|Hc]; [reflexivity|]). destruct Hc. }
  split; [exact Hb|]. split; [|split].
  - set (out := scan_endpoint Sample.foundation sample_endpoint sample_scan).
    assert (E : out = (Ok (match fst out with Ok r => r | _ => [] end), snd out))
      by (vm_compute; reflexivity).
    exists (match fst out with Ok r => r | _ => [] end), (snd out).
    split; [exact E|]. split; [vm_compute; reflexivity|].
    exact (proj1 (proj2 (proj2 (proj2 (proj2
             (report_maps_ascending Sample.foundation)))))
             sample_endpoint sample_scan _ _ Hb E).
  - set (out := discover_attributes_extended Sample.foundation Sample.basic
                                             None basic_scan).
    assert (E : out = (Ok (match fst out with Ok r => r | _ => [] end), snd out))
      by (vm_compute; reflexivity).
    exists (match fst out with Ok r => r | _ => [] end), (snd out).
    split; [exact E|]. split; [vm_compute; reflexivity|].
    exact (proj1 (report_maps_ascending Sample.foundation)
                 Sample.basic None basic_scan _ _ E).
  - intros w w2.
    assert (Hn : NoDup [2; 1; 0]).
    { repeat constructor; cbn [In]; intro H;
        repeat (destruct H as [H|H]; [discriminate H|]); exact H. }
    assert (Hl : Forall (fun i => i < 256) [2; 1; 0])
      by (repeat constructor).
    assert (Hp : Permutation [2; 1; 0] [0; 1; 2]).
    { apply Permutation_trans with (l' := [1; 2; 0]); [apply perm_swap|].
      apply Permutation_trans with (l' := [1; 0; 2]);
        [apply perm_skip, perm_swap | apply perm_swap]. }
    split; [exact Hn|]. split; [exact Hl|]. split; [exact Hp|].
    split; [vm_compute; reflexivity|].
    exact (proj1 (proj1 (proj2 (proj2 (proj2 (proj2 (proj2 (proj2
             (report_maps_ascending Sample.foundation)))))))
             Sample.on_off true None [[2; 1]] (Records [0])
             [[0]] (Records [1; 2]) w w2 Hn Hl Hp)
             eq_refl eq_refl).
Defined.

(* ------------------------------------------------------------------ *)
(** ** The role of the clusters of an endpoint *)

(** The keys of a cluster report, in the order the server role gives. *)
Definition server_keys : list pystr :=
  [ s{"cluster_id"}; s{"name"}; s{"attributes"};
    s{"commands_received"}; s{"commands_generated"} ].

Lemma scan_cluster_keys fd cluster is_server w d w' :
  scan_cluster fd cluster is_server w = (Ok d, w') ->
  dict_keys d
  = if is_server then server_keys
    else [ s{"cluster_id"}; s{"name"}; s{"attributes"};
           s{"commands_generated"}; s{"commands_received"} ].
Proof.
  unfold scan_cluster. destruct is_server; unfold bind;
    destruct (discover_attributes_extended fd cluster None w) as [[a|e|] w1];
    try discriminate;
    destruct (discover_commands_received cluster _ None w1) as [[r|e|] w2];
    try discriminate;
    destruct (discover_commands_generated cluster _ None w2) as [[g|e|] w3];
    try discriminate;
    intros [= <- _]; reflexivity.
Qed.

(** A cluster map holds the reports of some scans: its items are items of
    these scans, and for each cluster scanned it has, under the id of the
    cluster written with four hex digits, the report of the last scan of a
    cluster with that id. *)
Definition holds_reports (scans : list (Cluster * sdict)) (m : sdict) : Prop :=
  (forall k v,
      In (k, v) m ->
      exists c d,
        In (c, d) scans /\ k = format_0x 4 (cluster_id c) /\ v = PDict d)
  /\ (forall c d,
         In (c, d) scans ->
         exists c' d',
           find (fun cd => cluster_id (fst cd) =? cluster_id c) (rev scans)
           = Some (c', d')
           /\ sget (format_0x 4 (cluster_id c)) m = Some (PDict d')).

Lemma server_scans_In fd : forall cs w scans w' c d,
    server_scans fd cs w = (Ok scans, w') -> In (c, d) scans ->
    exists w1 w2, scan_cluster fd c true w1 = (Ok d, w2).
Proof.
  induction cs as [|c0 cs IH]; intros w scans w' c d H Hin.
  - simpl in H. injection H as <- _. destruct Hin.
  - cbn [server_scans] in H. unfold bind at 1 in H.
    destruct (scan_cluster fd c0 true w) as [[d0|e|] w1] eqn:E;
      try discriminate.
    unfold bind at 1 in H.
    destruct (server_scans fd cs w1) as [[rest|e|] w2] eqn:Er;
      try discriminate.
    cbn [ret] in H. injection H as <- <-.
    destruct Hin as [[= <- <-]|Hin]; [now exists w, w1|].
    eapply IH; eassumption.
Qed.

Lemma find_cluster_items k (scans : list (Cluster * sdict)) :
  find (fun kv : pystr * pyval => pystr_eqb (fst kv) (format_0x 4 k))
       (List.map cluster_item scans)
  = option_map cluster_item
               (find (fun cd => cluster_id (fst cd) =? k) scans).
Proof.
  induction scans as [|[c d] scans IH]; [reflexivity|].
  cbn [List.map find cluster_item fst snd].
  destruct (N.eqb_spec (cluster_id c) k) as [E|E].
  - rewrite E, pystr_eqb_refl. reflexivity.
  - assert (Hx : pystr_eqb (format_0x 4 (cluster_id c)) (format_0x 4 k) = false)
      by (apply pystr_eqb_neq; intro H; apply format_0x_inj in H;
          contradiction).
    rewrite Hx. exact IH.
Qed.

Lemma scan_clusters_holds fd cs w report w' :
  scan_clusters fd cs w = (Ok report, w') ->
  exists scans,
    server_scans fd cs w = (Ok scans, w')
    /\ List.map fst scans = cs
    /\ holds_reports scans report.
Proof.
  intro H. apply scan_clusters_scans in H.
  destruct H as (scans & Hs & Hm & ->).
  exists scans. split; [exact Hs|]. split; [exact Hm|].
  set (d := dict_of_items pystr_eqb (List.map cluster_item scans)).
  assert (Hn : NoDup (dict_keys d))
    by (apply (dict_set_all_NoDup pystr_eqb pystr_eqb_eq); constructor).
  split.
  - intros k v Hin. apply sorted_items_In, dict_of_items_In in Hin.
    apply in_map_iff in Hin. destruct Hin as ([c d0] & [= <- <-] & Hcd).
    now exists c, d0.
  - intros c d0 Hin. rewrite (@sorted_items_get d _ Hn).
    unfold d, sget, dict_of_items.
    change (fold_left _ ?items []) with (dict_set_all pystr_eqb items []).
    rewrite (dict_set_all_get pystr_eqb pystr_eqb_eq).
    rewrite <- map_rev.
    pose proof (find_cluster_items (cluster_id c) (rev scans)) as Hf.
    cbv beta in Hf.
    rewrite Hf.
    destruct (find (fun cd => cluster_id (fst cd) =? cluster_id c) (rev scans))
      as [[c' d']|] eqn:F.
    + exists c', d'. split; reflexivity.
    + exfalso. apply in_rev in Hin. pose proof (find_none _ _ F _ Hin) as Hx.
      cbn [fst] in Hx. now rewrite N.eqb_refl in Hx.
Qed.

(** C9: the scan of an endpoint is the scan of each of its input clusters,
    then of each of its output clusters, one after the other in the server
    role: the report has the two cluster maps, each holds the reports of
    these scans, one for every cluster of its side under the id of the
    cluster, and every such report, of an output cluster as of an input
    cluster, has the keys in the order that role gives,
    [commands_received] before [commands_generated], and is no result of a
    scan in the client role. *)
Theorem endpoint_clusters_scanned_as_server fd ep w report w' :
  scan_endpoint fd ep w = (Ok report, w') ->
  exists ins outs scans_in scans_out w1,
    report = [ (s{"in_clusters"}, PDict ins); (s{"out_clusters"}, PDict outs) ]
    /\ server_scans fd (in_clusters ep) w = (Ok scans_in, w1)
    /\ server_scans fd (out_clusters ep) w1 = (Ok scans_out, w')
    /\ List.map fst scans_in = in_clusters ep
    /\ List.map fst scans_out = out_clusters ep
    /\ holds_reports scans_in ins
    /\ holds_reports scans_out outs
    /\ (forall c d,
           In (c, d) (scans_in ++ scans_out) ->
           dict_keys d = server_keys
           /\ (exists w2 w3, scan_cluster fd c true w2 = (Ok d, w3))
           /\ forall cluster w2 w3,
               scan_cluster fd cluster false w2 <> (Ok d, w3)).
Proof.
  unfold scan_endpoint, bind.
  destruct (scan_clusters fd (in_clusters ep) w) as [[ins|e|] w1] eqn:Ei;
    try discriminate.
  destruct (scan_clusters fd (out_clusters ep) w1) as [[outs|e|] w2] eqn:Eo;
    try discriminate.
  cbn [ret]. intros [= <- <-].
  destruct (scan_clusters_holds _ _ _ Ei) as (scans_in & Hsi & Hmi & Hhi).
  destruct (scan_clusters_holds _ _ _ Eo) as (scans_out & Hso & Hmo & Hho).
  exists ins, outs, scans_in, scans_out, w1.
  split; [reflexivity|]. split; [exact Hsi|]. split; [exact Hso|].
  split; [exact Hmi|]. split; [exact Hmo|].
  split; [exact Hhi|]. split; [exact Hho|].
  intros c d Hin.
  assert (Hs : exists w3 w4, scan_cluster fd c true w3 = (Ok d, w4)).
  { apply in_app_or in Hin. destruct Hin as [Hin|Hin].
    - eapply server_scans_In; [exact Hsi | exact Hin].
    - eapply server_scans_In; [exact Hso | exact Hin]. }
  destruct Hs as (w3 & w4 & Hs).
  pose proof (scan_cluster_keys _ _ _ _ Hs) as Hk. cbv iota in Hk.
  split; [exact Hk|]. split; [now exists w3, w4|].
  intros cluster w5 w6 Hc. apply scan_cluster_keys in Hc.
  rewrite Hk in Hc. vm_compute in Hc. discriminate Hc.
Qed.

(** The sample endpoint on the sample radio: the report of the on/off
    cluster of the output side is in the map of that side under 0x0006,
    with the keys of the server role. *)
Lemma endpoint_clusters_scanned_as_server_witness :
  exists report w',
    scan_endpoint Sample.foundation sample_endpoint sample_scan
    = (Ok report, w')
    /\ option_map (fun v => match v with PDict d => dict_keys d | _ => [] end)
                  (sget s{"out_clusters"} report)
       = Some [s{"0x0006"}]
    /\ exists ins outs scans_in scans_out w1,
        report = [ (s{"in_clusters"}, PDict ins);
                   (s{"out_clusters"}, PDict outs) ]
        /\ server_scans Sample.foundation (in_clusters sample_endpoint)
                        sample_scan = (Ok scans_in, w1)
        /\ server_scans Sample.foundation (out_clusters sample_endpoint) w1
           = (Ok scans_out, w')
        /\ List.map fst scans_in = [Sample.on_off; Sample.basic]
        /\ List.map fst scans_out = [Sample.on_off]
        /\ holds_reports scans_in ins
        /\ holds_reports scans_out outs
        /\ (forall c d,
               In (c, d) (scans_in ++ scans_out) ->
               dict_keys d = server_keys
               /\ (exists w2 w3,
                      scan_cluster Sample.foundation c true w2 = (Ok d, w3))
               /\ forall cluster w2 w3,
                   scan_cluster Sample.foundation cluster false w2
                   <> (Ok d, w3)).
Proof.
  set (out := scan_endpoint Sample.foundation sample_endpoint sample_scan).
  assert (E : out = (Ok (match fst out with Ok r => r | _ => [] end), snd out))
    by (vm_compute; reflexivity).
  exists (match fst out with Ok r => r | _ => [] end), (snd out).
  split; [exact E|]. split; [vm_compute; reflexivity|].
  exact (endpoint_clusters_scanned_as_server
           Sample.foundation sample_endpoint sample_scan E).
Defined.

(* ------------------------------------------------------------------ *)
(** ** The fuel of the loops *)

(** The fuel the functions give their loops is never what stops them: a
    loop is stuck only once its tape is used up. *)
Section PaginatorFuel.
Variables R K : Type.
Variable request : N -> M (bool * response R).
Variable tape : World -> list (outcome (bool * response R)).
Hypothesis request_next : forall c w o t,
    tape w = o :: t -> exists w', request c w = (answer o, w') /\ tape w' = t.
Hypothesis request_stuck : forall c w,
    tape w = [] -> exists w', request c w = (Stuck, w') /\ tape w' = [].
Variable rec_id : R -> N.
Variable key : R -> K.
Variable entry : R -> exn + sdict.
Variable eqb : K -> K -> bool.

Lemma loop_stuck fuel : forall cursor result w w',
    (length (tape w) < fuel)%nat ->
    while_not_done request rec_id key entry eqb fuel cursor result w
    = (Stuck, w') ->
    tape w' = [].
Proof.
  induction fuel as [|fuel IH]; intros cursor result w w' Hl H; [lia|].
  rewrite loop_step in H. destruct (tape w) as [|o t] eqn:Et.
  - destruct (request_stuck cursor Et) as (w1 & Hr & Ht1).
    rewrite Hr in H. now injection H as <-.
  - destruct (request_next cursor Et) as (w1 & Hr & Ht1).
    rewrite Hr in H. destruct o as [e|[done [code|recs]]]; cbn [answer] in H.
    + destruct e; discriminate.
    + discriminate.
    + destruct (for_records rec_id key entry eqb recs (cursor, result))
        as [e|st]; [discriminate|].
      destruct done; [discriminate|].
      apply IH in H; [exact H|]. rewrite Ht1. simpl in Hl. lia.
Qed.
End PaginatorFuel.

Lemma attribute_pages_stuck fd cluster mfr w w' :
  discover_attribute_pages fd cluster mfr w = (Stuck, w') -> attr_tape w' = [].
Proof.
  unfold discover_attribute_pages.
  apply (loop_stuck
           (fun c => call_discover_attributes_extended (cluster_id cluster) c mfr)
           attr_tape); [| |lia].
  - intros c w0 o t H. unfold call_discover_attributes_extended.
    cbn [issue attr_tape]. rewrite H. eexists. split; reflexivity.
  - intros c w0 H. unfold call_discover_attributes_extended.
    cbn [issue attr_tape]. rewrite H. eexists. split; [reflexivity | exact H].
Qed.

Lemma received_pages_stuck cluster mfr w w' :
  discover_received_pages cluster mfr w = (Stuck, w') -> received_tape w' = [].
Proof.
  unfold discover_received_pages.
  apply (loop_stuck
           (fun c => call_discover_commands_received (cluster_id cluster) c mfr)
           received_tape); [| |lia].
  - intros c w0 o t H. unfold call_discover_commands_received.
    cbn [issue received_tape]. rewrite H. eexists. split; reflexivity.
  - intros c w0 H. unfold call_discover_commands_received.
    cbn [issue received_tape]. rewrite H. eexists. split; [reflexivity | exact H].
Qed.

Lemma generated_pages_stuck cluster mfr w w' :
  discover_generated_pages cluster mfr w = (Stuck, w') -> generated_tape w' = [].
Proof.
  unfold discover_generated_pages.
  apply (loop_stuck
           (fun c => call_discover_commands_generated (cluster_id cluster) c mfr)
           generated_tape); [| |lia].
  - intros c w0 o t H. unfold call_discover_commands_generated.
    cbn [issue generated_tape]. rewrite H. eexists. split; reflexivity.
  - intros c w0 H. unfold call_discover_commands_generated.
    cbn [issue generated_tape]. rewrite H. eexists. split; [reflexivity | exact H].
Qed.

Lemma store_values_world success : forall result w,
    snd (store_values result success w) = w
    /\ fst (store_values result success w) <> Stuck.
Proof.
  unfold store_values.
  induction success as [|[k v] success IH]; intros result w.
  - split; [reflexivity | discriminate].
  - cbn [for_each]. unfold bind.
    destruct (dict_get N.eqb k result) as [e|]; cbn [ret raise].
    + apply IH.
    + split; [reflexivity | discriminate].
Qed.

Lemma try_read_chunk_stuck cluster chunk result w w' :
  try_read_chunk cluster chunk result w = (Stuck, w') -> read_tape w' = [].
Proof.
  unfold try_read_chunk, bind, read_attr. cbn [issue read_tape].
  destruct (read_tape w) as [|o t] eqn:Et.
  - intros [= <-]. exact Et.
  - destruct o as [e|rsp]; cbn [answer].
    + destruct e; discriminate.
    + match goal with
      | |- context [store_values result (fst rsp) ?w1] =>
          destruct (store_values_world (fst rsp) result w1) as (_ & Hs);
          destruct (store_values result (fst rsp) w1) as [[r|e|] w2]
      end.
      * discriminate.
      * destruct e; discriminate.
      * now contradiction Hs.
Qed.

Lemma read_chunks_stuck cluster fuel : forall ids result w w',
    (length ids <= fuel)%nat ->
    read_chunks fuel cluster (firstn 4 ids) (skipn 4 ids) result w = (Stuck, w') ->
    read_tape w' = [].
Proof.
  induction fuel as [|fuel IH]; intros ids result w w' Hl H.
  - destruct ids; [discriminate | simpl in Hl; lia].
  - destruct ids as [|a ids]; [discriminate|].
    change (firstn 4 (a :: ids)) with (a :: firstn 3 ids) in H.
    cbn [read_chunks] in H. unfold bind at 1 in H.
    destruct (try_read_chunk cluster (a :: firstn 3 ids) result w)
      as [[r|e|] w1] eqn:E; try discriminate.
    + apply IH in H; [exact H|]. now apply skipn4_length.
    + injection H as <-. now apply try_read_chunk_stuck in E.
Qed.

Lemma read_attribute_values_stuck cluster result w w' :
  read_attribute_values cluster result w = (Stuck, w') -> read_tape w' = [].
Proof.
  unfold read_attribute_values. apply read_chunks_stuck. lia.
Qed.

(* ================================================================== *)
(** * Further properties of the code *)

(** ** What the Value Reader does to the records *)

(** An entry as the Value Reader may leave it: as it was, or with a value
    under [attribute_value]. *)
Definition with_value (e e' : sdict) : Prop :=
  e' = e \/ exists v, e' = sset s{"attribute_value"} v e.

Lemma sset_sset k v1 v2 (e : sdict) : sset k v2 (sset k v1 e) = sset k v2 e.
Proof.
  unfold sset. induction e as [|[k0 v0] e IH]; simpl.
  - now rewrite pystr_eqb_refl.
  - destruct (pystr_eqb k k0) eqn:E; simpl; rewrite E; [reflexivity|].
    now rewrite IH.
Qed.

Lemma with_value_set e e' v :
  with_value e e' -> with_value e (sset s{"attribute_value"} v e').
Proof.
  intros [->|(v0 & ->)]; right; exists v; [reflexivity | apply sset_sset].
Qed.

(** The records of [result'] are those of [result], in the same order and
    under the same ids, each with at most a value more. *)
Definition same_records_with_values (result result' : dict N sdict) : Prop :=
  Forall2 (fun x y => fst x = fst y /\ with_value (snd x) (snd y))
          result result'.

Lemma same_records_refl result : same_records_with_values result result.
Proof.
  induction result as [|x result IH]; constructor; [|exact IH].
  split; [reflexivity | now left].
Qed.

Lemma same_records_set orig : forall cur a e v,
    same_records_with_values orig cur ->
    dict_get N.eqb a cur = Some e ->
    same_records_with_values
      orig (dict_set N.eqb a (sset s{"attribute_value"} v e) cur).
Proof.
  induction orig as [|[a0 e0] orig IH]; intros cur a e v H Hg;
    inversion H as [|? [a1 e1] ? cur' [Hk Hv] Hr]; subst; [discriminate|].
  cbn [fst snd] in *. subst a1. cbn [dict_get dict_set] in *.
  destruct (N.eqb a a0) eqn:E.
  - injection Hg as ->. constructor; [|exact Hr].
    split; [reflexivity | now apply with_value_set].
  - constructor; [now split | now apply IH].
Qed.

Lemma store_values_same_records orig success : forall result w result' w',
    same_records_with_values orig result ->
    store_values result success w = (Ok result', w') ->
    same_records_with_values orig result'.
Proof.
  unfold store_values.
  induction success as [|[k v] success IH]; intros result w result' w' Hs H.
  - simpl in H. now injection H as <- _.
  - cbn [for_each] in H. unfold bind at 1 in H.
    destruct (dict_get N.eqb k result) as [e|] eqn:E; [|discriminate].
    cbn [ret] in H. eapply IH; [|exact H]. now apply same_records_set.
Qed.

Lemma try_read_chunk_same_records orig cluster chunk result w result' w' :
  same_records_with_values orig result ->
  try_read_chunk cluster chunk result w = (Ok result', w') ->
  same_records_with_values orig result'.
Proof.
  intro Hs. unfold try_read_chunk, bind.
  destruct (read_attr (cluster_id cluster) chunk w) as [[rsp|e|] w1].
  - destruct (store_values result (fst rsp) w1) as [[r|e|] w2] eqn:E.
    + intros [= <- _]. eapply store_values_same_records; eassumption.
    + destruct e; intros [= <- _] || discriminate. exact Hs.
    + discriminate.
  - destruct e; intros [= <- _] || discriminate. exact Hs.
  - discriminate.
Qed.

Lemma read_chunks_same_records orig cluster fuel :
  forall chunk to_read result w result' w',
    same_records_with_values orig result ->
    read_chunks fuel cluster chunk to_read result w = (Ok result', w') ->
    same_records_with_values orig result'.
Proof.
  induction fuel as [|fuel IH]; intros chunk to_read result w result' w' Hs H;
    destruct chunk as [|a chunk]; cbn [read_chunks] in H.
  - now injection H as <- _.
  - discriminate.
  - now injection H as <- _.
  - unfold bind at 1 in H.
    destruct (try_read_chunk cluster (a :: chunk) result w) as [[r|e|] w1] eqn:E;
      try discriminate.
    eapply IH; [|exact H]. eapply try_read_chunk_same_records; eassumption.
Qed.

(** X1: whatever the batch reads answer, a Value Reader that returns has
    kept every record: the same ids in the same order, each entry as the
    discovery stored it or with [attribute_value] set. *)
Theorem value_reader_keeps_records cluster result w result' w' :
  read_attribute_values cluster result w = (Ok result', w') ->
  same_records_with_values result result'.
Proof.
  unfold read_attribute_values. apply read_chunks_same_records.
  apply same_records_refl.
Qed.

(** The five attributes of the sample, two values read, one batch lost. *)
Definition sample_result : dict N sdict :=
  accumulate attrid (entry_of (attr_entry Sample.foundation Sample.on_off))
             N.eqb
             [AttrRec 0 16 1; AttrRec 1 16 1; AttrRec 2 16 1;
              AttrRec 3 16 1; AttrRec 4 16 1] [].

Definition sample_reads : World :=
  MkWorld [] [] []
          [Returns ([(0, PBool true); (3, PInt 7)], [(1, 134)]);
           Raises DeliveryError] [].

Lemma value_reader_keeps_records_witness :
  exists result' w',
    read_attribute_values Sample.on_off sample_result sample_reads
    = (Ok result', w')
    /\ same_records_with_values sample_result result'.
Proof.
  set (out := read_attribute_values Sample.on_off sample_result sample_reads).
  assert (E : out = (Ok (match fst out with Ok r => r | _ => [] end), snd out))
    by (vm_compute; reflexivity).
  exists (match fst out with Ok r => r | _ => [] end), (snd out).
  split; [exact E|].
  exact (value_reader_keeps_records Sample.on_off sample_result sample_reads E).
Defined.

(** *** Values for attributes that were not discovered *)

Lemma store_values_missing success : forall result w,
    (exists k, In k (dict_keys success) /\ ~ In k (dict_keys result)) ->
    store_values result success w = (Raised KeyError, w).
Proof.
  unfold store_values.
  induction success as [|[k v] success IH]; intros result w (k0 & Hin & Hout).
  - destruct Hin.
  - cbn [for_each]. unfold bind at 1.
    destruct (dict_get N.eqb k result) as [e|] eqn:E; [|reflexivity].
    cbn [ret]. apply IH. exists k0.
    assert (Hk : In k (dict_keys result))
      by (apply (dict_get_In N.eqb N.eqb_eq); congruence).
    rewrite (dict_set_keys_known N.eqb N.eqb_eq _ _ _ Hk).
    split; [|exact Hout].
    destruct Hin as [<-|Hin]; [contradiction | exact Hin].
Qed.

(** X2: when the first batch read returns a value for an attribute id the
    discovery has not stored, [result[attr_id]] raises: the Value Reader
    ends in a [KeyError] after that one call. *)
Theorem value_reader_unknown_attribute cluster result w success failed later k :
  read_tape w = Returns (success, failed) :: later ->
  dict_keys result <> [] ->
  In k (dict_keys success) -> ~ In k (dict_keys result) ->
  read_attribute_values cluster result w
  = (Raised KeyError,
     MkWorld (attr_tape w) (received_tape w) (generated_tape w) later
             (calls w ++ [ReadAttributes (cluster_id cluster)
                                         (firstn 4 (dict_keys result))])).
Proof.
  intros Ht Hne Hin Hout. unfold read_attribute_values.
  destruct (dict_keys result) as [|a ids] eqn:Ek; [contradiction|].
  change (firstn 4 (a :: ids)) with (a :: firstn 3 ids).
  cbn [length read_chunks]. unfold bind at 1.
  unfold try_read_chunk, bind, read_attr. cbn [issue read_tape].
  rewrite Ht. cbn [answer fst].
  rewrite store_values_missing; [reflexivity|].
  exists k. rewrite Ek. split; assumption.
Qed.

Lemma value_reader_unknown_attribute_witness :
  let w := MkWorld [] [] [] [Returns ([(9, PInt 1)], [])] [] in
  read_tape w = Returns ([(9, PInt 1)], []) :: []
  /\ dict_keys sample_result <> []
  /\ In 9 (dict_keys [(9, PInt 1)])
  /\ ~ In 9 (dict_keys sample_result)
  /\ read_attribute_values Sample.on_off sample_result w
     = (Raised KeyError,
        MkWorld [] [] [] [] [ReadAttributes 6 [0; 1; 2; 3]]).
Proof.
  intro w.
  assert (H1 : dict_keys sample_result <> []) by discriminate.
  assert (H2 : In 9 (dict_keys [(9, PInt 1)])) by now left.
  assert (H3 : ~ In 9 (dict_keys sample_result))
    by (vm_compute; intros [H|[H|[H|[H|[H|[]]]]]]; discriminate).
  split; [reflexivity|]. split; [exact H1|]. split; [exact H2|].
  split; [exact H3|].
  exact (@value_reader_unknown_attribute Sample.on_off sample_result w
           [(9, PInt 1)] [] [] 9 eq_refl H1 H2 H3).
Defined.

(** *** Batches that fail to deliver *)

Lemma read_chunks_all_fail cluster fuel : forall ids result w n rest,
    (length ids <= fuel)%nat ->
    read_tape w = repeat (Raises DeliveryError) n ++ rest ->
    n = length (chunks_upto fuel ids) ->
    exists w',
      read_chunks fuel cluster (firstn 4 ids) (skipn 4 ids) result w
      = (Ok result, w')
      /\ read_tape w' = rest.
Proof.
  induction fuel as [|fuel IH]; intros ids result w n rest Hl Ht Hn.
  - destruct ids; [|simpl in Hl; lia]. subst n. exists w. split; [reflexivity|].
    exact Ht.
  - destruct ids as [|a ids].
    + subst n. exists w. split; [reflexivity | exact Ht].
    + cbn [chunks_upto length] in Hn. subst n. cbn [repeat app] in Ht.
      change (firstn 4 (a :: ids)) with (a :: firstn 3 ids).
      cbn [read_chunks]. unfold bind at 1.
      unfold try_read_chunk at 1, bind, read_attr. cbn [issue read_tape].
      rewrite Ht. cbn [answer].
      match goal with
      | |- context [read_chunks fuel cluster _ _ result ?w1] =>
          destruct (IH (skipn 4 (a :: ids)) result w1
                       (length (chunks_upto fuel (skipn 4 (a :: ids)))) rest)
            as (w' & Hr & Ht');
            [now apply skipn4_length | reflexivity | reflexivity |]
      end.
      exists w'. split; [exact Hr | exact Ht'].
Qed.

(** X3: when every batch read fails to deliver, the Value Reader still
    goes through all ceil(N/4) batches and returns the records exactly as
    the discovery stored them, none with a value. *)
Theorem value_reader_all_batches_fail cluster result w rest :
  read_tape w
  = repeat (Raises DeliveryError) (quarters (length (dict_keys result))) ++ rest ->
  exists w',
    read_attribute_values cluster result w = (Ok result, w')
    /\ read_tape w' = rest.
Proof.
  intro Ht. unfold read_attribute_values.
  eapply read_chunks_all_fail; [lia | exact Ht |].
  symmetry. now apply chunks_upto_length.
Qed.

Lemma value_reader_all_batches_fail_witness :
  let w := MkWorld [] [] [] [Raises DeliveryError; Raises DeliveryError;
                             Returns ([], [])] [] in
  read_tape w
  = repeat (Raises DeliveryError) (quarters (length (dict_keys sample_result)))
    ++ [Returns ([], [])]
  /\ exists w',
      read_attribute_values Sample.on_off sample_result w
      = (Ok sample_result, w')
      /\ read_tape w' = [Returns ([], [])].
Proof.
  intro w. split; [reflexivity|].
  exact (@value_reader_all_batches_fail Sample.on_off sample_result w
           [Returns ([], [])] eq_refl).
Defined.

(** *** What a batch that is read stores *)

(** X4: a batch whose values are all for stored attributes, each id once,
    is merged without touching the transport: afterwards the entry of an
    id of the batch is its former entry with [attribute_value] set to the
    converted value, and every other entry is as before. *)
Theorem store_values_merges success : forall result w,
    NoDup (dict_keys success) ->
    (forall k, In k (dict_keys success) -> In k (dict_keys result)) ->
    exists result',
      store_values result success w = (Ok result', w)
      /\ forall a,
          dict_get N.eqb a result'
          = match dict_get N.eqb a success, dict_get N.eqb a result with
            | Some v, Some e =>
                Some (sset s{"attribute_value"} (convert_value v) e)
            | _, r => r
            end.
Proof.
  unfold store_values.
  induction success as [|[k v] success IH]; intros result w Hn Hk.
  - exists result. split; [reflexivity|]. intro a. cbn [dict_get].
    now destruct (dict_get N.eqb a result).
  - cbn [dict_keys List.map fst] in Hn. inversion Hn as [|? ? Hnot Hn']; subst.
    cbn [for_each]. unfold bind at 1.
    assert (Hin : In k (dict_keys result)) by (apply Hk; now left).
    destruct (dict_get N.eqb k result) as [e|] eqn:E;
      [|apply (dict_get_In N.eqb N.eqb_eq) in Hin; contradiction].
    cbn [ret].
    set (result1 := dict_set N.eqb k
                      (sset s{"attribute_value"} (convert_value v) e) result).
    destruct (IH result1 w Hn') as (result' & Hs & Hg).
    { intros k0 H0. unfold result1.
      rewrite (dict_set_keys_known N.eqb N.eqb_eq _ _ _ Hin).
      apply Hk. now right. }
    exists result'. split; [exact Hs|]. intro a. rewrite Hg.
    cbn [dict_get]. destruct (N.eqb_spec a k) as [->|Hne].
    + assert (G : dict_get N.eqb k success = None).
      { destruct (dict_get N.eqb k success) eqn:G; [|reflexivity].
        exfalso. apply Hnot. apply (dict_get_In N.eqb N.eqb_eq). congruence. }
      rewrite G, E. unfold result1.
      apply (dict_get_set_same N.eqb N.eqb_eq).
    + unfold result1.
      rewrite (dict_get_set_other N.eqb N.eqb_eq) by (intro; now subst).
      reflexivity.
Qed.

Lemma store_values_merges_witness :
  NoDup (dict_keys [(0, PBytes [x6f; x6e; x00]); (3, PInt 7)])
  /\ (forall k, In k (dict_keys [(0, PBytes [x6f; x6e; x00]); (3, PInt 7)]) ->
                In k (dict_keys sample_result))
  /\ exists result',
      store_values sample_result [(0, PBytes [x6f; x6e; x00]); (3, PInt 7)]
                   Sample.idle
      = (Ok result', Sample.idle)
      /\ forall a,
          dict_get N.eqb a result'
          = match dict_get N.eqb a [(0, PBytes [x6f; x6e; x00]); (3, PInt 7)],
                  dict_get N.eqb a sample_result with
            | Some v, Some e =>
                Some (sset s{"attribute_value"} (convert_value v) e)
            | _, r => r
            end.
Proof.
  assert (H1 : NoDup (dict_keys [(0, PBytes [x6f; x6e; x00]); (3, PInt 7)])).
  { constructor; [intros [H|[]]; discriminate|].
    constructor; [intros []|constructor]. }
  assert (H2 : forall k,
             In k (dict_keys [(0, PBytes [x6f; x6e; x00]); (3, PInt 7)]) ->
             In k (dict_keys sample_result))
    by (intros k [<-|[<-|[]]]; vm_compute; tauto).
  split; [exact H1|]. split; [exact H2|].
  exact (@store_values_merges [(0, PBytes [x6f; x6e; x00]); (3, PInt 7)]
           sample_result Sample.idle H1 H2).
Defined.

(* ------------------------------------------------------------------ *)
(** ** What the discovery loops ask and let through *)

Section PaginatorCalls.
Variables R K : Type.
Variable request : N -> M (bool * response R).
Variable tape : World -> list (outcome (bool * response R)).
Variable mk_call : N -> call.
Hypothesis request_next : forall c w o t,
    tape w = o :: t ->
    exists w', request c w = (answer o, w')
               /\ tape w' = t /\ calls w' = calls w ++ [mk_call c].
Hypothesis request_stuck : forall c w,
    tape w = [] ->
    exists w', request c w = (Stuck, w') /\ calls w' = calls w ++ [mk_call c].
Variable rec_id : R -> N.
Variable key : R -> K.
Variable entry : R -> exn + sdict.
Variable eqb : K -> K -> bool.

(** All a loop adds to the log are its own requests, the first of them at
    the cursor it starts from. *)
Lemma loop_calls_starts fuel : forall cursor result w,
    exists starts,
      calls (snd (while_not_done request rec_id key entry eqb
                                 (S fuel) cursor result w))
      = calls w ++ List.map mk_call (cursor :: starts).
Proof.
  induction fuel as [|fuel IH]; intros cursor result w; rewrite loop_step;
    (destruct (tape w) as [|o t] eqn:Et;
     [ destruct (request_stuck cursor Et) as (w1 & -> & Hc);
       exists []; exact Hc
     | destruct (request_next cursor Et) as (w1 & -> & _ & Hc);
       destruct o as [e|[done [code|recs]]]; cbn [answer];
       [ exists []; destruct e; exact Hc
       | exists []; exact Hc
       | destruct (for_records rec_id key entry eqb recs (cursor, result))
           as [e|st];
         [ exists []; exact Hc
         | destruct done; [exists []; exact Hc|] ] ] ]).
  - exists []. exact Hc.
  - destruct (IH (fst st) (snd st) w1) as (starts & ->).
    eexists. rewrite Hc, <- app_assoc. reflexivity.
Qed.

(** After a page without records that does not close the discovery the
    loop asks again from where it asked before. *)
Lemma run_empty_page pages later w :
  tape w = List.map more pages ++ more [] :: later ->
  Forall (builds entry) (concat pages) ->
  exists start,
    nth_error (calls (snd (run_loop request tape rec_id key entry eqb w)))
              (length (calls w) + length pages)
    = Some (mk_call start)
    /\ nth_error (calls (snd (run_loop request tape rec_id key entry eqb w)))
                 (length (calls w) + length pages + 1)
       = Some (mk_call start).
Proof.
  intros Ht Hb. unfold run_loop. rewrite (run_fuel tape Ht). cbn [length].
  destruct (loop_pages request tape mk_call request_next rec_id key eqb
                       pages (S (S (length later))) 0 [] _ _ Ht Hb)
    as (w1 & issued & -> & Ht1 & Hc1 & Hlen).
  rewrite loop_step.
  destruct (request_next (next_cursor rec_id 0 (concat pages)) Ht1)
    as (w2 & -> & Ht2 & Hc2).
  cbn [answer more for_records fst snd].
  destruct (loop_calls_starts (length later)
              (next_cursor rec_id 0 (concat pages))
              (accumulate key (entry_of entry) eqb (concat pages) []) w2)
    as (starts & ->).
  exists (next_cursor rec_id 0 (concat pages)).
  rewrite Hc2, Hc1. cbn [List.map]. rewrite <- !app_assoc. cbn [app].
  split.
  - rewrite nth_error_app2 by lia. rewrite nth_error_app2 by lia.
    replace (length (calls w) + length pages - length (calls w)
             - length issued)%nat with 0%nat by lia.
    reflexivity.
  - rewrite nth_error_app2 by lia. rewrite nth_error_app2 by lia.
    replace (length (calls w) + length pages + 1 - length (calls w)
             - length issued)%nat with 1%nat by lia.
    reflexivity.
Qed.
End PaginatorCalls.

(** What leaves the discovery of the attributes leaves the scan of the
    cluster. *)
Lemma attributes_raise_through fd cluster mfr e w w' :
  discover_attribute_pages fd cluster mfr w = (Raised e, w') ->
  discover_attributes_extended fd cluster mfr w = (Raised e, w').
Proof.
  intro H. unfold discover_attributes_extended, bind. now rewrite H.
Qed.

Lemma scan_cluster_raises_through fd cluster is_server e w w' :
  discover_attribute_pages fd cluster None w = (Raised e, w') ->
  scan_cluster fd cluster is_server w = (Raised e, w').
Proof.
  intro H. apply attributes_raise_through in H.
  unfold scan_cluster. destruct is_server; unfold bind at 1; now rewrite H.
Qed.

(** X5: an exception other than [DeliveryError] on the request for page k
    (a timeout that outlived the retries) is not caught: it leaves each of
    the three discovery functions, and [scan_cluster] when it is met in the
    discovery of attributes, and the pages read before are lost with it;
    for the attributes, these are pages whose records have data types that
    can be named, the loop does not get past another. *)
Theorem discovery_lets_other_exceptions_through fd cluster e :
  e <> DeliveryError ->
  (forall mfr pages later w,
      attr_tape w = List.map more pages ++ Raises e :: later ->
      forallb (type_named fd) (concat pages) = true ->
      fst (discover_attributes_extended fd cluster mfr w) = Raised e)
  /\ (forall mfr pages later w is_server,
         received_tape w = List.map more pages ++ Raises e :: later ->
         fst (discover_commands_received cluster is_server mfr w) = Raised e)
  /\ (forall mfr pages later w is_server,
         generated_tape w = List.map more pages ++ Raises e :: later ->
         fst (discover_commands_generated cluster is_server mfr w) = Raised e)
  /\ (forall pages later w is_server,
         attr_tape w = List.map more pages ++ Raises e :: later ->
         forallb (type_named fd) (concat pages) = true ->
         fst (scan_cluster fd cluster is_server w) = Raised e).
Proof.
  intro He. split; [|split; [|split]].
  - intros mfr pages later w Ht Hn.
    destruct (@attribute_pages_raise fd cluster mfr pages e later w Ht He Hn)
      as (w' & H & _).
    now rewrite (@attributes_raise_through fd cluster mfr e w w' H).
  - intros mfr pages later w is_server Ht.
    destruct (@received_pages_raise cluster mfr pages e later w Ht He)
      as (w' & H & _).
    unfold discover_commands_received, bind. now rewrite H.
  - intros mfr pages later w is_server Ht.
    destruct (@generated_pages_raise cluster mfr pages e later w Ht He)
      as (w' & H & _).
    unfold discover_commands_generated, bind. now rewrite H.
  - intros pages later w is_server Ht Hn.
    destruct (@attribute_pages_raise fd cluster None pages e later w Ht He Hn)
      as (w' & H & _).
    now rewrite (@scan_cluster_raises_through fd cluster is_server e w w' H).
Qed.

(** A timeout on the second request for attributes, after a page of two. *)
Lemma discovery_lets_other_exceptions_through_witness :
  let w := MkWorld [more [AttrRec 0 16 1; AttrRec 1 16 1]; Raises TimeoutError]
                   [] [] [] [] in
  TimeoutError <> DeliveryError
  /\ attr_tape w
     = List.map more [[AttrRec 0 16 1; AttrRec 1 16 1]]
       ++ Raises TimeoutError :: []
  /\ forallb (type_named Sample.foundation)
             (concat [[AttrRec 0 16 1; AttrRec 1 16 1]]) = true
  /\ fst (discover_attributes_extended Sample.foundation Sample.on_off None w)
     = Raised TimeoutError.
Proof.
  intro w.
  assert (H : TimeoutError <> DeliveryError) by discriminate.
  split; [exact H|]. split; [reflexivity|]. split; [reflexivity|].
  exact (proj1 (discovery_lets_other_exceptions_through
                  Sample.foundation Sample.on_off H)
               None [[AttrRec 0 16 1; AttrRec 1 16 1]] [] w eq_refl eq_refl).
Defined.

(** X6: whatever the device answers, a discovery loop puts nothing in the
    log of calls but requests of its own operation, each for 16 records of
    its cluster with its manufacturer code, and the first of them, which it
    always makes, starts at index 0. *)
Theorem discovery_requests_pages_of_16 fd cluster mfr w :
  (exists starts,
      calls (snd (discover_attribute_pages fd cluster mfr w))
      = calls w
        ++ List.map (fun s => DiscoverAttributesExtended (cluster_id cluster)
                                                         s 16 mfr)
                    (0 :: starts))
  /\ (exists starts,
         calls (snd (discover_received_pages cluster mfr w))
         = calls w
           ++ List.map (fun s => DiscoverCommandsReceived (cluster_id cluster)
                                                          s 16 mfr)
                       (0 :: starts))
  /\ (exists starts,
         calls (snd (discover_generated_pages cluster mfr w))
         = calls w
           ++ List.map (fun s => DiscoverCommandsGenerated (cluster_id cluster)
                                                           s 16 mfr)
                       (0 :: starts)).
Proof.
  split; [|split].
  - apply (loop_calls_starts _ _ _
             (attributes_request_next (cluster_id cluster) mfr)
             (attributes_request_stuck (cluster_id cluster) mfr)).
  - apply (loop_calls_starts _ _ _
             (received_request_next (cluster_id cluster) mfr)
             (received_request_stuck (cluster_id cluster) mfr)).
  - apply (loop_calls_starts _ _ _
             (generated_request_next (cluster_id cluster) mfr)
             (generated_request_stuck (cluster_id cluster) mfr)).
Qed.

(** X7: a page without records that does not set the completion flag
    leaves the cursor where it was: the request that follows it is the
    request that brought it (for the attributes, after pages whose records
    have data types that can be named: the loop does not get past
    another). *)
Theorem empty_page_repeats_request fd cluster mfr :
  (forall pages later w,
      attr_tape w = List.map more pages ++ more [] :: later ->
      forallb (type_named fd) (concat pages) = true ->
      exists start,
        let issued := calls (snd (discover_attribute_pages fd cluster mfr w)) in
        let request :=
          DiscoverAttributesExtended (cluster_id cluster) start 16 mfr in
        nth_error issued (length (calls w) + length pages) = Some request
        /\ nth_error issued (length (calls w) + length pages + 1)
           = Some request)
  /\ (forall pages later w,
         received_tape w = List.map more pages ++ more [] :: later ->
         exists start,
           let issued := calls (snd (discover_received_pages cluster mfr w)) in
           let request :=
             DiscoverCommandsReceived (cluster_id cluster) start 16 mfr in
           nth_error issued (length (calls w) + length pages) = Some request
           /\ nth_error issued (length (calls w) + length pages + 1)
              = Some request)
  /\ (forall pages later w,
         generated_tape w = List.map more pages ++ more [] :: later ->
         exists start,
           let issued := calls (snd (discover_generated_pages cluster mfr w)) in
           let request :=
             DiscoverCommandsGenerated (cluster_id cluster) start 16 mfr in
           nth_error issued (length (calls w) + length pages) = Some request
           /\ nth_error issued (length (calls w) + length pages + 1)
              = Some request).
Proof.
  split; [|split].
  - intros pages later w Ht Hn. rewrite attribute_pages_run.
    eapply (run_empty_page _ _ _
              (attributes_request_next (cluster_id cluster) mfr)
              (attributes_request_stuck (cluster_id cluster) mfr));
      [exact Ht | now apply all_named_builds].
  - intros pages later w Ht. rewrite received_pages_run.
    eapply (run_empty_page _ _ _
              (received_request_next (cluster_id cluster) mfr)
              (received_request_stuck (cluster_id cluster) mfr));
      [exact Ht | apply builds_inr].
  - intros pages later w Ht. rewrite generated_pages_run.
    eapply (run_empty_page _ _ _
              (generated_request_next (cluster_id cluster) mfr)
              (generated_request_stuck (cluster_id cluster) mfr));
      [exact Ht | apply builds_inr].
Qed.

(** Commands 0, 1, then an empty page: the request at 2 is made twice;
    and so is the request for attributes at 1 after the attribute 0 and an
    empty page. *)
Lemma empty_page_repeats_request_witness :
  let w := MkWorld [] [more [0; 1]; more []; Returns (true, Records [2])]
                   [] [] [] in
  let wa := MkWorld [more [AttrRec 0 16 1]; more []; Returns (true, Records [])]
                    [] [] [] [] in
  (received_tape w
   = List.map more [[0; 1]] ++ more [] :: [Returns (true, Records [2])]
   /\ calls (snd (discover_received_pages Sample.on_off None w))
      = [ DiscoverCommandsReceived 6 0 16 None;
          DiscoverCommandsReceived 6 2 16 None;
          DiscoverCommandsReceived 6 2 16 None ]
   /\ exists start,
       let issued := calls (snd (discover_received_pages Sample.on_off None w)) in
       let request := DiscoverCommandsReceived 6 start 16 None in
       nth_error issued 1 = Some request /\ nth_error issued 2 = Some request)
  /\ (attr_tape wa
      = List.map more [[AttrRec 0 16 1]]
        ++ more [] :: [Returns (true, Records [])]
      /\ forallb (type_named Sample.foundation) (concat [[AttrRec 0 16 1]])
         = true
      /\ calls (snd (discover_attribute_pages Sample.foundation Sample.on_off
                                              None wa))
         = [ DiscoverAttributesExtended 6 0 16 None;
             DiscoverAttributesExtended 6 1 16 None;
             DiscoverAttributesExtended 6 1 16 None ]
      /\ exists start,
          let issued :=
            calls (snd (discover_attribute_pages Sample.foundation Sample.on_off
                                                 None wa)) in
          let request := DiscoverAttributesExtended 6 start 16 None in
          nth_error issued 1 = Some request /\ nth_error issued 2 = Some request).
Proof.
  intros w wa. split.
  - split; [reflexivity|]. split; [reflexivity|].
    exact (proj1 (proj2 (empty_page_repeats_request
                           Sample.foundation Sample.on_off None))
                 [[0; 1]] [Returns (true, Records [2])] w eq_refl).
  - split; [reflexivity|]. split; [reflexivity|]. split; [reflexivity|].
    exact (proj1 (empty_page_repeats_request
                    Sample.foundation Sample.on_off None)
                 [[AttrRec 0 16 1]] [Returns (true, Records [])] wa
                 eq_refl eq_refl).
Defined.

(* ------------------------------------------------------------------ *)
(** ** The report of a cluster *)

Lemma discover_commands_received_role cluster a b mfr :
  discover_commands_received cluster a mfr
  = discover_commands_received cluster b mfr.
Proof. reflexivity. Qed.

Lemma discover_commands_generated_role cluster a b mfr :
  discover_commands_generated cluster a mfr
  = discover_commands_generated cluster b mfr.
Proof. reflexivity. Qed.

(** X8: the role given to [scan_cluster] changes neither what is asked of
    the device nor what is found: scanned as a client the cluster gives the
    report it gives as a server with the maps under [commands_received]
    and [commands_generated] exchanged. *)
Theorem scan_cluster_role_exchanges_command_maps fd cluster w d w' :
  scan_cluster fd cluster true w = (Ok d, w') ->
  exists d',
    scan_cluster fd cluster false w = (Ok d', w')
    /\ sget s{"commands_received"} d' = sget s{"commands_generated"} d
    /\ sget s{"commands_generated"} d' = sget s{"commands_received"} d
    /\ sget s{"cluster_id"} d' = sget s{"cluster_id"} d
    /\ sget s{"name"} d' = sget s{"name"} d
    /\ sget s{"attributes"} d' = sget s{"attributes"} d.
Proof.
  unfold scan_cluster. cbv iota beta. unfold bind.
  rewrite (discover_commands_received_role cluster false true).
  rewrite (discover_commands_generated_role cluster false true).
  destruct (discover_attributes_extended fd cluster None w) as [[a|e|] w1];
    try discriminate.
  destruct (discover_commands_received cluster true None w1) as [[r|e|] w2];
    try discriminate.
  destruct (discover_commands_generated cluster true None w2) as [[g|e|] w3];
    try discriminate.
  cbn [ret]. intros [= <- <-]. eexists. split; [reflexivity|].
  repeat split.
Qed.

Lemma scan_cluster_role_exchanges_command_maps_witness :
  exists d w' d',
    scan_cluster Sample.foundation Sample.on_off true sample_radio = (Ok d, w')
    /\ scan_cluster Sample.foundation Sample.on_off false sample_radio
       = (Ok d', w')
    /\ sget s{"commands_received"} d' = sget s{"commands_generated"} d
    /\ sget s{"commands_generated"} d' = sget s{"commands_received"} d
    /\ sget s{"cluster_id"} d' = sget s{"cluster_id"} d
    /\ sget s{"name"} d' = sget s{"name"} d
    /\ sget s{"attributes"} d' = sget s{"attributes"} d.
Proof.
  set (out := scan_cluster Sample.foundation Sample.on_off true sample_radio).
  assert (E : out = (Ok (match fst out with Ok r => r | _ => [] end), snd out))
    by (vm_compute; reflexivity).
  destruct (scan_cluster_role_exchanges_command_maps
              Sample.foundation Sample.on_off sample_radio E) as (d' & H).
  exists (match fst out with Ok r => r | _ => [] end), (snd out), d'.
  split; [exact E | exact H].
Defined.

(** The ids a tape of command discovery carries. *)
Definition on_tape {R} (tape : list (outcome (bool * response R))) (r : R)
  : Prop :=
  exists done recs, In (Returns (done, Records recs)) tape /\ In r recs.

Lemma accumulate_In {R K} (key : R -> K) entry eqb
      (eqb_eq : forall a b, eqb a b = true <-> a = b) (recs : list R) x :
  In x (accumulate key entry eqb recs []) ->
  exists r, In r recs /\ x = (key r, entry r).
Proof.
  intro H. unfold accumulate in H.
  apply (dict_set_all_In eqb eqb_eq) in H. destruct H as [H|[]].
  apply in_map_iff in H. destruct H as (r & <- & Hr). now exists r.
Qed.

Lemma sorted_report_In (result : dict pystr sdict) k v :
  In (k, v) (sorted_report result) ->
  exists e, v = PDict e /\ In (k, e) result.
Proof.
  intro H. unfold sorted_report in H. apply sorted_items_In in H.
  apply in_map_iff in H. destruct H as ([k0 e] & [= <- <-] & H).
  now exists e.
Qed.

(** X9: every entry of a command map is the entry of an id the device has
    reported, under that id written with two hex digits (more above 0xff):
    a received command has its name and arguments from [server_commands], a
    generated one from [client_commands], and [command_id] repeats the
    key. *)
Theorem command_map_entries cluster is_server mfr w report w' :
  (discover_commands_received cluster is_server mfr w = (Ok report, w') ->
   forall k v,
     In (k, v) report ->
     exists id,
       on_tape (received_tape w) id
       /\ k = format_0x 2 id
       /\ v = PDict (received_entry cluster id)
       /\ sget s{"command_id"} (received_entry cluster id) = Some (PStr k))
  /\ (discover_commands_generated cluster is_server mfr w = (Ok report, w') ->
      forall k v,
        In (k, v) report ->
        exists id,
          on_tape (generated_tape w) id
          /\ k = format_0x 2 id
          /\ v = PDict (generated_entry cluster id)
          /\ sget s{"command_id"} (generated_entry cluster id) = Some (PStr k)).
Proof.
  split.
  - unfold discover_commands_received, bind.
    destruct (discover_received_pages cluster mfr w) as [[r1|e|] w1] eqn:E1;
      try discriminate.
    cbn [ret]. intros [= <- _] k v H.
    apply sorted_report_In in H. destruct H as (e & -> & H).
    unfold discover_received_pages in E1.
    apply (loop_accumulates _ _ _
             (received_request_next (cluster_id cluster) mfr)
             (received_request_stuck (cluster_id cluster) mfr)) in E1.
    destruct E1 as (recs & -> & _ & Hin).
    apply (accumulate_In _ _ pystr_eqb pystr_eqb_eq) in H.
    destruct H as (id & Hr & [= -> ->]). exists id.
    split; [exact (Hin id Hr)|]. repeat split.
    unfold received_entry. now destruct (command_data _ _).
  - unfold discover_commands_generated, bind.
    destruct (discover_generated_pages cluster mfr w) as [[r1|e|] w1] eqn:E1;
      try discriminate.
    cbn [ret]. intros [= <- _] k v H.
    apply sorted_report_In in H. destruct H as (e & -> & H).
    unfold discover_generated_pages in E1.
    apply (loop_accumulates _ _ _
             (generated_request_next (cluster_id cluster) mfr)
             (generated_request_stuck (cluster_id cluster) mfr)) in E1.
    destruct E1 as (recs & -> & _ & Hin).
    apply (accumulate_In _ _ pystr_eqb pystr_eqb_eq) in H.
    destruct H as (id & Hr & [= -> ->]). exists id.
    split; [exact (Hin id Hr)|]. repeat split.
    unfold generated_entry. now destruct (command_data _ _).
Qed.

Lemma command_map_entries_witness :
  let w := MkWorld [] [more [1]; Returns (true, Records [0])] [] [] [] in
  exists report w',
    discover_commands_received Sample.on_off true None w = (Ok report, w')
    /\ In (s{"0x01"}, PDict (received_entry Sample.on_off 1)) report
    /\ exists id,
        on_tape (received_tape w) id
        /\ s{"0x01"} = format_0x 2 id
        /\ PDict (received_entry Sample.on_off 1)
           = PDict (received_entry Sample.on_off id)
        /\ sget s{"command_id"} (received_entry Sample.on_off id)
           = Some (PStr s{"0x01"}).
Proof.
  intro w.
  set (out := discover_commands_received Sample.on_off true None w).
  assert (E : out = (Ok (match fst out with Ok r => r | _ => [] end), snd out))
    by (vm_compute; reflexivity).
  assert (H : In (s{"0x01"}, PDict (received_entry Sample.on_off 1))
                 (match fst out with Ok r => r | _ => [] end))
    by (vm_compute; tauto).
  exists (match fst out with Ok r => r | _ => [] end), (snd out).
  split; [exact E|]. split; [exact H|].
  exact (proj1 (command_map_entries Sample.on_off true None w _ _) E _ _ H).
Defined.

Lemma value_reader_keeps_records_aux cluster result w result' w' :
  read_attribute_values cluster result w = (Ok result', w') ->
  same_records_with_values result result'.
Proof.
  unfold read_attribute_values. apply read_chunks_same_records.
  apply same_records_refl.
Qed.

Lemma same_records_In result result' a e :
  same_records_with_values result result' -> In (a, e) result' ->
  exists e0, In (a, e0) result /\ with_value e0 e.
Proof.
  induction 1 as [|[a0 e0] [a1 e1] l l' [Hk Hv] _ IH]; intros Hin; [easy|].
  cbn [fst snd] in *. destruct Hin as [[= -> ->]|Hin].
  - exists e0. subst. split; [now left | exact Hv].
  - destruct (IH Hin) as (e2 & H1 & H2). exists e2. split; [now right|exact H2].
Qed.

Lemma attributes_report_In result k v :
  In (k, v) (attributes_report result) ->
  exists a e, k = format_0x 4 a /\ v = PDict e /\ In (a, e) result.
Proof.
  intro H. unfold attributes_report in H. apply dict_of_items_In in H.
  apply in_map_iff in H. destruct H as (a & [= <- <-] & Ha).
  apply (Permutation_in _ (sorted_perm _ N.ltb (dict_keys result))) in Ha.
  apply (dict_get_In N.eqb N.eqb_eq) in Ha.
  destruct (dict_get N.eqb a result) as [e|] eqn:E; [|contradiction].
  exists a, e. repeat split. now apply (dict_get_Some_In N.eqb N.eqb_eq).
Qed.

(** X10: every entry of the attribute map is the entry of a record the
    device has reported, under its id written with four hex digits, as the
    discovery stored it or with [attribute_value] added; [attribute_id]
    repeats the key. *)
Theorem attribute_map_entries fd cluster mfr w report w' :
  discover_attributes_extended fd cluster mfr w = (Ok report, w') ->
  forall k v,
    In (k, v) report ->
    exists r stored e,
      on_tape (attr_tape w) r
      /\ k = format_0x 4 (attrid r)
      /\ v = PDict e
      /\ attr_entry fd cluster r = inr stored
      /\ with_value stored e
      /\ sget s{"attribute_id"} e = Some (PStr k).
Proof.
  unfold discover_attributes_extended, bind.
  destruct (discover_attribute_pages fd cluster mfr w) as [[r1|e|] w1] eqn:E1;
    try discriminate.
  destruct (read_attribute_values cluster r1 w1) as [[r2|e|] w2] eqn:E2;
    try discriminate.
  cbn [ret]. intros [= <- _] k v H.
  apply attributes_report_In in H. destruct H as (a & e & -> & -> & H).
  apply value_reader_keeps_records_aux in E2.
  destruct (@same_records_In r1 r2 a e E2 H) as (e0 & H0 & Hv).
  unfold discover_attribute_pages in E1.
  apply (loop_accumulates _ _ _
           (attributes_request_next (cluster_id cluster) mfr)
           (attributes_request_stuck (cluster_id cluster) mfr)) in E1.
  destruct E1 as (recs & -> & Hb & Hin).
  apply (accumulate_In _ _ N.eqb N.eqb_eq) in H0.
  destruct H0 as (r & Hr & [= -> ->]).
  pose proof (proj1 (Forall_forall _ _) Hb r Hr) as Hbr.
  pose proof (builds_entry_of Hbr) as Ee.
  exists r, (entry_of (attr_entry fd cluster) r), e.
  split; [exact (Hin r Hr)|]. split; [reflexivity|]. split; [reflexivity|].
  split; [exact Ee|]. split; [exact Hv|].
  assert (Ha : sget s{"attribute_id"} (entry_of (attr_entry fd cluster) r)
               = Some (PStr (format_0x 4 (attrid r)))).
  { revert Ee. generalize (entry_of (attr_entry fd cluster) r). intro s0.
    unfold attr_entry. destruct (value_type fd (datatype r)); [discriminate|].
    intros [= <-]. reflexivity. }
  destruct Hv as [->|(v0 & ->)]; [exact Ha|].
  rewrite sget_sset_other by distinct. exact Ha.
Qed.

Lemma attribute_map_entries_witness :
  let w := MkWorld [Returns (true, Records [AttrRec 0 16 1])] [] []
                   [Returns ([(0, PBool true)], [])] [] in
  exists report w' v,
    discover_attributes_extended Sample.foundation Sample.on_off None w
    = (Ok report, w')
    /\ In (s{"0x0000"}, v) report
    /\ exists r stored e,
        on_tape (attr_tape w) r
        /\ s{"0x0000"} = format_0x 4 (attrid r)
        /\ v = PDict e
        /\ attr_entry Sample.foundation Sample.on_off r = inr stored
        /\ with_value stored e
        /\ sget s{"attribute_id"} e = Some (PStr s{"0x0000"}).
Proof.
  intro w.
  set (out := discover_attributes_extended Sample.foundation Sample.on_off
                                           None w).
  assert (E : out = (Ok (match fst out with Ok r => r | _ => [] end), snd out))
    by (vm_compute; reflexivity).
  set (v := match fst out with Ok ((_, v) :: _) => v | _ => PNone end).
  assert (H : In (s{"0x0000"}, v) (match fst out with Ok r => r | _ => [] end))
    by (vm_compute; tauto).
  exists (match fst out with Ok r => r | _ => [] end), (snd out), v.
  split; [exact E|]. split; [exact H|].
  exact (attribute_map_entries Sample.foundation Sample.on_off None w E _ _ H).
Defined.

(* ------------------------------------------------------------------ *)
(** ** The report of a device *)

Lemma scan_results_loop_skips fd : forall eps st w,
    for_each (scan_results_body fd) eps st w
    = for_each (scan_results_body fd)
               (filter (fun item => negb (fst item =? 0)) eps) st w.
Proof.
  induction eps as [|[epid ep] eps IH]; intros [result l] w; [reflexivity|].
  cbn [filter fst]. destruct (N.eqb_spec epid 0) as [->|Hne]; cbn [negb].
  - cbn [for_each]. unfold bind at 1. cbn [scan_results_body N.eqb ret].
    apply IH.
  - cbn [for_each]. unfold bind.
    destruct (scan_results_body fd (result, l) (epid, ep) w) as [[st'|e|] w1];
      [apply IH | reflexivity | reflexivity].
Qed.

(** X12: the entry of [device.endpoints] under 0 (the ZDO endpoint) is
    never looked at: the scan of a device asks the device the same and
    returns the same as the scan of that device without it. *)
Theorem scan_results_skips_endpoint_0 fd device w :
  scan_results fd device w
  = scan_results fd (MkDevice (ieee device) (nwk device)
                              (scanned_endpoints device)) w.
Proof.
  rewrite !scan_results_unfold. unfold bind. cbn [endpoints ieee nwk].
  unfold scanned_endpoints. now rewrite scan_results_loop_skips.
Qed.

Lemma scan_endpoint_maps fd ep w report w' :
  scan_endpoint fd ep w = (Ok report, w') ->
  exists ins outs,
    report = [ (s{"in_clusters"}, PDict ins); (s{"out_clusters"}, PDict outs) ].
Proof.
  unfold scan_endpoint, bind.
  destruct (scan_clusters fd (in_clusters ep) w) as [[ins|e|] w1];
    try discriminate.
  destruct (scan_clusters fd (out_clusters ep) w1) as [[outs|e|] w2];
    try discriminate.
  cbn [ret]. intros [= <- _]. now exists ins, outs.
Qed.

(** The entry of the report for one endpoint. *)
Definition endpoint_entry (item : N * Endpoint) (v : pyval) : Prop :=
  exists ins outs,
    v = PDict [ (s{"id"}, PInt (Z.of_N (fst item)));
                (s{"device_type"}, PStr (format_0x 4 (device_type (snd item))));
                (s{"profile"}, PStr (format_0x 4 (profile_id (snd item))));
                (s{"in_clusters"}, PDict ins);
                (s{"out_clusters"}, PDict outs) ].

(** The keys of the report while the endpoints are gone through. *)
Definition report_keys (seen : bool) : list pystr :=
  [s{"ieee"}; s{"nwk"}]
  ++ (if seen then [s{"model"}; s{"manufacturer"}] else []).

Lemma report_keys_set seen result m f :
  dict_keys result = report_keys seen ->
  dict_keys (sset s{"manufacturer"} f (sset s{"model"} m result))
  = report_keys true.
Proof.
  intro Hk. unfold sset. destruct seen.
  - rewrite !(dict_set_keys_known pystr_eqb pystr_eqb_eq); [exact Hk| |].
    + rewrite Hk. vm_compute. tauto.
    + rewrite (dict_set_keys_known pystr_eqb pystr_eqb_eq);
        rewrite Hk; vm_compute; tauto.
  - assert (H1 : ~ In s{"model"} (dict_keys result))
      by (rewrite Hk; vm_compute; intros [H|[H|[]]]; discriminate).
    rewrite (dict_set_new pystr_eqb pystr_eqb_eq _ _ _ H1).
    assert (H2 : ~ In s{"manufacturer"} (dict_keys (result ++ [(s{"model"}, m)]))).
    { unfold dict_keys in *. rewrite map_app, Hk. vm_compute.
      intros [H|[H|[H|[]]]]; discriminate. }
    rewrite (dict_set_new pystr_eqb pystr_eqb_eq _ _ _ H2).
    unfold dict_keys in *. rewrite !map_app, Hk. reflexivity.
Qed.

Lemma scan_results_loop_shape fd : forall eps result l w result' l' w' seen,
    for_each (scan_results_body fd) eps (result, l) w = (Ok (result', l'), w') ->
    dict_keys result = report_keys seen ->
    (exists added,
        l' = l ++ added
        /\ Forall2 endpoint_entry
                   (filter (fun item => negb (fst item =? 0)) eps) added)
    /\ dict_keys result'
       = report_keys
           (seen || existsb (fun item => negb (fst item =? 0)) eps)
    /\ sget s{"ieee"} result' = sget s{"ieee"} result
    /\ sget s{"nwk"} result' = sget s{"nwk"} result.
Proof.
  induction eps as [|[epid ep] eps IH];
    intros result l w result' l' w' seen H Hk.
  - simpl in H. injection H as <- <- _. split; [|split].
    + exists []. split; [now rewrite app_nil_r | constructor].
    + now rewrite orb_false_r.
    + split; reflexivity.
  - cbn [for_each] in H. unfold bind at 1 in H.
    cbn [filter existsb fst]. unfold scan_results_body at 1 in H.
    destruct (N.eqb_spec epid 0) as [E|E]; cbn [negb orb].
    + cbn [ret] in H. exact (IH _ _ _ _ _ _ _ H Hk).
    + unfold bind at 1 in H.
      destruct (scan_endpoint fd ep w) as [[sc|e|] w1] eqn:Es;
        try discriminate.
      cbn [ret] in H. apply scan_endpoint_maps in Es.
      destruct Es as (ins & outs & ->).
      destruct (IH _ _ _ _ _ _ true H (@report_keys_set seen result _ _ Hk))
        as ((added & -> & Hf) & Hk' & Hi & Hn).
      split; [|split; [|split]].
      * eexists. split; [now rewrite <- app_assoc|].
        constructor; [|exact Hf]. now exists ins, outs.
      * rewrite orb_true_r. exact Hk'.
      * rewrite Hi. now rewrite !sget_sset_other by distinct.
      * rewrite Hn. now rewrite !sget_sset_other by distinct.
Qed.

Lemma existsb_filter {A} (f : A -> bool) l :
  existsb f l = match filter f l with [] => false | _ :: _ => true end.
Proof.
  induction l as [|x l IH]; [reflexivity|]. cbn [existsb filter].
  destruct (f x); [reflexivity | exact IH].
Qed.

(** X11: the report of a device has the keys [ieee], [nwk], then [model]
    and [manufacturer] when an endpoint other than 0 was scanned, then
    [endpoints]; [ieee] and [nwk] are those of the device, and [endpoints]
    lists the endpoints other than 0 in their order, each with its [id],
    [device_type], [profile], [in_clusters] and [out_clusters]. *)
Theorem scan_results_shape fd device w report w' :
  scan_results fd device w = (Ok report, w') ->
  dict_keys report
  = [s{"ieee"}; s{"nwk"}]
    ++ (match scanned_endpoints device with
        | [] => []
        | _ :: _ => [s{"model"}; s{"manufacturer"}]
        end)
    ++ [s{"endpoints"}]
  /\ sget s{"ieee"} report = Some (PStr (ieee device))
  /\ sget s{"nwk"} report = Some (PStr (format_0x 4 (nwk device)))
  /\ exists entries,
      sget s{"endpoints"} report = Some (PList entries)
      /\ Forall2 endpoint_entry (scanned_endpoints device) entries.
Proof.
  rewrite scan_results_unfold. unfold bind at 1.
  destruct (for_each _ _ _ w) as [[[result l]|e|] w1] eqn:E; try discriminate.
  cbn [ret]. intros [= <- _].
  destruct (@scan_results_loop_shape fd _ _ _ _ _ _ _ false E eq_refl)
    as ((added & -> & Hf) & Hk & Hi & Hn).
  cbn [orb app] in *.
  rewrite existsb_filter in Hk. fold (scanned_endpoints device) in Hk, Hf. split; [|split; [|split]].
  - assert (Hout : ~ In s{"endpoints"} (dict_keys result)).
    { rewrite Hk. destruct (scanned_endpoints device); vm_compute;
        [intros [H|[H|[]]] | intros [H|[H|[H|[H|[]]]]]]; discriminate. }
    unfold sset. rewrite (dict_set_new pystr_eqb pystr_eqb_eq _ _ _ Hout).
    unfold dict_keys in *. rewrite map_app, Hk. unfold report_keys.
    destruct (scanned_endpoints device); reflexivity.
  - rewrite sget_sset_other by distinct. exact Hi.
  - rewrite sget_sset_other by distinct. exact Hn.
  - exists added. split; [apply sget_sset_same | exact Hf].
Qed.

Lemma scan_results_shape_witness :
  exists report w',
    scan_results Sample.foundation sample_plug sample_radio = (Ok report, w')
    /\ dict_keys report
       = [ s{"ieee"}; s{"nwk"}; s{"model"}; s{"manufacturer"}; s{"endpoints"} ]
    /\ sget s{"ieee"} report = Some (PStr s{"00:0d:6f:00:0a:90:69:e7"})
    /\ sget s{"nwk"} report = Some (PStr s{"0x1234"})
    /\ exists entries,
        sget s{"endpoints"} report = Some (PList entries)
        /\ Forall2 endpoint_entry (scanned_endpoints sample_plug) entries.
Proof.
  set (out := scan_results Sample.foundation sample_plug sample_radio).
  assert (E : out = (Ok (match fst out with Ok r => r | _ => [] end), snd out))
    by (vm_compute; reflexivity).
  exists (match fst out with Ok r => r | _ => [] end), (snd out).
  split; [exact E|].
  exact (scan_results_shape Sample.foundation sample_plug sample_radio E).
Defined.

(* ------------------------------------------------------------------ *)
(** ** The keys written in hexadecimal *)

(** X13: the keys ["0x{:04x}"] and ["0x{:02x}"] write can be read back:
    after the prefix [0x] a key of any width holds the digits of its
    number, so that two numbers never share a key; and a number that fits
    in the width is written with exactly that many digits. *)
Theorem hex_key_round_trip (width : nat) (n : N) :
  firstn 2 (format_0x width n) = s{"0x"}
  /\ HexFacts.parse_hex (skipn 2 (format_0x width n)) = n
  /\ (forall m, format_0x width m = format_0x width n -> m = n)
  /\ ((1 <= width)%nat -> n < 16 ^ N.of_nat width ->
      length (format_0x width n) = (2 + width)%nat).
Proof.
  split; [reflexivity|]. split; [apply parse_zfill_hex_digits|].
  split; [intros m H; now apply format_0x_inj in H|].
  intros Hw Hn. unfold format_0x. cbn [app length].
  rewrite zfill_hex_digits by assumption. now rewrite fixed_hex_length.
Qed.

Lemma hex_key_round_trip_witness :
  (1 <= 4)%nat /\ 6 < 16 ^ N.of_nat 4
  /\ format_0x 4 6 = s{"0x0006"}
  /\ HexFacts.parse_hex (skipn 2 (format_0x 4 6)) = 6
  /\ length (format_0x 4 6) = 6%nat.
Proof.
  assert (H1 : (1 <= 4)%nat) by lia.
  assert (H2 : 6 < 16 ^ N.of_nat 4) by reflexivity.
  split; [exact H1|]. split; [exact H2|]. split; [reflexivity|].
  split; [exact (proj1 (proj2 (hex_key_round_trip 4 6)))|].
  exact (proj2 (proj2 (proj2 (hex_key_round_trip 4 6))) H1 H2).
Defined.

(* ================================================================== *)
(** * The commands of [scan_device.py] *)

(** ** [scan_device] *)

Module Command.

(** [x.startswith("/")] and [x.endswith("/")] *)
Definition starts_with_sep (x : pystr) : bool :=
  match x with c :: _ => c =? 47 | [] => false end.

Definition ends_with_sep (x : pystr) : bool := starts_with_sep (rev x).

(** [os.path.join(a, *p)] of [posixpath]. *)
Definition path_join (a : pystr) (p : list pystr) : pystr :=
  fold_left
    (fun path b =>
       if starts_with_sep b then b
       else if match path with [] => true | _ => false end || ends_with_sep path
            then path ++ b
            else path ++ [47] ++ b)
    p a.

(** [str(z)] *)
Definition str_of_Z (z : Z) : pystr :=
  lit (NilZero.string_of_int (Z.to_int z)).

(** ["".join(["%02x" % (o,) for o in octets])] *)
Definition hex_join (octets : list byte) : pystr := flat_map hex_of_byte octets.

(** [xs[-4:]] *)
Definition last4 {A} (xs : list A) : list A := skipn (length xs - 4) xs.

(** The host of the command: the radio, the calls of [save_json] so far
    and the records of the [LOGGER] at error level. *)
Record Host : Type := MkHost {
  radio : World;
  saved : list (pystr * sdict);
  errors : list pystr
}.

(** What the command is given by the application and the listener. *)
Record Env : Type := MkEnv {
  get_device : list byte -> option Device;  (** [app.get_device(ieee=...)] *)
  config_dir : pystr;                       (** [listener._hass.config.config_dir] *)
  save_fails : pystr -> option exn          (** what [save_json] raises, if it does *)
}.

Section ScanDeviceCommand.
Variable foundation : Foundation.
(** [str(v)] of a bytes, list or dict value. *)
Variable str_other : pyval -> pystr.

(** ["{}".format(v)] *)
Definition format_value (v : pyval) : pystr :=
  match v with
  | PStr x => x
  | PNone => s{"None"}
  | PBool true => s{"True"}
  | PBool false => s{"False"}
  | PInt z => str_of_Z z
  | _ => str_other v
  end.

(** [d.get(k) is not None] *)
Definition get_not_none (k : pystr) (d : sdict) : option pyval :=
  match sget k d with
  | Some PNone | None => None
  | Some v => Some v
  end.

(** The name of the file of a scan. *)
Definition file_name_of (ieee : list byte) (scan : sdict) : pystr :=
  match get_not_none s{"model"} scan, get_not_none s{"manufacturer"} scan with
  | Some model, Some manufacturer =>
      let ieee_tail := hex_join (last4 ieee) in
      format_value model ++ s{"_"} ++ format_value manufacturer ++ s{"_"}
      ++ ieee_tail ++ s{"_scan_results.txt"}
  | _, _ =>
      let ieee_tail := hex_join ieee in
      ieee_tail ++ s{"_scan_results.txt"}
  end.

Definition scan_device (env : Env) (ieee : option (list byte)) : SM Host unit :=
  fun h =>
    match ieee with
    | None => (Ok tt, MkHost (radio h) (saved h) (errors h ++ [s{"missine ieee"}]))
    | Some ieee =>
        match get_device env ieee with
        | None => (Raised KeyError, h)
        | Some device =>
            match scan_results foundation device (radio h) with
            | (Ok scan, w) =>
                let file_name := file_name_of ieee scan in
                let file_name :=
                  path_join (config_dir env) [s{"scans"}; file_name] in
                let h' := MkHost w (saved h ++ [(file_name, scan)]) (errors h) in
                match save_fails env file_name with
                | Some e => (Raised e, h')
                | None => (Ok tt, h')
                end
            | (Raised e, w) => (Raised e, MkHost w (saved h) (errors h))
            | (Stuck, w) => (Stuck, MkHost w (saved h) (errors h))
            end
        end
    end.
End ScanDeviceCommand.

(** ** [get_node_desc] *)

Record NodeDesc : Type := MkNodeDesc {
  logical_type : pyval;
  is_mains_powered : pyval
}.

(** The arguments of one [LOGGER.info] record. *)
Record NodeInfo : Type := MkNodeInfo {
  info_ieee : pystr;
  info_manufacturer : pyval;
  info_model : pyval;
  info_logical_type : pyval;
  info_mains_powered : pyval
}.

(** [next((e for epid, e in device.endpoints.items() if epid), None)] *)
Definition first_endpoint (device : Device) : option Endpoint :=
  option_map snd (find (fun item => negb (fst item =? 0)) (endpoints device)).

(** The records [get_node_desc] logs, one for each of [app.devices.values()];
    it asks nothing of the radio. *)
Definition get_node_desc (devices : list (Device * NodeDesc)) : list NodeInfo :=
  List.map
    (fun dn =>
       let (device, node_desc) := (dn : Device * NodeDesc) in
       let (model, manufacturer) :=
         match first_endpoint device with
         | Some ep => (model ep, manufacturer ep)
         | None => (PNone, PNone)
         end in
       MkNodeInfo (ieee device) manufacturer model
                  (logical_type node_desc) (is_mains_powered node_desc))
    devices.

End Command.

(** ** Properties of [scan_device] and [get_node_desc] *)

Lemma scan_results_last fd device w report w' :
  scan_results fd device w = (Ok report, w') ->
  sget s{"model"} report
  = match rev (scanned_endpoints device) with
    | (_, ep) :: _ => Some (model ep)
    | [] => None
    end
  /\ sget s{"manufacturer"} report
     = match rev (scanned_endpoints device) with
       | (_, ep) :: _ => Some (manufacturer ep)
       | [] => None
       end.
Proof.
  rewrite scan_results_unfold. unfold bind at 1.
  destruct (for_each _ _ _ w) as [[[result l]|e|] w1] eqn:E; try discriminate.
  cbn [ret]. intros [= <- _].
  rewrite !sget_sset_other by distinct.
  assert (Hne : s{"manufacturer"} <> s{"model"}) by distinct.
  pose proof (@scan_results_loop fd model s{"model"}
                (fun ep r => eq_trans (sget_sset_other _ _ Hne)
                                      (sget_sset_same _ _ _))
                _ _ _ _ _ _ E) as Hm.
  pose proof (@scan_results_loop fd manufacturer s{"manufacturer"}
                (fun ep r => sget_sset_same _ _ _) _ _ _ _ _ _ E) as Hf.
  cbn [fst] in Hm, Hf. unfold scanned_endpoints. rewrite Hm, Hf.
  destruct (rev (filter _ (endpoints device))) as [|[epid ep] r];
    split; reflexivity.
Qed.

Lemma hex_join_length octets :
  length (Command.hex_join octets) = (2 * length octets)%nat.
Proof.
  unfold Command.hex_join. induction octets as [|b octets IH]; [reflexivity|].
  cbn [flat_map]. rewrite length_app, IH. cbn [hex_of_byte length]. lia.
Qed.

Lemma last4_length {A} (xs : list A) :
  (4 <= length xs)%nat -> length (Command.last4 xs) = 4%nat.
Proof. intro H. unfold Command.last4. rewrite length_skipn. lia. Qed.

Lemma scan_device_saved_last fd str_other env ieee device h scan w epid ep
      before m f :
  Command.get_device env ieee = Some device ->
  scan_results fd device (Command.radio h) = (Ok scan, w) ->
  scanned_endpoints device = before ++ [(epid, ep)] ->
  model ep = PStr m -> manufacturer ep = PStr f ->
  Command.saved (snd (Command.scan_device fd str_other env (Some ieee) h))
  = Command.saved h
    ++ [ (Command.path_join
            (Command.config_dir env)
            [ s{"scans"};
              m ++ s{"_"} ++ f ++ s{"_"}
              ++ Command.hex_join (Command.last4 ieee)
              ++ s{"_scan_results.txt"} ],
          scan) ].
Proof.
  intros Hd Hs He Hm Hf.
  unfold Command.scan_device. rewrite Hd, Hs.
  destruct (scan_results_last _ _ _ Hs) as (Gm & Gf).
  rewrite He, rev_app_distr in Gm, Gf. cbn [rev app] in Gm, Gf.
  rewrite Hm in Gm. rewrite Hf in Gf.
  unfold Command.file_name_of, Command.get_not_none. rewrite Gm, Gf.
  cbn [Command.format_value].
  destruct (Command.save_fails env _); reflexivity.
Qed.

(** X14: the file of a scan is named after the last endpoint other than 0:
    when that endpoint has a model and a manufacturer, both strings, the
    one call of [save_json] is for the report, under the name
    model_manufacturer_tail_scan_results.txt joined to the directory
    [scans], where tail is the last four octets of the address in eight
    hex digits. *)
Theorem scan_device_names_file_after_last_endpoint
        fd str_other env ieee device h scan w epid ep before m f :
  Command.get_device env ieee = Some device ->
  scan_results fd device (Command.radio h) = (Ok scan, w) ->
  scanned_endpoints device = before ++ [(epid, ep)] ->
  model ep = PStr m -> manufacturer ep = PStr f ->
  (4 <= length ieee)%nat ->
  let tail := Command.hex_join (Command.last4 ieee) in
  Command.saved (snd (Command.scan_device fd str_other env (Some ieee) h))
  = Command.saved h
    ++ [ (Command.path_join
            (Command.config_dir env)
            [ s{"scans"};
              m ++ s{"_"} ++ f ++ s{"_"} ++ tail ++ s{"_scan_results.txt"} ],
          scan) ]
  /\ length tail = 8%nat.
Proof.
  intros Hd Hs He Hm Hf Hl tail.
  split; [|unfold tail; now rewrite hex_join_length, last4_length].
  eapply scan_device_saved_last; eassumption.
Qed.

Definition sample_env : Command.Env :=
  Command.MkEnv (fun _ => Some sample_plug) s{"/config"} (fun _ => None).

Definition sample_host : Command.Host := Command.MkHost sample_radio [] [].

Definition sample_ieee : list byte := [xe7; x69; x90; x0a; x00; x6f; x0d; x00].

(** A plug whose last endpoint has a model and a manufacturer. *)
Definition sample_bulb : Device :=
  MkDevice s{"00:0d:6f:00:0a:90:69:e7"} 4660
    [ (0, MkEndpoint PNone PNone 0 0 [] []);
      (1, MkEndpoint (PStr s{"TRADFRI bulb"}) (PStr s{"IKEA"}) 256 260 [] []) ].

Lemma scan_device_names_file_after_last_endpoint_witness :
  let env := Command.MkEnv (fun _ => Some sample_bulb) s{"/config"}
                           (fun _ => None) in
  exists scan,
    Command.saved
      (snd (Command.scan_device Sample.foundation (fun _ => [])
                                env (Some sample_ieee) sample_host))
    = [ (s{"/config/scans/TRADFRI bulb_IKEA_006f0d00_scan_results.txt"}, scan) ]
    /\ length (Command.hex_join (Command.last4 sample_ieee)) = 8%nat.
Proof.
  intro env.
  set (out := scan_results Sample.foundation sample_bulb sample_radio).
  assert (E : out = (Ok (match fst out with Ok r => r | _ => [] end), snd out))
    by (vm_compute; reflexivity).
  exists (match fst out with Ok r => r | _ => [] end).
  exact (@scan_device_names_file_after_last_endpoint
           Sample.foundation (fun _ => []) env sample_ieee sample_bulb
           sample_host _ _ 1
           (MkEndpoint (PStr s{"TRADFRI bulb"}) (PStr s{"IKEA"}) 256 260 [] [])
           [] s{"TRADFRI bulb"} s{"IKEA"}
           eq_refl E eq_refl eq_refl eq_refl ltac:(vm_compute; lia)).
Defined.

(** X15: when the device has no endpoint other than 0, or the last one has
    no model or no manufacturer, the file is named after the whole
    address, two hex digits an octet, whatever the other endpoints
    have. *)
Theorem scan_device_names_file_after_address
        fd str_other env ieee device h scan w :
  Command.get_device env ieee = Some device ->
  scan_results fd device (Command.radio h) = (Ok scan, w) ->
  match rev (scanned_endpoints device) with
  | (_, ep) :: _ => model ep = PNone \/ manufacturer ep = PNone
  | [] => True
  end ->
  Command.saved (snd (Command.scan_device fd str_other env (Some ieee) h))
  = Command.saved h
    ++ [ (Command.path_join
            (Command.config_dir env)
            [s{"scans"}; Command.hex_join ieee ++ s{"_scan_results.txt"}],
          scan) ]
  /\ length (Command.hex_join ieee) = (2 * length ieee)%nat.
Proof.
  intros Hd Hs He. split; [|apply hex_join_length].
  unfold Command.scan_device. rewrite Hd, Hs.
  destruct (scan_results_last _ _ _ Hs) as (Gm & Gf).
  unfold Command.file_name_of, Command.get_not_none. rewrite Gm, Gf.
  destruct (rev (scanned_endpoints device)) as [|[epid ep] r].
  - destruct (Command.save_fails env _); reflexivity.
  - destruct He as [->| ->].
    + destruct (Command.save_fails env _); reflexivity.
    + destruct (model ep); destruct (Command.save_fails env _); reflexivity.
Qed.

Lemma scan_device_names_file_after_address_witness :
  exists scan,
    Command.saved
      (snd (Command.scan_device Sample.foundation (fun _ => [])
                                sample_env (Some sample_ieee) sample_host))
    = [ (s{"/config/scans/e769900a006f0d00_scan_results.txt"}, scan) ]
    /\ length (Command.hex_join sample_ieee) = 16%nat.
Proof.
  set (out := scan_results Sample.foundation sample_plug sample_radio).
  assert (E : out = (Ok (match fst out with Ok r => r | _ => [] end), snd out))
    by (vm_compute; reflexivity).
  exists (match fst out with Ok r => r | _ => [] end).
  exact (@scan_device_names_file_after_address
           Sample.foundation (fun _ => []) sample_env sample_ieee sample_plug
           sample_host _ _ eq_refl E (or_intror eq_refl)).
Defined.

(** X16: [save_json] is called at most once, and only with the report of
    a scan that returned: without an address, for an unknown device, or
    when the scan raises, nothing is saved; and the radio is asked nothing
    without an address or for an unknown device. *)
Theorem scan_device_saves_only_a_finished_scan fd str_other env ieee h :
  let h' := snd (Command.scan_device fd str_other env ieee h) in
  (Command.saved h' = Command.saved h
   \/ exists a device path scan,
       ieee = Some a
       /\ Command.get_device env a = Some device
       /\ fst (scan_results fd device (Command.radio h)) = Ok scan
       /\ Command.saved h' = Command.saved h ++ [(path, scan)])
  /\ (match ieee with
      | None => True
      | Some a => Command.get_device env a = None
      end ->
      Command.radio h' = Command.radio h /\ Command.saved h' = Command.saved h).
Proof.
  unfold Command.scan_device. destruct ieee as [a|]; cbn [snd].
  - destruct (Command.get_device env a) as [device|] eqn:Hd.
    + split; [|discriminate].
      destruct (scan_results fd device (Command.radio h)) as [[scan|e|] w] eqn:Hs.
      * right. exists a, device. eexists. exists scan.
        split; [reflexivity|]. split; [exact Hd|].
        split; [now rewrite Hs|].
        destruct (Command.save_fails env _); reflexivity.
      * now left.
      * now left.
    + split; [now left | now split].
  - split; [now left | now split].
Qed.

(** An address the controller does not know: the radio and the files are
    as they were. *)
Lemma scan_device_saves_only_a_finished_scan_witness :
  let env := Command.MkEnv (fun _ => None) s{"/config"} (fun _ => None) in
  let h' := snd (Command.scan_device Sample.foundation (fun _ => [])
                                     env (Some sample_ieee) sample_host) in
  Command.get_device env sample_ieee = None
  /\ Command.radio h' = sample_radio /\ Command.saved h' = [].
Proof.
  intros env h'. split; [reflexivity|].
  exact (proj2 (scan_device_saves_only_a_finished_scan
                  Sample.foundation (fun _ => []) env (Some sample_ieee)
                  sample_host) eq_refl).
Defined.

Lemma path_join_scans dir name :
  Command.path_join dir [s{"scans"}; name]
  = if Command.starts_with_sep name then name
    else Command.path_join dir [s{"scans"}] ++ [47] ++ name.
Proof.
  unfold Command.path_join. cbn [fold_left].
  change (Command.starts_with_sep s{"scans"}) with false. cbv iota.
  destruct (Command.starts_with_sep name); [reflexivity|].
  assert (H : forall x : pystr,
             match x ++ s{"scans"} with [] => true | _ => false end
             || Command.ends_with_sep (x ++ s{"scans"}) = false).
  { intro x. unfold Command.ends_with_sep. rewrite rev_app_distr.
    destruct x; reflexivity. }
  destruct (match dir with [] => true | _ => false end
            || Command.ends_with_sep dir).
  - now rewrite H.
  - rewrite app_assoc. now rewrite H.
Qed.

(** X17: the model a device reports (that of its last endpoint other than
    0, a string as its manufacturer is) goes into the path as it is, and
    decides where the report is written: a model that begins with a slash
    makes the joined path the file name itself, the configuration
    directory dropped; with any other model the path is that of the
    directory [scans], a slash, and the file name, which begins with the
    model unchanged, whatever slashes and dots it has. *)
Theorem scan_device_path_follows_model
        fd str_other env ieee device h scan w epid ep before m f :
  Command.get_device env ieee = Some device ->
  scan_results fd device (Command.radio h) = (Ok scan, w) ->
  scanned_endpoints device = before ++ [(epid, ep)] ->
  model ep = PStr m -> manufacturer ep = PStr f ->
  let name := m ++ s{"_"} ++ f ++ s{"_"}
              ++ Command.hex_join (Command.last4 ieee)
              ++ s{"_scan_results.txt"} in
  Command.saved (snd (Command.scan_device fd str_other env (Some ieee) h))
  = Command.saved h
    ++ [ (if Command.starts_with_sep m then name
          else Command.path_join (Command.config_dir env) [s{"scans"}]
               ++ s{"/"} ++ name,
          scan) ].
Proof.
  intros Hd Hs He Hm Hf name.
  rewrite (@scan_device_saved_last fd str_other env ieee device h scan w
             epid ep before m f Hd Hs He Hm Hf).
  fold name. rewrite path_join_scans.
  replace (Command.starts_with_sep name) with (Command.starts_with_sep m)
    by (unfold name; destruct m; reflexivity).
  reflexivity.
Qed.

(** A model that is an absolute path, and one that climbs out of the
    directory. *)
Lemma scan_device_path_follows_model_witness :
  let device_of m :=
    MkDevice s{"00:0d:6f:00:0a:90:69:e7"} 4660
             [(1, MkEndpoint (PStr m) (PStr s{"ACME"}) 0 260 [] [])] in
  let env_of m :=
    Command.MkEnv (fun _ => Some (device_of m)) s{"/config"} (fun _ => None) in
  (exists scan,
      Command.saved
        (snd (Command.scan_device Sample.foundation (fun _ => [])
                                  (env_of s{"/tmp/x"}) (Some sample_ieee)
                                  sample_host))
      = [ (s{"/tmp/x_ACME_006f0d00_scan_results.txt"}, scan) ])
  /\ (exists scan,
         Command.saved
           (snd (Command.scan_device Sample.foundation (fun _ => [])
                                     (env_of s{"../../x"}) (Some sample_ieee)
                                     sample_host))
         = [ (s{"/config/scans/../../x_ACME_006f0d00_scan_results.txt"},
              scan) ]).
Proof.
  intros device_of env_of. split.
  - set (out := scan_results Sample.foundation (device_of s{"/tmp/x"})
                             sample_radio).
    assert (E : out = (Ok (match fst out with Ok r => r | _ => [] end), snd out))
      by (vm_compute; reflexivity).
    exists (match fst out with Ok r => r | _ => [] end).
    exact (@scan_device_path_follows_model
             Sample.foundation (fun _ => []) (env_of s{"/tmp/x"}) sample_ieee
             (device_of s{"/tmp/x"}) sample_host _ _ 1
             (MkEndpoint (PStr s{"/tmp/x"}) (PStr s{"ACME"}) 0 260 [] [])
             [] s{"/tmp/x"} s{"ACME"} eq_refl E eq_refl eq_refl eq_refl).
  - set (out := scan_results Sample.foundation (device_of s{"../../x"})
                             sample_radio).
    assert (E : out = (Ok (match fst out with Ok r => r | _ => [] end), snd out))
      by (vm_compute; reflexivity).
    exists (match fst out with Ok r => r | _ => [] end).
    exact (@scan_device_path_follows_model
             Sample.foundation (fun _ => []) (env_of s{"../../x"}) sample_ieee
             (device_of s{"../../x"}) sample_host _ _ 1
             (MkEndpoint (PStr s{"../../x"}) (PStr s{"ACME"}) 0 260 [] [])
             [] s{"../../x"} s{"ACME"} eq_refl E eq_refl eq_refl eq_refl).
Defined.

Lemma find_filter_hd {A} (f : A -> bool) l : find f l = hd_error (filter f l).
Proof.
  induction l as [|x l IH]; [reflexivity|]. cbn [find filter].
  destruct (f x); [reflexivity | exact IH].
Qed.

(** X18: [get_node_desc] and the scan do not name a device alike: the
    record logged has the model and the manufacturer of the first endpoint
    other than 0, the report of a scan those of the last; they agree on a
    device with one such endpoint, and a device with none is logged with
    [None] for both. *)
Theorem node_desc_names_first_endpoint fd device node_desc w report w' :
  scan_results fd device w = (Ok report, w') ->
  exists info,
    Command.get_node_desc [(device, node_desc)] = [info]
    /\ match scanned_endpoints device with
       | [] =>
           Command.info_model info = PNone
           /\ Command.info_manufacturer info = PNone
           /\ sget s{"model"} report = None
       | (epid, first) :: others =>
           Command.info_model info = model first
           /\ Command.info_manufacturer info = manufacturer first
           /\ sget s{"model"} report
              = Some (model (snd (last others (epid, first))))
           /\ sget s{"manufacturer"} report
              = Some (manufacturer (snd (last others (epid, first))))
       end.
Proof.
  intro Hs. destruct (scan_results_last _ _ _ Hs) as (Gm & Gf).
  eexists. split; [reflexivity|].
  unfold Command.first_endpoint. rewrite find_filter_hd.
  fold (scanned_endpoints device).
  destruct (scanned_endpoints device) as [|[epid first] others] eqn:E.
  - cbn. repeat split. exact Gm.
  - cbn [hd_error option_map snd Command.info_model Command.info_manufacturer].
    split; [reflexivity|]. split; [reflexivity|].
    assert (L : forall (x : N * Endpoint) l,
               exists r, rev (x :: l) = last l x :: r).
    { intros x l. revert x. induction l as [|y l IH]; intro x;
        [now exists []|].
      destruct (IH y) as (r & Hr).
      change (rev (x :: y :: l)) with (rev (y :: l) ++ [x]).
      rewrite Hr. exists (r ++ [x]).
      destruct l as [|z l]; [reflexivity|].
      change (last (y :: z :: l) x) with (last (z :: l) x).
      now rewrite (last_cons_default z l y x). }
    destruct (L (epid, first) others) as (r & Hr).
    rewrite Hr in Gm, Gf.
    destruct (last others (epid, first)) as [epid' ep']. now split.
Qed.

Lemma node_desc_names_first_endpoint_witness :
  exists report w' info,
    scan_results Sample.foundation sample_plug sample_radio = (Ok report, w')
    /\ Command.get_node_desc [(sample_plug, Command.MkNodeDesc PNone PNone)]
       = [info]
    /\ Command.info_model info = PStr s{"lumi.plug"}
    /\ sget s{"model"} report = Some (PStr s{"lumi.plug.2"}).
Proof.
  set (out := scan_results Sample.foundation sample_plug sample_radio).
  assert (E : out = (Ok (match fst out with Ok r => r | _ => [] end), snd out))
    by (vm_compute; reflexivity).
  destruct (node_desc_names_first_endpoint
              Sample.foundation sample_plug (Command.MkNodeDesc PNone PNone)
              sample_radio E) as (info & H1 & H2 & _ & H3 & _).
  exists (match fst out with Ok r => r | _ => [] end), (snd out), info.
  split; [exact E|]. split; [exact H1|]. split; [exact H2 | exact H3].
Defined.

(* ================================================================== *)
(** * [discover_device_endpoints] *)

Module DeviceEndpoints.

Inductive level : Type := INFO | ERROR.

Inductive zdo_request : Type :=
| Active_EP_req (nwk : N)
| Simple_Desc_req (nwk endpoint_id : N).

(** The answers still to come of the two ZDO requests (after the three
    tries each is given), [(status, nwk, endpoints)] and
    [(status, nwk, descriptor)]; the requests sent and the records logged,
    oldest first. *)
Record World : Type := MkWorld {
  active_ep_answers : list (outcome (N * N * list N));
  simple_desc_answers : list (outcome (N * N * pyval));
  sent : list zdo_request;
  logged : list (level * pystr)
}.

Definition M (A : Type) : Type := SM World A.

Definition log (l : level) (msg : pystr) : M unit :=
  fun w =>
    (Ok tt,
     MkWorld (active_ep_answers w) (simple_desc_answers w) (sent w)
             (logged w ++ [(l, msg)])).

(** [await dev.zdo.Active_EP_req(dev.nwk, tries=3, delay=2)] *)
Definition active_ep_req (nwk : N) : M (N * N * list N) :=
  fun w =>
    let sent' := sent w ++ [Active_EP_req nwk] in
    match active_ep_answers w with
    | [] => (Stuck, MkWorld [] (simple_desc_answers w) sent' (logged w))
    | o :: t => (answer o, MkWorld t (simple_desc_answers w) sent' (logged w))
    end.

(** [await dev.zdo.Simple_Desc_req(dev.nwk, endpoint_id, tries=3, delay=2)] *)
Definition simple_desc_req (nwk endpoint_id : N) : M (N * N * pyval) :=
  fun w =>
    let sent' := sent w ++ [Simple_Desc_req nwk endpoint_id] in
    match simple_desc_answers w with
    | [] => (Stuck, MkWorld (active_ep_answers w) [] sent' (logged w))
    | o :: t => (answer o, MkWorld (active_ep_answers w) t sent' (logged w))
    end.

(** The body of the loop over [epr[2]], and the loop. *)
Definition describe_step (nwk : N) (endpoints : list pyval) (endpoint_id : N)
  : M (list pyval) :=
  sdr <- simple_desc_req nwk endpoint_id ;;
  _ <- log INFO s{"[0x%04x] Endpoint %s info: %s"} ;;
  ret (endpoints ++ [snd sdr]).

Definition describe_endpoints (nwk : N) (endpoint_ids : list N)
  : M (list pyval) :=
  for_each (describe_step nwk) endpoint_ids [].

(** [get_device] is [app.get_device(ieee=...)], as the [nwk] of the device. *)
Definition discover_device_endpoints (get_device : list byte -> option N)
    (ieee : option (list byte)) : M unit :=
  match ieee with
  | None => log ERROR s{"Missing IEEE address"}
  | Some a =>
      match get_device a with
      | None => raise KeyError
      | Some nwk =>
          _ <- log INFO s{"[0x%04x] Discovering endpoints"} ;;
          fun w =>
            let failed :=
              log ERROR s{"Failed ZDO request during device initialization"} in
            match active_ep_req nwk w with
            | (Ok (status, _, endpoint_ids), w1) =>
                if status =? 0
                then
                  (_ <- log INFO s{"[0x%04x] Discovered endpoints: %s"} ;;
                   endpoints <- describe_endpoints nwk endpoint_ids ;;
                   _ <- log INFO s{"[0x%04x] Discovered endpoints: %s"} ;;
                   for_each (fun _ ep => log INFO s{"[0x%04x] Endpoint info: %s"})
                            endpoints tt) w1
                else failed w1            (* raise Exception: caught *)
            | (Raised e, w1) => failed w1 (* except Exception *)
            | (Stuck, w1) => (Stuck, w1)
            end
      end
  end.

End DeviceEndpoints.

Example discover_device_endpoints_ex :
  DeviceEndpoints.discover_device_endpoints
    (fun _ => Some 4660) (Some [x01])
    (DeviceEndpoints.MkWorld
       [Returns (0, 4660, [1; 242])]
       [Returns (0, 4660, PNone); Returns (0, 4660, PNone)] [] [])
  = (Ok tt,
     DeviceEndpoints.MkWorld [] []
       [ DeviceEndpoints.Active_EP_req 4660;
         DeviceEndpoints.Simple_Desc_req 4660 1;
         DeviceEndpoints.Simple_Desc_req 4660 242 ]
       [ (DeviceEndpoints.INFO, s{"[0x%04x] Discovering endpoints"});
         (DeviceEndpoints.INFO, s{"[0x%04x] Discovered endpoints: %s"});
         (DeviceEndpoints.INFO, s{"[0x%04x] Endpoint %s info: %s"});
         (DeviceEndpoints.INFO, s{"[0x%04x] Endpoint %s info: %s"});
         (DeviceEndpoints.INFO, s{"[0x%04x] Discovered endpoints: %s"});
         (DeviceEndpoints.INFO, s{"[0x%04x] Endpoint info: %s"});
         (DeviceEndpoints.INFO, s{"[0x%04x] Endpoint info: %s"}) ]).
Proof. reflexivity. Qed.

(** ** Properties of [discover_device_endpoints] *)

Module DeviceEndpointsFacts.
Import DeviceEndpoints.

Lemma describe_step_returns nwk acc i w d t :
  simple_desc_answers w = Returns d :: t ->
  describe_step nwk acc i w
  = (Ok (acc ++ [snd d]),
     DeviceEndpoints.MkWorld
       (active_ep_answers w) t (sent w ++ [Simple_Desc_req nwk i])
       (logged w ++ [(INFO, s{"[0x%04x] Endpoint %s info: %s"})])).
Proof.
  intro Ht. unfold describe_step, bind, simple_desc_req. now rewrite Ht.
Qed.

Lemma describe_step_raises nwk acc i w e t :
  simple_desc_answers w = Raises e :: t ->
  describe_step nwk acc i w
  = (Raised e,
     DeviceEndpoints.MkWorld
       (active_ep_answers w) t (sent w ++ [Simple_Desc_req nwk i]) (logged w)).
Proof.
  intro Ht. unfold describe_step, bind, simple_desc_req. now rewrite Ht.
Qed.

Lemma describe_endpoints_loop nwk : forall ids ds rest acc w,
    simple_desc_answers w = List.map Returns ds ++ rest ->
    length ds = length ids ->
    for_each (describe_step nwk) ids acc w
    = (Ok (acc ++ List.map snd ds),
       DeviceEndpoints.MkWorld
         (active_ep_answers w) rest
         (sent w ++ List.map (Simple_Desc_req nwk) ids)
         (logged w
          ++ repeat (INFO, s{"[0x%04x] Endpoint %s info: %s"}) (length ids))).
Proof.
  induction ids as [|i ids IH]; intros ds rest acc w Ht Hl.
  - destruct ds; [|discriminate]. cbn. rewrite !app_nil_r.
    destruct w; cbn in *. now subst.
  - destruct ds as [|d ds]; [discriminate|]. injection Hl as Hl.
    cbn [List.map app] in Ht.
    cbn [for_each]. unfold bind. rewrite (@describe_step_returns nwk acc i w _ _ Ht).
    rewrite (IH ds rest); [|reflexivity | exact Hl].
    cbn [active_ep_answers sent logged List.map length repeat].
    rewrite <- !app_assoc. reflexivity.
Qed.

Lemma describe_endpoints_raises nwk e : forall ids ds rest acc w,
    simple_desc_answers w = List.map Returns ds ++ Raises e :: rest ->
    (length ds < length ids)%nat ->
    exists logs,
      for_each (describe_step nwk) ids acc w
      = (Raised e,
         DeviceEndpoints.MkWorld
           (active_ep_answers w) rest
           (sent w
            ++ List.map (Simple_Desc_req nwk) (firstn (S (length ds)) ids))
           logs).
Proof.
  induction ids as [|i ids IH]; intros ds rest acc w Ht Hl;
    [simpl in Hl; lia|].
  destruct ds as [|d ds]; cbn [List.map app] in Ht;
    cbn [for_each]; unfold bind.
  - rewrite (@describe_step_raises nwk acc i w _ _ Ht). eexists. reflexivity.
  - rewrite (@describe_step_returns nwk acc i w _ _ Ht).
    match goal with
    | |- context [for_each _ ids ?acc1 ?w1] =>
        destruct (IH ds rest acc1 w1) as (logs & ->);
          [reflexivity | simpl in Hl; lia |]
    end.
    exists logs. cbn [active_ep_answers sent length firstn List.map].
    rewrite <- !app_assoc. reflexivity.
Qed.

Lemma log_each {A} (msg : pystr) : forall (l : list A) w,
    for_each (fun _ (_ : A) => log INFO msg) l tt w
    = (Ok tt,
       DeviceEndpoints.MkWorld
         (active_ep_answers w) (simple_desc_answers w) (sent w)
         (logged w ++ repeat (INFO, msg) (length l))).
Proof.
  induction l as [|x l IH]; intro w.
  - cbn. rewrite app_nil_r. now destruct w.
  - cbn [for_each]. unfold bind, log at 1. rewrite IH.
    cbn [active_ep_answers simple_desc_answers sent logged length repeat].
    now rewrite <- app_assoc.
Qed.

(** X19: a failure of the request for the active endpoints, an exception
    of any kind or an answer with a status other than 0, ends the command
    without raising: no descriptor is asked for, and one error is logged. *)
Theorem active_ep_failure_ends_quietly get_device a nwk w o t :
  get_device a = Some nwk ->
  active_ep_answers w = o :: t ->
  match o with
  | Raises _ => True
  | Returns (status, _, _) => status <> 0
  end ->
  discover_device_endpoints get_device (Some a) w
  = (Ok tt,
     DeviceEndpoints.MkWorld
       t (simple_desc_answers w) (sent w ++ [Active_EP_req nwk])
       (logged w
        ++ [ (INFO, s{"[0x%04x] Discovering endpoints"});
             (ERROR, s{"Failed ZDO request during device initialization"}) ])).
Proof.
  intros Hd Ht Ho. unfold discover_device_endpoints. rewrite Hd.
  unfold bind at 1, log at 1, active_ep_req.
  cbn [active_ep_answers simple_desc_answers sent logged]. rewrite Ht.
  destruct o as [e|[[status n] ids]]; cbn [answer].
  - unfold log. cbn. now rewrite <- app_assoc.
  - destruct (N.eqb_spec status 0) as [->|_]; [contradiction|].
    unfold log. cbn. now rewrite <- app_assoc.
Qed.

Lemma active_ep_failure_ends_quietly_witness :
  let w := DeviceEndpoints.MkWorld [Raises TimeoutError]
                                   [Returns (0, 4660, PNone)] [] [] in
  discover_device_endpoints (fun _ => Some 4660) (Some [x01]) w
  = (Ok tt,
     DeviceEndpoints.MkWorld
       [] [Returns (0, 4660, PNone)] [Active_EP_req 4660]
       [ (INFO, s{"[0x%04x] Discovering endpoints"});
         (ERROR, s{"Failed ZDO request during device initialization"}) ]).
Proof.
  intro w.
  exact (@active_ep_failure_ends_quietly (fun _ => Some 4660) [x01] 4660 w
           (Raises TimeoutError) [] eq_refl eq_refl I).
Defined.

(** X20: when the active endpoints are answered with status 0 and every
    descriptor request returns, the command asks for the descriptor of
    each endpoint listed, endpoint 0 included, in the order of the list and
    once each, whatever status the descriptors come with, and logs
    3 + 2n records for n endpoints. *)
Theorem endpoints_described_in_order get_device a nwk w n ids t ds rest :
  get_device a = Some nwk ->
  active_ep_answers w = Returns (0, n, ids) :: t ->
  simple_desc_answers w = List.map Returns ds ++ rest ->
  length ds = length ids ->
  exists w',
    discover_device_endpoints get_device (Some a) w = (Ok tt, w')
    /\ sent w'
       = sent w ++ Active_EP_req nwk :: List.map (Simple_Desc_req nwk) ids
    /\ active_ep_answers w' = t
    /\ simple_desc_answers w' = rest
    /\ length (logged w') = (length (logged w) + 3 + 2 * length ids)%nat
    /\ Forall (fun r => fst r = INFO)
              (skipn (length (logged w)) (logged w')).
Proof.
  intros Hd Ha Ht Hl. unfold discover_device_endpoints. rewrite Hd.
  unfold bind at 1, log at 1, active_ep_req.
  cbn [active_ep_answers simple_desc_answers sent logged]. rewrite Ha.
  cbn [answer N.eqb]. unfold bind at 1, log at 1.
  unfold bind at 1, describe_endpoints.
  rewrite (describe_endpoints_loop nwk ids ds rest); [|exact Ht | exact Hl].
  unfold bind at 1, log at 1. rewrite log_each.
  cbn [active_ep_answers simple_desc_answers sent logged].
  eexists. split; [reflexivity|].
  cbn [active_ep_answers simple_desc_answers sent logged].
  split; [now rewrite <- app_assoc|]. split; [reflexivity|].
  split; [reflexivity|]. split.
  - rewrite !length_app, !repeat_length, length_map. cbn [length]. lia.
  - rewrite <- !app_assoc. rewrite skipn_app, skipn_all, Nat.sub_diag.
    cbn [app skipn]. rewrite length_map.
    repeat (first [ apply Forall_cons; [reflexivity|]
                  | apply Forall_app; split
                  | apply Forall_forall; intros x Hx;
                    apply repeat_spec in Hx; now subst
                  | apply Forall_nil ]).
Qed.

Lemma endpoints_described_in_order_witness :
  let w := DeviceEndpoints.MkWorld
             [Returns (0, 4660, [0; 1; 242])]
             [Returns (0, 4660, PNone); Returns (132, 4660, PNone);
              Returns (0, 4660, PNone)] [] [] in
  exists w',
    discover_device_endpoints (fun _ => Some 4660) (Some [x01]) w = (Ok tt, w')
    /\ sent w'
       = [ Active_EP_req 4660; Simple_Desc_req 4660 0;
           Simple_Desc_req 4660 1; Simple_Desc_req 4660 242 ]
    /\ active_ep_answers w' = []
    /\ simple_desc_answers w' = []
    /\ length (logged w') = 9%nat
    /\ Forall (fun r => fst r = INFO) (skipn 0 (logged w')).
Proof.
  intro w.
  exact (@endpoints_described_in_order (fun _ => Some 4660) [x01] 4660 w 4660
           [0; 1; 242] []
           [(0, 4660, PNone); (132, 4660, PNone); (0, 4660, PNone)] []
           eq_refl eq_refl eq_refl eq_refl).
Defined.

(** X21: an exception of a descriptor request is not caught as that of the
    first request is: it leaves the command, after the requests for the
    endpoints up to the failing one, the others unasked. *)
Theorem descriptor_failure_leaves_command get_device a nwk w n ids t ds e rest :
  get_device a = Some nwk ->
  active_ep_answers w = Returns (0, n, ids) :: t ->
  simple_desc_answers w = List.map Returns ds ++ Raises e :: rest ->
  (length ds < length ids)%nat ->
  exists w',
    discover_device_endpoints get_device (Some a) w = (Raised e, w')
    /\ sent w'
       = sent w
         ++ Active_EP_req nwk
            :: List.map (Simple_Desc_req nwk) (firstn (S (length ds)) ids)
    /\ simple_desc_answers w' = rest.
Proof.
  intros Hd Ha Ht Hl. unfold discover_device_endpoints. rewrite Hd.
  unfold bind at 1, log at 1, active_ep_req.
  cbn [active_ep_answers simple_desc_answers sent logged]. rewrite Ha.
  cbn [answer N.eqb]. unfold bind at 1, log at 1.
  unfold bind at 1, describe_endpoints.
  match goal with
  | |- context [for_each _ ids [] ?w1] =>
      destruct (describe_endpoints_raises nwk e ids ds rest [] w1)
        as (logs & ->); [exact Ht | exact Hl |]
  end.
  eexists. split; [reflexivity|].
  cbn [active_ep_answers simple_desc_answers sent logged].
  split; [now rewrite <- app_assoc | reflexivity].
Qed.

Lemma descriptor_failure_leaves_command_witness :
  let w := DeviceEndpoints.MkWorld
             [Returns (0, 4660, [1; 2; 3])]
             [Returns (0, 4660, PNone); Raises DeliveryError;
              Returns (0, 4660, PNone)] [] [] in
  exists w',
    discover_device_endpoints (fun _ => Some 4660) (Some [x01]) w
    = (Raised DeliveryError, w')
    /\ sent w'
       = [ Active_EP_req 4660; Simple_Desc_req 4660 1; Simple_Desc_req 4660 2 ]
    /\ simple_desc_answers w' = [Returns (0, 4660, PNone)].
Proof.
  intro w.
  exact (@descriptor_failure_leaves_command (fun _ => Some 4660) [x01] 4660 w
           4660 [1; 2; 3] [] [(0, 4660, PNone)] DeliveryError
           [Returns (0, 4660, PNone)] eq_refl eq_refl eq_refl
           ltac:(vm_compute; lia)).
Defined.

End DeviceEndpointsFacts.

(* ================================================================== *)
(** * More on the scan and on the ZDO commands *)

Lemma scan_results_raises_through
      fd device w epid ep others cluster clusters e w1 :
  scanned_endpoints device = (epid, ep) :: others ->
  in_clusters ep = cluster :: clusters ->
  discover_attribute_pages fd cluster None w = (Raised e, w1) ->
  scan_results fd device w = (Raised e, w1).
Proof.
  intros Hs Hc Hr.
  assert (Hne : epid <> 0).
  { assert (Hin : In (epid, ep) (scanned_endpoints device))
      by (rewrite Hs; now left).
    unfold scanned_endpoints in Hin. apply filter_In in Hin.
    destruct Hin as (_ & Hin). cbn [fst] in Hin.
    intro E. subst. discriminate Hin. }
  apply (@scan_cluster_raises_through fd cluster true e w w1) in Hr.
  rewrite scan_results_unfold. unfold bind at 1.
  rewrite scan_results_loop_skips. fold (scanned_endpoints device). rewrite Hs.
  cbn [for_each]. unfold scan_results_body at 1.
  destruct (N.eqb_spec epid 0) as [E|_]; [contradiction|].
  unfold scan_endpoint, scan_clusters. rewrite Hc. cbn [for_each].
  unfold bind. rewrite Hr. reflexivity.
Qed.

(** X24: the scan of a device is all or nothing: an exception that leaves
    the discovery of the attributes of the first cluster scanned (the
    first input cluster of the first endpoint other than 0) leaves
    [scan_results], which returns no report, not even a partial one.  Such
    are an exception other than [DeliveryError] of a request, and the
    [AttributeError] of a record whose data type cannot be named, in both
    cases after pages whose records have data types that can. *)
Theorem scan_results_raises_with_its_first_cluster
        fd device w epid ep others cluster clusters :
  scanned_endpoints device = (epid, ep) :: others ->
  in_clusters ep = cluster :: clusters ->
  (forall e pages later,
      e <> DeliveryError ->
      attr_tape w = List.map more pages ++ Raises e :: later ->
      forallb (type_named fd) (concat pages) = true ->
      fst (scan_results fd device w) = Raised e)
  /\ (forall pages done good bad rest later,
         attr_tape w = List.map more pages
                       ++ Returns (done, Records (good ++ bad :: rest)) :: later ->
         forallb (type_named fd) (concat pages ++ good) = true ->
         type_named fd bad = false ->
         fst (scan_results fd device w) = Raised AttributeError).
Proof.
  intros Hs Hc. split.
  - intros e pages later He Ht Hn.
    destruct (@attribute_pages_raise fd cluster None pages e later w Ht He Hn)
      as (w1 & Hr & _).
    now rewrite (@scan_results_raises_through fd device w epid ep others
                   cluster clusters e w1 Hs Hc Hr).
  - intros pages done good bad rest later Ht Hn Hb.
    destruct (@attribute_pages_unnamed fd cluster None pages done good bad rest
                                       later w Ht Hn Hb) as (w1 & Hr & _).
    now rewrite (@scan_results_raises_through fd device w epid ep others
                   cluster clusters AttributeError w1 Hs Hc Hr).
Qed.

(** The plug, its first attribute of a data type without a class, and the
    plug on a radio that times out: no report. *)
Lemma scan_results_raises_with_its_first_cluster_witness :
  let w := MkWorld [Returns (true, Records [AttrRec 0 255 1])] [] [] [] [] in
  let wt := MkWorld [Raises TimeoutError] [] [] [] [] in
  scanned_endpoints sample_plug
  = [ (1, MkEndpoint (PStr s{"lumi.plug"}) (PStr s{"LUMI"}) 81 260
                     [Sample.on_off] []);
      (2, MkEndpoint (PStr s{"lumi.plug.2"}) PNone 9 260 [] []) ]
  /\ type_named Sample.foundation (AttrRec 0 255 1) = false
  /\ fst (scan_results Sample.foundation sample_plug w) = Raised AttributeError
  /\ TimeoutError <> DeliveryError
  /\ fst (scan_results Sample.foundation sample_plug wt) = Raised TimeoutError.
Proof.
  intros w wt.
  assert (He : TimeoutError <> DeliveryError) by discriminate.
  split; [reflexivity|]. split; [reflexivity|]. split; [|split; [exact He|]].
  - exact (proj2 (@scan_results_raises_with_its_first_cluster
                    Sample.foundation sample_plug w 1
                    (MkEndpoint (PStr s{"lumi.plug"}) (PStr s{"LUMI"}) 81 260
                                [Sample.on_off] [])
                    [(2, MkEndpoint (PStr s{"lumi.plug.2"}) PNone 9 260 [] [])]
                    Sample.on_off [] eq_refl eq_refl)
                 [] true [] (AttrRec 0 255 1) [] [] eq_refl eq_refl eq_refl).
  - exact (proj1 (@scan_results_raises_with_its_first_cluster
                    Sample.foundation sample_plug wt 1
                    (MkEndpoint (PStr s{"lumi.plug"}) (PStr s{"LUMI"}) 81 260
                                [Sample.on_off] [])
                    [(2, MkEndpoint (PStr s{"lumi.plug.2"}) PNone 9 260 [] [])]
                    Sample.on_off [] eq_refl eq_refl)
                 TimeoutError [] [] He eq_refl eq_refl).
Defined.

(** X22: an input that is there but of no use makes a ZDO command raise
    before it touches the radio: [leave] when [data] is no hexadecimal
    number or names no known device (a [KeyError] then), [ieee_ping] for an
    unknown address (a [KeyError]), [update_nwk_id] when [data] is no
    [uint8]. *)
Theorem zdo_commands_raise_before_transport
        int_base16 uint8_t update_payload app w :
  (forall a data,
      Zdo.falsy data = false ->
      match int_base16 data with
      | None => True
      | Some n => Zdo.device_by_nwk app n = None
      end ->
      exists e w',
        Zdo.leave int_base16 app (Some a) data w = (Raised e, w')
        /\ (int_base16 data <> None -> e = KeyError)
        /\ Zdo.transport w' = Zdo.transport w
        /\ Zdo.answers w' = Zdo.answers w)
  /\ (forall a data,
         Zdo.device_by_ieee app a = None ->
         Zdo.ieee_ping app (Some a) data w = (Raised KeyError, w))
  /\ (forall ieee data,
         data <> PNone -> uint8_t data = None ->
         exists e,
           Zdo.update_nwk_id uint8_t update_payload app ieee data w
           = (Raised e, w)).
Proof.
  split; [|split].
  - intros a data Hf Hd. unfold Zdo.leave. rewrite Hf. cbn [orb].
    unfold bind at 1, Zdo.log at 1. unfold bind at 1.
    destruct (int_base16 data) as [n|].
    + cbn [Zdo.convert ret]. unfold bind at 1. rewrite Hd.
      cbn [Zdo.get_device raise]. eexists; eexists. repeat split.
    + cbn [Zdo.convert raise]. eexists; eexists.
      split; [reflexivity|]. split; [intro H; now elim H|]. now split.
  - intros a data Hd. unfold Zdo.ieee_ping, bind. now rewrite Hd.
  - intros ieee data Hn Hu. unfold Zdo.update_nwk_id.
    destruct data; try contradiction; unfold bind; rewrite Hu;
      eexists; reflexivity.
Qed.

(** [leave] told of a parent the controller does not know. *)
Lemma zdo_commands_raise_before_transport_witness :
  let w := Zdo.MkWorld [Returns PNone] [] [] in
  let app := Zdo.MkApp (fun _ => None) (fun _ => None) in
  Zdo.falsy (PStr s{"1234"}) = false
  /\ Zdo.device_by_nwk app 4660 = None
  /\ exists e w',
      Zdo.leave (fun _ => Some 4660) app (Some s{"00:0d:6f:00:0a:90:69:e7"})
                (PStr s{"1234"}) w = (Raised e, w')
      /\ (Some 4660 <> None -> e = KeyError)
      /\ Zdo.transport w' = []
      /\ Zdo.answers w' = [Returns PNone].
Proof.
  intros w app. split; [reflexivity|]. split; [reflexivity|].
  exact (proj1 (zdo_commands_raise_before_transport
                  (fun _ => Some 4660) (fun _ => None) (fun _ => []) app w)
               s{"00:0d:6f:00:0a:90:69:e7"} (PStr s{"1234"}) eq_refl eq_refl).
Defined.

(** X23: no ZDO command tries again or goes on after a transport call
    that raises: the exception leaves the command with that one call in
    the log of the transport, so that [update_nwk_id] does not read the
    network parameters after a failed broadcast, nor [join_with_code] open
    the network after a failed key. *)
Theorem zdo_commands_stop_at_failed_call
        int_base16 uint8_t update_payload app w e rest :
  Zdo.answers w = Raises e :: rest ->
  (forall a data n parent,
      Zdo.falsy data = false -> int_base16 data = Some n ->
      Zdo.device_by_nwk app n = Some parent ->
      exists w',
        Zdo.leave int_base16 app (Some a) data w = (Raised e, w')
        /\ Zdo.transport w'
           = Zdo.transport w
             ++ [Zdo.ZdoRequest parent Zdo.Mgmt_Leave_req [PStr a; PInt 2]]
        /\ Zdo.answers w' = rest)
  /\ (forall a data dev,
         Zdo.device_by_ieee app a = Some dev ->
         exists w',
           Zdo.ieee_ping app (Some a) data w = (Raised e, w')
           /\ Zdo.transport w'
              = Zdo.transport w
                ++ [Zdo.ZdoRequest dev Zdo.IEEE_addr_req
                                   [PInt (Z.of_N dev); PInt 0; PInt 0]]
           /\ Zdo.answers w' = rest)
  /\ (forall ieee data id,
         data <> PNone -> uint8_t data = Some id ->
         exists w',
           Zdo.update_nwk_id uint8_t update_payload app ieee data w
           = (Raised e, w')
           /\ Zdo.transport w'
              = Zdo.transport w
                ++ [Zdo.Broadcast Zdo.Mgmt_NWK_Update_req
                                  (PBytes (update_payload id))]
           /\ Zdo.answers w' = rest)
  /\ (forall ieee data,
         exists w' node key,
           Zdo.join_with_code app ieee data w = (Raised e, w')
           /\ Zdo.transport w'
              = Zdo.transport w ++ [Zdo.AddTransientLinkKey node key]
           /\ Zdo.answers w' = rest).
Proof.
  intro Ha. split; [|split; [|split]].
  - intros a data n parent Hf Hn Hp. unfold Zdo.leave. rewrite Hf. cbn [orb].
    unfold bind, Zdo.log, Zdo.send. rewrite Hn. cbn [Zdo.convert ret].
    rewrite Hp. cbn [Zdo.get_device ret Zdo.answers Zdo.transport].
    rewrite Ha. eexists. repeat split.
  - intros a data dev Hd. unfold Zdo.ieee_ping, bind, Zdo.log, Zdo.send.
    rewrite Hd. cbn [Zdo.get_device ret Zdo.answers Zdo.transport].
    rewrite Ha. eexists. repeat split.
  - intros ieee data id Hn Hu. unfold Zdo.update_nwk_id.
    destruct data; try contradiction;
      unfold bind, Zdo.send; rewrite Hu; cbn [Zdo.convert ret];
      rewrite Ha; eexists; repeat split.
  - intros ieee data. unfold Zdo.join_with_code, bind, Zdo.send.
    rewrite Ha. eexists; eexists; eexists. repeat split.
Qed.

Lemma zdo_commands_stop_at_failed_call_witness :
  let w := Zdo.MkWorld [Raises DeliveryError; Returns PNone] [] [] in
  let app := Zdo.MkApp (fun _ => None) (fun _ => None) in
  Zdo.answers w = Raises DeliveryError :: [Returns PNone]
  /\ PInt 7 <> PNone
  /\ exists w',
      Zdo.update_nwk_id (fun _ => Some 7) (fun _ => [xee]) app None (PInt 7) w
      = (Raised DeliveryError, w')
      /\ Zdo.transport w'
         = [Zdo.Broadcast Zdo.Mgmt_NWK_Update_req (PBytes [xee])]
      /\ Zdo.answers w' = [Returns PNone].
Proof.
  intros w app.
  assert (H : PInt 7 <> PNone) by discriminate.
  split; [reflexivity|]. split; [exact H|].
  exact (proj1 (proj2 (proj2 (@zdo_commands_stop_at_failed_call
                                (fun _ => None) (fun _ => Some 7)
                                (fun _ => [xee]) app w DeliveryError
                                [Returns PNone] eq_refl)))
               None (PInt 7) 7 H eq_refl).
Defined.
